(** * WhatsMyName maintenance scripts: a shallow embedding

    The development follows the four Python modules of [scripts/]:

    - [wmn_base.py]             the storage accessor [WMNBase] (lazy caches,
                                reading, parsing, writing);
    - [wmn_format_dataset.py]   the canonicaliser [WMNDataFormatter];
    - [wmn_hash_dataset.py]     the integrity hasher [WMNDataHasher];
    - [wmn_validate_dataset.py] the validator [WMNDataValidator].

    Modelling decisions.

    - A parsed JSON document is a value of [json].  A Python [dict] keeps
      insertion order, so an object is an association list; [dict_set],
      [dict_get] and [dict_of_items] follow [d[k] = v], [d.get(k)] and
      [dict(items)].  Python's [None] is [JNull].  A JSON number is an
      integer: the scripts compute with no number, and the one place where
      the kind of a number shows is the equality of names in
      [validate_duplicates].
    - A Python [str] is a [string] holding its UTF-8 bytes; comparing two
      such strings byte by byte is comparing them code point by code point.
      A [Path] is a [string] too, the path in the normal form in which
      [pathlib] compares paths.
    - The disk is a function from paths to what is found there; the
      outcomes of [read_text] and [write_text] are those that
      [read_file_content] and [write_file_content] tell apart.  A text
      file holds its characters as they were written, the line separator
      of the system being the line feed; [read_text] reads every line
      end as a line feed, as Python's text mode does.  Every call of
      [write_text] is recorded in [written]: a method that leaves
      [written] and [disk] as they were has written nothing.
    - Methods that read or assign attributes of [self], or touch the disk,
      live in the monad [M]: a function from a [world] to a result and the
      world left behind.  An exception is a result [Raise e]; what was
      assigned before the exception stays assigned, as in Python.
    - Library functions that the scripts call but do not define
      ([str.casefold], [str.strip], [str()], [json.dumps], [json.loads],
      [str.encode], [hashlib.sha256]) are the fields of the class
      [Runtime]; every theorem holds for every instance.  [json.loads]
      returns a value or raises: the exception may be any, so that those
      which [parse_json_data] does not catch are seen to escape.  The
      class states two facts of the library on which reading back what
      was written depends: the text of [json.dumps] and a digest hold no
      carriage return.
    - Log records are not modelled; exception messages are left out, an
      exception is identified by its class.

    The definitions come first, in the order of the modules, with the
    runtime and the documents of the examples and, after them, the
    setters, the schema validation and the three entry points; the
    only lemmas among them are those that the runtime of the examples
    needs to be an instance.  Then come the properties: the claims C1
    to C10 about the scripts, each with the lemmas that lead to it, and
    after them further properties X1 to X30 of the accessors, the
    canonicaliser, the hasher, the validator and the three programs. *)

From Stdlib Require Import String Ascii List ZArith Lia Bool Sorted Permutation.
From Stdlib Require Import DecimalString.
From Stdlib Require OrderedTypeEx.
Import ListNotations.

Set Implicit Arguments.
#[local] Set Warnings "-register-all".
Local Open Scope string_scope.
Local Open Scope list_scope.

(** ** JSON values *)

Inductive json : Type :=
| JNull
| JBool (b : bool)
| JInt (n : Z)
| JStr (s : string)
| JArr (items : list json)
| JObj (fields : list (string * json)).

(** A Python [dict] with [str] keys, in insertion order. *)
Definition dict := list (string * json).

Fixpoint dict_get (k : string) (d : dict) : option json :=
  match d with
  | [] => None
  | (k', v) :: d' => if k =? k' then Some v else dict_get k d'
  end.

(** [d[k] = v]: an existing key keeps its place, a new key goes last. *)
Fixpoint dict_set (k : string) (v : json) (d : dict) : dict :=
  match d with
  | [] => [(k, v)]
  | (k', v') :: d' =>
      if k =? k' then (k', v) :: d' else (k', v') :: dict_set k v d'
  end.

Definition dict_keys (d : dict) : list string := map fst d.

(** [k in d], for a dict and for a list of keys. *)
Definition key_in (k : string) (ks : list string) : bool :=
  existsb (String.eqb k) ks.

Definition dict_mem (k : string) (d : dict) : bool := key_in k (dict_keys d).

(** [dict(items)]: the pairs are inserted from left to right. *)
Definition dict_of_items (items : list (string * json)) : dict :=
  fold_left (fun d kv => dict_set (fst kv) (snd kv) d) items [].

(** The keys of [dict(items)]: every key once, where it came first. *)
Definition add_key (ks : list string) (k : string) : list string :=
  if key_in k ks then ks else ks ++ [k].

(** Truth value of a JSON value in a Python condition. *)
Definition truthy (v : json) : bool :=
  match v with
  | JNull => false
  | JBool b => b
  | JInt n => negb (n =? 0)%Z
  | JStr s => negb (s =? EmptyString)
  | JArr l => match l with [] => false | _ => true end
  | JObj d => match d with [] => false | _ => true end
  end.

Definition is_None (v : json) : bool :=
  match v with JNull => true | _ => false end.

(** ** Constants ([wmn_constants.py]) *)

Definition DEFAULT_DATA : string := "wmn-data.json".
Definition DEFAULT_SCHEMA : string := "wmn-data-schema.json".
Definition HASH_FILE_EXTENSION : string := ".sha256".
Definition SITES_KEY : string := "sites".
Definition NAME_KEY : string := "name".
Definition AUTHORS_KEY : string := "authors".
Definition CATEGORIES_KEY : string := "categories".
Definition HEADERS_KEY : string := "headers".
Definition PROPERTIES_KEY : string := "properties".
Definition ITEMS_KEY : string := "items".

(** ** Exceptions ([wmn_exceptions.py] and the built-in ones that can
    escape from the scripts) *)

Inductive exn : Type :=
| WMNFileError
| WMNValidationError
| WMNFormatError
| WMNSchemaError
| WMNHashError
| AttributeError
| TypeError
| ValueError
| JSONDecodeError (* a subclass of [ValueError] *)
| RecursionError
| KeyError
| IndexError
| OSError.

(** [isinstance(e, WMNError)]. *)
Definition is_WMNError (e : exn) : bool :=
  match e with
  | WMNFileError | WMNValidationError | WMNFormatError
  | WMNSchemaError | WMNHashError => true
  | _ => false
  end.

Inductive result (A : Type) : Type :=
| OK (a : A)
| Raise (e : exn).
Arguments OK {A} a.
Arguments Raise {A} e.

Definition rbind {A B} (r : result A) (f : A -> result B) : result B :=
  match r with
  | OK a => f a
  | Raise e => Raise e
  end.

(** A comprehension [[f(x) for x in l]] whose body may raise. *)
Fixpoint map_result {A B} (f : A -> result B) (l : list A) : result (list B) :=
  match l with
  | [] => OK []
  | x :: l' => rbind (f x) (fun y => rbind (map_result f l') (fun ys => OK (y :: ys)))
  end.

(** ** Line ends

    [Path.read_text] opens the file with universal newlines: a carriage
    return, alone or followed by a line feed, is read as a line feed. *)

Definition carriage_return : ascii := ascii_of_nat 13.

Definition line_feed : ascii := ascii_of_nat 10.

Fixpoint universal_newlines (s : string) : string :=
  match s with
  | EmptyString => EmptyString
  | String c rest =>
      if Ascii.eqb c carriage_return then
        match rest with
        | String c' _ =>
            if Ascii.eqb c' line_feed then universal_newlines rest
            else String line_feed (universal_newlines rest)
        | EmptyString => String line_feed EmptyString
        end
      else String c (universal_newlines rest)
  end.

Fixpoint has_carriage_return (s : string) : bool :=
  match s with
  | EmptyString => false
  | String c rest => Ascii.eqb c carriage_return || has_carriage_return rest
  end.

(** ** Library functions used by the scripts *)

Class Runtime : Type := {
  (** [str.casefold] *)
  casefold : string -> string;
  (** [str.strip] *)
  strip : string -> string;
  (** [str(v)] for a value that is not a [str] *)
  repr : json -> string;
  (** [json.dumps(v, indent=2, ensure_ascii=False)]; [None] stands for
      the failure to serialise, as of a document nested too deep *)
  dumps : json -> option string;
  (** [json.loads]: the value, or the exception that is raised, which
      is [JSONDecodeError] for a text that is not JSON, [ValueError] for
      an integer with more digits than the interpreter converts and
      [RecursionError] for a text nested too deep *)
  loads : string -> result json;
  (** [s.encode("utf-8")]; [None] stands for [UnicodeEncodeError] *)
  encode : string -> option string;
  (** [hashlib.sha256(bytes).hexdigest()] *)
  sha256_hexdigest : string -> string;
  (** [json.dumps] escapes a carriage return in a string and breaks the
      lines with line feeds: its text holds no carriage return *)
  dumps_line_ends :
    forall v text, dumps v = Some text -> has_carriage_return text = false;
  (** a digest is made of hexadecimal digits *)
  hexdigest_line_ends :
    forall bytes, has_carriage_return (sha256_hexdigest bytes) = false
}.

(** ** [sorted(l, key=...)]

    Python's sort is stable and compares keys with [<].  The model inserts
    each element in front of the first one whose key is not smaller, which
    yields the same list as any stable sort. *)

Section Sorting.
Context {A : Type} (key : A -> string).

Fixpoint insert_by (x : A) (l : list A) : list A :=
  match l with
  | [] => [x]
  | y :: l' =>
      if (key x <=? key y)%string then x :: l else y :: insert_by x l'
  end.

Definition sorted (l : list A) : list A := fold_right insert_by [] l.

(** The order of the keys, to state that a list is sorted. *)
Definition key_le (a b : A) : Prop := (key a <=? key b)%string = true.
End Sorting.

(** ** The world: the formatter object and the disk *)

Definition path := string.

(** What a path on the disk leads to. *)
Inductive entry : Type :=
| Regular (text : string)  (* a text file that can be read and replaced *)
| ReadOnly (text : string) (* a text file that can be read only *)
| Garbled                  (* a file whose bytes are not UTF-8 *)
| Directory
| Forbidden                (* no permission to read or to write *)
| Missing                  (* nothing there, the directory exists *)
| Orphan                   (* nothing there, nor the directory *)
| Faulty.                  (* any other failure of the operating system *)

Inductive os_error : Type :=
| FileNotFoundError
| IsADirectoryError
| PermissionError
| UnicodeDecodeError
| UnicodeEncodeError
| OtherOSError.

(** The attributes of a [WMNBase] instance (the logger apart). *)
Record WMNBase : Type := mkWMNBase {
  data_path : path;
  schema_path : path;
  _data : json;
  _schema : json;
  _data_raw : option string;
  _schema_raw : option string
}.

Record world : Type := mkWorld {
  self : WMNBase;
  disk : path -> entry;
  (** every call of [Path.write_text], the latest first *)
  written : list (path * string)
}.

Definition M (A : Type) : Type := world -> result A * world.

Definition ret {A} (a : A) : M A := fun w => (OK a, w).

Definition raise {A} (e : exn) : M A := fun w => (Raise e, w).

Definition bind {A B} (m : M A) (f : A -> M B) : M B :=
  fun w =>
    match m w with
    | (OK a, w') => f a w'
    | (Raise e, w') => (Raise e, w')
    end.

(** [try: m  except <handled>: h]: an exception of [m] goes to the handler. *)
Definition try_except {A} (m : M A) (h : exn -> M A) : M A :=
  fun w =>
    match m w with
    | (OK a, w') => (OK a, w')
    | (Raise e, w') => h e w'
    end.

Definition lift {A} (r : result A) : M A := fun w => (r, w).

Declare Scope wmn_scope.
Delimit Scope wmn_scope with wmn.
Notation "x <- m ;; k" := (bind m (fun x => k))
  (at level 100, m at next level, right associativity) : wmn_scope.
Notation "m ;; k" := (bind m (fun _ => k))
  (at level 100, right associativity) : wmn_scope.
Local Open Scope wmn_scope.

Definition get_self : M WMNBase := fun w => (OK (self w), w).

Definition set_self (f : WMNBase -> WMNBase) : M unit :=
  fun w => (OK tt, mkWorld (f (self w)) (disk w) (written w)).

(** [self._data = v] and its three siblings. *)
Definition assign_data (v : json) (me : WMNBase) : WMNBase :=
  mkWMNBase (data_path me) (schema_path me) v (_schema me)
            (_data_raw me) (_schema_raw me).

Definition assign_schema (v : json) (me : WMNBase) : WMNBase :=
  mkWMNBase (data_path me) (schema_path me) (_data me) v
            (_data_raw me) (_schema_raw me).

Definition assign_data_raw (s : option string) (me : WMNBase) : WMNBase :=
  mkWMNBase (data_path me) (schema_path me) (_data me) (_schema me)
            s (_schema_raw me).

Definition assign_schema_raw (s : option string) (me : WMNBase) : WMNBase :=
  mkWMNBase (data_path me) (schema_path me) (_data me) (_schema me)
            (_data_raw me) s.

(** [WMNBase.__init__]: nothing is cached yet. *)
Definition init (data_path schema_path : path) : WMNBase :=
  mkWMNBase data_path schema_path JNull JNull None None.

Definition upd (fs : path -> entry) (p : path) (e : entry) : path -> entry :=
  fun q => if q =? p then e else fs q.

(** The world after [self._data = v]. *)
Definition with_data (v : json) (w : world) : world :=
  mkWorld (assign_data v (self w)) (disk w) (written w).

(** Two worlds in which the schema is the same: attribute, cached text,
    path and disk. *)
Definition same_schema (w v : world) : Prop :=
  _schema (self w) = _schema (self v)
  /\ _schema_raw (self w) = _schema_raw (self v)
  /\ schema_path (self w) = schema_path (self v)
  /\ disk w (schema_path (self w)) = disk v (schema_path (self v)).

(** Two worlds that differ in the schema attributes at most. *)
Definition same_but_schema (w v : world) : Prop :=
  _data (self w) = _data (self v)
  /\ _data_raw (self w) = _data_raw (self v)
  /\ data_path (self w) = data_path (self v)
  /\ schema_path (self w) = schema_path (self v)
  /\ disk w = disk v
  /\ written w = written v.

Section Scripts.
Context {rt : Runtime}.

(** *** The disk *)

(** [Path.read_text(encoding="utf-8")]: the text of the file, its line
    ends read as line feeds. *)
Definition read_text (p : path) (w : world) : os_error + string :=
  match disk w p with
  | Regular s | ReadOnly s => inr (universal_newlines s)
  | Garbled => inl UnicodeDecodeError
  | Directory => inl IsADirectoryError
  | Forbidden => inl PermissionError
  | Missing | Orphan => inl FileNotFoundError
  | Faulty => inl OtherOSError
  end.

(** [Path.write_text(content, encoding="utf-8")]: the file is opened for
    writing, which empties it, and then receives the encoded text, the
    line feeds as they are. *)
Definition write_text (p : path) (content : string) (w : world)
  : option os_error * world :=
  let log := (p, content) :: written w in
  match disk w p with
  | Directory => (Some IsADirectoryError, mkWorld (self w) (disk w) log)
  | Forbidden | ReadOnly _ =>
      (Some PermissionError, mkWorld (self w) (disk w) log)
  | Orphan => (Some FileNotFoundError, mkWorld (self w) (disk w) log)
  | Faulty => (Some OtherOSError, mkWorld (self w) (disk w) log)
  | Regular _ | Garbled | Missing =>
      match encode content with
      | Some _ =>
          (None, mkWorld (self w) (upd (disk w) p (Regular content)) log)
      | None =>
          (Some UnicodeEncodeError,
           mkWorld (self w) (upd (disk w) p (Regular EmptyString)) log)
      end
  end.

(** *** [wmn_base.py] *)

Definition read_file_content (file_path : path) : M string :=
  fun w =>
    match read_text file_path w with
    | inr s => (OK s, w)
    | inl FileNotFoundError => (Raise WMNFileError, w)
    | inl IsADirectoryError => (Raise WMNFileError, w)
    | inl PermissionError => (Raise WMNFileError, w)
    | inl UnicodeDecodeError => (Raise WMNFileError, w)
    | inl _ => (Raise OSError, w)
    end.

Definition parse_json_data (data : string) : result json :=
  match loads data with
  | OK v => OK v
  | Raise JSONDecodeError => Raise WMNFormatError
  | Raise TypeError => Raise WMNFormatError
  | Raise error => Raise error
  end.

Definition write_file_content (file_path : path) (content : string)
  : M unit :=
  fun w =>
    match write_text file_path content w with
    | (None, w') =>
        let me := self w' in
        if file_path =? data_path me then
          (OK tt, mkWorld (assign_data JNull (assign_data_raw (Some content) me))
                          (disk w') (written w'))
        else if file_path =? schema_path me then
          (OK tt, mkWorld (assign_schema JNull (assign_schema_raw (Some content) me))
                          (disk w') (written w'))
        else (OK tt, w')
    | (Some _, w') => (Raise WMNFileError, w')
    end.

(** The property [data_raw]. *)
Definition data_raw : M string :=
  me <- get_self ;;
  match _data_raw me with
  | Some s => ret s
  | None =>
      s <- read_file_content (data_path me) ;;
      set_self (assign_data_raw (Some s)) ;;
      ret s
  end.

(** The property [schema_raw]. *)
Definition schema_raw : M string :=
  me <- get_self ;;
  match _schema_raw me with
  | Some s => ret s
  | None =>
      s <- read_file_content (schema_path me) ;;
      set_self (assign_schema_raw (Some s)) ;;
      ret s
  end.

(** The property [data]. *)
Definition data : M json :=
  me <- get_self ;;
  if is_None (_data me) then
    raw_json <- data_raw ;;
    parsed_json <- lift (parse_json_data raw_json) ;;
    set_self (assign_data parsed_json) ;;
    ret parsed_json
  else ret (_data me).

(** The property [schema]. *)
Definition schema : M json :=
  me <- get_self ;;
  if is_None (_schema me) then
    raw_json <- schema_raw ;;
    parsed_json <- lift (parse_json_data raw_json) ;;
    set_self (assign_schema parsed_json) ;;
    ret parsed_json
  else ret (_schema me).

(** *** Python operations on JSON values *)

(** [v.get(k)]: only a dict has the method. *)
Definition py_get (v : json) (k : string) : result (option json) :=
  match v with
  | JObj d => OK (dict_get k d)
  | _ => Raise AttributeError
  end.

(** [v.get(k, default)]. *)
Definition py_get_or (v : json) (k : string) (default : json) : result json :=
  rbind (py_get v k)
        (fun o => OK (match o with Some x => x | None => default end)).

(** [str(v)]. *)
Definition py_str (v : json) : string :=
  match v with
  | JStr s => s
  | _ => repr v
  end.

(** [str.casefold(v)], the unbound method: the argument must be a [str]. *)
Definition str_casefold (v : json) : result string :=
  match v with
  | JStr s => OK (casefold s)
  | _ => Raise TypeError
  end.

(** [json.dumps(v, indent=DEFAULT_JSON_INDENT,
               ensure_ascii=DEFAULT_JSON_ENSURE_ASCII)].  A value of [json]
    has string keys, JSON types only and no cycle, which leaves
    [RecursionError] as the way to fail. *)
Definition json_dumps (v : json) : result string :=
  match dumps v with
  | Some text => OK text
  | None => Raise RecursionError
  end.

(** [except (TypeError, ValueError, RecursionError) as error:
       raise WMNFormatError(...) from error]; a [JSONDecodeError] is a
    [ValueError]. *)
Definition not_serializable {A} (error : exn) : M A :=
  match error with
  | TypeError | ValueError | JSONDecodeError | RecursionError =>
      raise WMNFormatError
  | _ => raise error
  end.

(** [sorted(l, key=key)]: the keys are computed first, one call per
    element from left to right, then the decorated list is sorted. *)
Definition sorted_by_key {A} (key : A -> result string) (l : list A)
  : result (list A) :=
  rbind (map_result key l)
        (fun keys => OK (map snd (sorted fst (combine keys l)))).

(** The key of an element, where computing it raises nothing. *)
Definition key_of {A} (key : A -> result string) (x : A) : string :=
  match key x with
  | OK s => s
  | Raise _ => EmptyString
  end.

(** *** [wmn_format_dataset.py] *)

Definition _sort_array_alphabetically (array : list json)
  : result (list json) :=
  sorted_by_key str_casefold array.

(** [str(site.get(NAME_KEY, '')).casefold()]. *)
Definition site_sort_key (site : json) : result string :=
  rbind (py_get_or site NAME_KEY (JStr EmptyString))
        (fun name => OK (casefold (py_str name))).

(** The name of a site as the claims read it: the value of the field
    [name], the empty string when the field is missing; and the key by
    which sites are compared, its string case-folded. *)
Definition site_name (site : json) : json :=
  match site with
  | JObj fields =>
      match dict_get NAME_KEY fields with
      | Some name => name
      | None => JStr EmptyString
      end
  | _ => JStr EmptyString
  end.

Definition name_key (site : json) : string := casefold (py_str (site_name site)).

Definition name_le (a b : json) : Prop :=
  (name_key a <=? name_key b)%string = true.

Definition _sort_sites_by_name (sites : list json) : result (list json) :=
  sorted_by_key site_sort_key sites.

Definition header_sort_key (item : string * json) : result string :=
  OK (casefold (fst item)).

Definition _sort_site_headers (site_data : json) : result json :=
  match site_data with
  | JObj fields =>
      match dict_get HEADERS_KEY fields with
      | Some (JObj headers) =>
          if truthy (JObj headers) then
            rbind (sorted_by_key header_sort_key headers)
                  (fun items =>
                     OK (JObj (dict_set HEADERS_KEY
                                        (JObj (dict_of_items items)) fields)))
          else OK (JObj fields)
      | _ => OK (JObj fields)
      end
  | _ => Raise AttributeError
  end.

(** The loop of [_reorder_site_keys], and what it leaves in [result]. *)
Definition reorder_step (fields : dict) (result : dict) (key : string)
  : dict :=
  match dict_get key fields with
  | Some v => dict_set key v result
  | None => result
  end.

Definition reordered (fields : dict) (key_order : list string) : dict :=
  fold_left (reorder_step fields) key_order [].

Definition _reorder_site_keys (site_data : json) (key_order : list string)
  : result json :=
  match site_data with
  | JObj fields =>
      let unknown_keys :=
        filter (fun key => negb (key_in key key_order)) (dict_keys fields) in
      match unknown_keys with
      | _ :: _ => Raise WMNFormatError
      | [] =>
          OK (JObj (reordered fields key_order))
      end
  | _ => Raise AttributeError
  end.

Definition header_le (a b : string * json) : Prop :=
  key_le (key_of header_sort_key) a b.

(** A site whose headers, if a dict, are in their sorted form. *)
Definition headers_sorted (fields : dict) : Prop :=
  forall headers,
    dict_get HEADERS_KEY fields = Some (JObj headers) ->
    dict_of_items (sorted (key_of header_sort_key) headers) = headers.

Definition format_schema : M string :=
  try_except (s <- schema ;; lift (json_dumps s)) not_serializable.

Definition _get_site_key_order : M (list string) :=
  s <- schema ;;
  properties <- lift (py_get_or s PROPERTIES_KEY (JObj [])) ;;
  sites <- lift (py_get_or properties SITES_KEY (JObj [])) ;;
  items <- lift (py_get_or sites ITEMS_KEY (JObj [])) ;;
  site_schema <- lift (py_get items PROPERTIES_KEY) ;;
  match site_schema with
  | None | Some JNull => raise WMNSchemaError
  | Some (JObj d) => ret (dict_keys d)
  | Some _ => raise WMNSchemaError
  end.

(** What [_get_site_key_order] makes of the parsed schema. *)
Definition declared_order (s : json) : result (list string) :=
  rbind (py_get_or s PROPERTIES_KEY (JObj [])) (fun properties =>
  rbind (py_get_or properties SITES_KEY (JObj [])) (fun sites =>
  rbind (py_get_or sites ITEMS_KEY (JObj [])) (fun items =>
  rbind (py_get items PROPERTIES_KEY) (fun site_schema =>
    match site_schema with
    | Some (JObj d) => OK (dict_keys d)
    | _ => Raise WMNSchemaError
    end)))).

(** The claim's reading of the schema: the value found by following keys
    through objects, and the declaration of the site properties. *)
Fixpoint at_path (v : json) (keys : list string) : option json :=
  match keys with
  | [] => Some v
  | k :: keys' =>
      match v with
      | JObj d =>
          match dict_get k d with
          | Some child => at_path child keys'
          | None => None
          end
      | _ => None
      end
  end.

Definition declaration (s : json) : option json :=
  at_path s [PROPERTIES_KEY; SITES_KEY; ITEMS_KEY; PROPERTIES_KEY].

(** [self.data[key] = value]. *)
Definition data_setitem (key : string) (value : json) : M unit :=
  d <- data ;;
  match d with
  | JObj fields => set_self (assign_data (JObj (dict_set key value fields)))
  | _ => raise TypeError
  end.

(** [isinstance(item, str) and item.strip()]. *)
Definition non_blank_str (item : json) : bool :=
  match item with
  | JStr s => truthy (JStr (strip s))
  | _ => false
  end.

Definition _format_string_array (key : string) : M unit :=
  d <- data ;;
  array_data <- lift (py_get d key) ;;
  match array_data with
  | None | Some JNull => raise WMNFormatError
  | Some (JArr items) =>
      if negb (truthy (JArr items)) then raise WMNFormatError
      else if negb (forallb non_blank_str items) then raise WMNFormatError
      else
        sorted_items <- lift (_sort_array_alphabetically items) ;;
        data_setitem key (JArr sorted_items)
  | Some _ => raise WMNFormatError
  end.

Definition _format_site (site_data : json) (key_order : list string)
  : result json :=
  rbind (_sort_site_headers site_data)
        (fun formatted_site => _reorder_site_keys formatted_site key_order).

Definition _format_sites : M unit :=
  d <- data ;;
  sites <- lift (py_get d SITES_KEY) ;;
  match sites with
  | Some (JArr l) =>
      sorted_sites <- lift (_sort_sites_by_name l) ;;
      key_order <- _get_site_key_order ;;
      formatted <-
        lift (map_result (fun site_data => _format_site site_data key_order)
                         sorted_sites) ;;
      data_setitem SITES_KEY (JArr formatted)
  | _ => raise WMNFormatError
  end.

(** The two steps on the parsed data set, apart from the object that
    holds it: what [_format_string_array] assigns to [self.data], and the
    sites that [_format_sites] hands to [_format_site]. *)
Definition string_array_sorted (key : string) (fields : dict) : result dict :=
  match dict_get key fields with
  | Some (JArr items) =>
      if truthy (JArr items) && forallb non_blank_str items then
        rbind (_sort_array_alphabetically items)
              (fun sorted_items => OK (dict_set key (JArr sorted_items) fields))
      else Raise WMNFormatError
  | _ => Raise WMNFormatError
  end.

Definition sites_sorted (fields : dict) : result (list json) :=
  match dict_get SITES_KEY fields with
  | Some (JArr l) => _sort_sites_by_name l
  | _ => Raise WMNFormatError
  end.

Definition sites_formatted (key_order : list string) (sorted_sites : list json)
  : result (list json) :=
  map_result (fun site_data => _format_site site_data key_order) sorted_sites.

(** The data set that [format_data] serialises, from the parsed data
    set and the outcome of [_get_site_key_order]. *)
Definition formatted (key_order : result (list string)) (fields : dict)
  : result dict :=
  rbind (string_array_sorted AUTHORS_KEY fields) (fun with_authors =>
  rbind (string_array_sorted CATEGORIES_KEY with_authors) (fun with_both =>
  rbind (sites_sorted with_both) (fun sorted_sites =>
  rbind key_order (fun order =>
  rbind (sites_formatted order sorted_sites) (fun sites =>
    OK (dict_set SITES_KEY (JArr sites) with_both)))))).

(** The text of a formatted data set, or the error of [format_data] when
    it cannot be serialised. *)
Definition serialised (fields : dict) : result string :=
  match dumps (JObj fields) with
  | Some text => OK text
  | None => Raise WMNFormatError
  end.

Definition format_data : M string :=
  _format_string_array AUTHORS_KEY ;;
  _format_string_array CATEGORIES_KEY ;;
  _format_sites ;;
  try_except (d <- data ;; lift (json_dumps d)) not_serializable.

Definition format_file (formatter : M string) (raw_data : string)
           (file_path : path) : M bool :=
  try_except
    (formatted_data <- formatter ;;
     if negb (raw_data =? formatted_data) then
       write_file_content file_path formatted_data ;;
       ret true
     else ret false)
    (fun error =>
       if is_WMNError error then raise error else raise WMNFormatError).

(** The call in [main]:
    [formatter.format_file(formatter.format_data, formatter.data_raw,
                           formatter.data_path)]. *)
Definition format_data_file : M bool :=
  raw_data <- data_raw ;;
  me <- get_self ;;
  format_file format_data raw_data (data_path me).

(** *** [wmn_hash_dataset.py] *)

Inductive HashStatus : Type := NEW | UPDATED | UNCHANGED.

Record HashResult : Type := mkHashResult {
  file : path;
  status : HashStatus;
  new_hash : string;
  previous_hash : option string
}.

Definition newline : string := String (ascii_of_nat 10) EmptyString.

Definition _compute_sha256 (data : string) : result string :=
  match encode data with
  | Some bytes => OK (sha256_hexdigest bytes)
  | None => Raise WMNHashError
  end.

(** [PurePath.name]: the final component of a path; the root and the
    current directory, whose normal form is [.], have none. *)
Fixpoint has_separator (p : string) : bool :=
  match p with
  | EmptyString => false
  | String c rest => Ascii.eqb c "/" || has_separator rest
  end.

Fixpoint final_component (p : string) : string :=
  match p with
  | EmptyString => EmptyString
  | String c rest =>
      if has_separator rest then final_component rest
      else if Ascii.eqb c "/" then rest
      else p
  end.

Definition path_name (p : path) : string :=
  if p =? "." then EmptyString else final_component p.

(** [target_file.with_suffix(target_file.suffix + HASH_FILE_EXTENSION)].
    [with_suffix] raises [ValueError] on a path with an empty name;
    otherwise it replaces the suffix of the name, here by the same suffix
    followed by the extension: the extension is appended to the name. *)
Definition _get_hash_file_path (target_file : path) : result path :=
  if path_name target_file =? EmptyString then Raise ValueError
  else OK (target_file ++ HASH_FILE_EXTENSION)%string.

(** [previous_hash == new_hash], the left side may be [None]. *)
Definition hash_eqb (previous_hash : option string) (new_hash : string)
  : bool :=
  match previous_hash with
  | Some h => h =? new_hash
  | None => false
  end.

Definition update_hash_file (target_file : path) (data : string)
  : M HashResult :=
  new_hash <- lift (_compute_sha256 data) ;;
  hash_file <- lift (_get_hash_file_path target_file) ;;
  previous_hash <-
    try_except
      (s <- read_file_content hash_file ;; ret (Some (strip s)))
      (fun error =>
         match error with
         | WMNFileError => ret None
         | _ => raise error
         end) ;;
  if hash_eqb previous_hash new_hash then
    ret (mkHashResult target_file UNCHANGED new_hash previous_hash)
  else
    try_except
      (write_file_content hash_file (new_hash ++ newline)%string)
      (fun error =>
         match error with
         | WMNFileError => raise WMNHashError
         | _ => raise error
         end) ;;
    ret (mkHashResult target_file
           (match previous_hash with None => NEW | Some _ => UPDATED end)
           new_hash previous_hash).

(** *** [wmn_validate_dataset.py] *)

(** One step of [ValidationError.absolute_path]. *)
Inductive segment : Type :=
| Key (k : string)
| Index (i : Z).

(** The three attributes of [jsonschema.ValidationError] that are read. *)
Record ValidationError : Type := mkValidationError {
  error_message : string;
  error_json_path : string;
  error_absolute_path : list segment
}.

Record WMNValidationModel : Type := mkWMNValidationModel {
  model_path : string;
  model_data : option string;
  model_message : string
}.

(** [l[i]] for a sequence: a negative index counts from the end. *)
Definition seq_getitem {A} (l : list A) (i : Z) : option A :=
  let n := Z.of_nat (length l) in
  if (0 <=? i)%Z then nth_error l (Z.to_nat i)
  else if (- n <=? i)%Z then nth_error l (Z.to_nat (n + i))
  else None.

(** The characters of a [str]: a byte [10xxxxxx] continues the code
    point that the bytes before it started. *)
Definition is_continuation (c : ascii) : bool :=
  let n := nat_of_ascii c in (128 <=? n)%nat && (n <? 192)%nat.

Fixpoint code_points (s : string) : list string :=
  match s with
  | EmptyString => []
  | String c rest =>
      let chars := code_points rest in
      match rest, chars with
      | String c' _, p :: ps =>
          if is_continuation c' then String c p :: ps
          else String c EmptyString :: chars
      | _, _ => String c EmptyString :: chars
      end
  end.

(** [v[segment]]. *)
Definition py_getitem (v : json) (seg : segment) : result json :=
  match v, seg with
  | JObj d, Key k =>
      match dict_get k d with
      | Some x => OK x
      | None => Raise KeyError
      end
  | JObj _, Index _ => Raise KeyError
  | JArr l, Index i =>
      match seq_getitem l i with
      | Some x => OK x
      | None => Raise IndexError
      end
  | JStr s, Index i =>
      match seq_getitem (code_points s) i with
      | Some c => OK (JStr c)
      | None => Raise IndexError
      end
  | _, _ => Raise TypeError
  end.

(** [for segment in path: current_data = current_data[segment]]. *)
Fixpoint walk (current_data : json) (path : list segment) : result json :=
  match path with
  | [] => OK current_data
  | seg :: path' =>
      rbind (py_getitem current_data seg) (fun v => walk v path')
  end.

Definition _format_validation_error (error : ValidationError)
  : M WMNValidationModel :=
  data_preview <-
    try_except
      (match error_absolute_path error with
       | [] => ret None
       | _ :: _ =>
           d <- data ;;
           current_data <- lift (walk d (error_absolute_path error)) ;;
           if negb (is_None current_data) then
             text <- lift (json_dumps current_data) ;;
             ret (Some text)
           else ret None
       end)
      (fun _ => ret None) ;;
  ret (mkWMNValidationModel (error_json_path error) data_preview
                            (error_message error)).

(** [for x in v]. *)
Definition py_iter (v : json) : result (list json) :=
  match v with
  | JArr l => OK l
  | JObj d => OK (map JStr (dict_keys d))
  | JStr s => OK (map JStr (code_points s))
  | _ => Raise TypeError
  end.

(** What [hash] and [==] see of a value: [True == 1], and lists and dicts
    are not hashable. *)
Inductive hkey : Type :=
| HNone
| HNum (n : Z)
| HStr (s : string).

Definition py_hash (v : json) : option hkey :=
  match v with
  | JNull => Some HNone
  | JBool b => Some (HNum (if b then 1 else 0))
  | JInt n => Some (HNum n)
  | JStr s => Some (HStr s)
  | JArr _ | JObj _ => None
  end.

Definition hkey_eqb (a b : hkey) : bool :=
  match a, b with
  | HNone, HNone => true
  | HNum n, HNum m => (n =? m)%Z
  | HStr s, HStr t => s =? t
  | _, _ => false
  end.

(** [counter[name] = counter.get(name, 0) + 1]. *)
Fixpoint counter_add (name : json) (k : hkey) (counter : list (json * hkey * nat))
  : list (json * hkey * nat) :=
  match counter with
  | [] => [(name, k, 1%nat)]
  | (name', k', count) :: counter' =>
      if hkey_eqb k' k then (name', k', S count) :: counter'
      else (name', k', count) :: counter_add name k counter'
  end.

(** [Counter(names)]: an insertion-ordered dict from name to count; each
    entry keeps the hash key of its name. *)
Fixpoint Counter_from (counter : list (json * hkey * nat)) (names : list json)
  : result (list (json * hkey * nat)) :=
  match names with
  | [] => OK counter
  | name :: names' =>
      match py_hash name with
      | Some k => Counter_from (counter_add name k counter) names'
      | None => Raise TypeError
      end
  end.

Definition Counter (names : list json) : result (list (json * hkey * nat)) :=
  Counter_from [] names.

(** [[site.get(NAME_KEY) for site in sites_data if site.get(NAME_KEY)]]. *)
Fixpoint site_names (sites_data : list json) : result (list json) :=
  match sites_data with
  | [] => OK []
  | site :: sites' =>
      rbind (py_get_or site NAME_KEY JNull)
            (fun name =>
               rbind (site_names sites')
                     (fun names =>
                        OK (if truthy name then name :: names else names)))
  end.

(** The count that a counter holds for a key. *)
Fixpoint counter_get (k : hkey) (counter : list (json * hkey * nat)) : nat :=
  match counter with
  | [] => 0
  | (_, k', count) :: counter' =>
      if hkey_eqb k' k then count else counter_get k counter'
  end.

Definition counter_keys (counter : list (json * hkey * nat)) : list hkey :=
  map (fun e => snd (fst e)) counter.

(** A counter in good order: every key once, each the hash key of its
    name, each count positive. *)
Definition counter_ok (counter : list (json * hkey * nat)) : Prop :=
  NoDup (counter_keys counter)
  /\ Forall (fun e => py_hash (fst (fst e)) = Some (snd (fst e))
                      /\ truthy (fst (fst e)) = true
                      /\ 0 < snd e) counter.

(** The claim's reading of the data set: the value of the field [name] of
    a site, and the number of sites whose name is non-empty and equal, as
    Python compares, to the values of key [k]. *)
Definition name_of (site : json) : option json :=
  match site with
  | JObj fields => dict_get NAME_KEY fields
  | _ => None
  end.

(** The hash key of a name is [k]. *)
Definition has_key (k : hkey) (name : json) : bool :=
  match py_hash name with
  | Some k' => hkey_eqb k' k
  | None => false
  end.

Definition named (k : hkey) (site : json) : bool :=
  match name_of site with
  | Some name => truthy name && has_key k name
  | None => false
  end.

Definition occurrences (k : hkey) (sites : list json) : nat :=
  length (filter (named k) sites).

(** A site that [validate_duplicates] can handle: an object whose name, if
    any and not empty, is a scalar. *)
Definition countable_site (site : json) : Prop :=
  exists fields,
    site = JObj fields
    /\ forall name,
         dict_get NAME_KEY fields = Some name -> truthy name = true ->
         exists k, py_hash name = Some k.

Definition validate_duplicates : M (list json) :=
  d <- data ;;
  sites_data <- lift (py_get_or d SITES_KEY (JArr [])) ;;
  sites <- lift (py_iter sites_data) ;;
  names <- lift (site_names sites) ;;
  counts <- lift (Counter names) ;;
  ret (map (fun e => fst (fst e))
           (filter (fun e => (1 <? snd e)%nat) counts)).

End Scripts.

(** ** A runtime to run the model on examples

    ASCII case folding and stripping, Python's rendering of scalars, the
    two-space layout of [json.dumps], and a parser that recognises the
    serialisations of a given list of documents.  The two facts that
    [Runtime] asks for are proved where the instance is built. *)

Lemma has_carriage_return_app (s t : string) :
  has_carriage_return (s ++ t)
  = has_carriage_return s || has_carriage_return t.
Proof.
  induction s as [|c s IH]; simpl; [reflexivity |].
  rewrite IH. apply orb_assoc.
Qed.

Module Sample.

Definition lower (c : ascii) : ascii :=
  let n := nat_of_ascii c in
  if (65 <=? n)%nat && (n <=? 90)%nat then ascii_of_nat (n + 32) else c.

Fixpoint casefold (s : string) : string :=
  match s with
  | EmptyString => EmptyString
  | String c s' => String (lower c) (casefold s')
  end.

Definition is_space (c : ascii) : bool :=
  let n := nat_of_ascii c in
  (n =? 32)%nat || ((9 <=? n)%nat && (n <=? 13)%nat)
  || ((28 <=? n)%nat && (n <=? 31)%nat).

Fixpoint lstrip (s : string) : string :=
  match s with
  | EmptyString => EmptyString
  | String c s' => if is_space c then lstrip s' else s
  end.

Fixpoint rev_string (acc s : string) : string :=
  match s with
  | EmptyString => acc
  | String c s' => rev_string (String c acc) s'
  end.

Definition strip (s : string) : string :=
  rev_string EmptyString (lstrip (rev_string EmptyString (lstrip s))).

Definition decimal (n : Z) : string :=
  match n with
  | Z0 => "0"
  | Zpos p => DecimalString.NilZero.string_of_uint (Pos.to_uint p)
  | Zneg p => "-" ++ DecimalString.NilZero.string_of_uint (Pos.to_uint p)
  end.

Definition dquote : string := String (ascii_of_nat 34) EmptyString.

Definition hex_digit (n : nat) : ascii :=
  if (n <? 10)%nat then ascii_of_nat (48 + n) else ascii_of_nat (87 + n).

(** The escapes of [json.dumps(..., ensure_ascii=False)]. *)
Definition escape_char (c : ascii) : string :=
  let n := nat_of_ascii c in
  if (n =? 34)%nat then "\" ++ dquote
  else if (n =? 92)%nat then "\\"
  else if (n =? 10)%nat then "\n"
  else if (n =? 13)%nat then "\r"
  else if (n =? 9)%nat then "\t"
  else if (n =? 8)%nat then "\b"
  else if (n =? 12)%nat then "\f"
  else if (n <? 32)%nat then
    "\u00" ++ String (hex_digit (n / 16)) (String (hex_digit (n mod 16)) EmptyString)
  else String c EmptyString.

Fixpoint escape (s : string) : string :=
  match s with
  | EmptyString => EmptyString
  | String c s' => escape_char c ++ escape s'
  end.

Definition quote (s : string) : string := dquote ++ escape s ++ dquote.

Fixpoint join (sep : string) (l : list string) : string :=
  match l with
  | [] => EmptyString
  | [x] => x
  | x :: l' => x ++ sep ++ join sep l'
  end.

Fixpoint dumps_at (indent : string) (v : json) : string :=
  let inner := ("  " ++ indent)%string in
  let sep := ("," ++ newline ++ inner)%string in
  match v with
  | JNull => "null"
  | JBool true => "true"
  | JBool false => "false"
  | JInt n => decimal n
  | JStr s => quote s
  | JArr [] => "[]"
  | JArr l =>
      ("[" ++ newline ++ inner ++ join sep (map (dumps_at inner) l)
           ++ newline ++ indent ++ "]")%string
  | JObj [] => "{}"
  | JObj d =>
      ("{" ++ newline ++ inner
           ++ join sep (map (fun kv => (quote (fst kv) ++ ": "
                                          ++ dumps_at inner (snd kv))%string) d)
           ++ newline ++ indent ++ "}")%string
  end.

Definition dumps (v : json) : string := dumps_at EmptyString v.

Fixpoint contains (c : ascii) (s : string) : bool :=
  match s with
  | EmptyString => false
  | String c' s' => Ascii.eqb c c' || contains c s'
  end.

Definition squote : string := "'".

(** [repr] of a [str]: single quotes, unless the text holds a single
    quote and no double quote. *)
Definition repr_char (q : ascii) (c : ascii) : string :=
  let n := nat_of_ascii c in
  if Ascii.eqb c q then String "\" (String c EmptyString)
  else if (n =? 92)%nat then "\\"
  else if (n =? 10)%nat then "\n"
  else if (n =? 13)%nat then "\r"
  else if (n =? 9)%nat then "\t"
  else if (n <? 32)%nat || (n =? 127)%nat then
    "\x" ++ String (hex_digit (n / 16)) (String (hex_digit (n mod 16)) EmptyString)
  else String c EmptyString.

Fixpoint repr_chars (q : ascii) (s : string) : string :=
  match s with
  | EmptyString => EmptyString
  | String c s' => repr_char q c ++ repr_chars q s'
  end.

Definition repr_str (s : string) : string :=
  let q := if contains "'" s && negb (contains (ascii_of_nat 34) s)
           then ascii_of_nat 34 else "'"%char in
  String q (repr_chars q s ++ String q EmptyString).

Fixpoint repr (v : json) : string :=
  match v with
  | JNull => "None"
  | JBool true => "True"
  | JBool false => "False"
  | JInt n => decimal n
  | JStr s => repr_str s
  | JArr l => ("[" ++ join ", " (map repr l) ++ "]")%string
  | JObj d =>
      ("{" ++ join ", " (map (fun kv => (repr_str (fst kv) ++ ": "
                                           ++ repr (snd kv))%string) d)
           ++ "}")%string
  end.

(** A parser that knows the serialisations of [docs]. *)
Definition loads (docs : list json) (s : string) : result json :=
  match find (fun v => dumps v =? s) docs with
  | Some v => OK v
  | None => Raise JSONDecodeError
  end.

(** A stand-in for the digest: the sum of the bytes, eight hex digits. *)
Fixpoint byte_sum (s : string) : nat :=
  match s with
  | EmptyString => 0
  | String c s' => nat_of_ascii c + byte_sum s'
  end.

Fixpoint hex (digits : nat) (n : nat) : string :=
  match digits with
  | O => EmptyString
  | S d => (hex d (n / 16) ++ String (hex_digit (n mod 16)) EmptyString)%string
  end.

Definition digest (bytes : string) : string := hex 8 (byte_sum bytes).

(** The sample runtime writes no carriage return. *)
Lemma hex_digit_line_ends (n : nat) :
  n < 16 -> Ascii.eqb (hex_digit n) carriage_return = false.
Proof.
  intros H. do 16 (destruct n as [|n]; [reflexivity |]). lia.
Qed.

Lemma decimal_line_ends (n : Z) : has_carriage_return (decimal n) = false.
Proof.
  assert (H : forall u, has_carriage_return
                          (DecimalString.NilEmpty.string_of_uint u) = false).
  { induction u; simpl; auto. }
  assert (H0 : forall u, has_carriage_return
                           (DecimalString.NilZero.string_of_uint u) = false).
  { intros u. destruct u; simpl; auto. }
  destruct n; simpl; auto.
Qed.

Lemma escape_line_ends (s : string) : has_carriage_return (escape s) = false.
Proof.
  induction s as [|c s IH]; simpl; [reflexivity |].
  rewrite has_carriage_return_app, IH, orb_false_r.
  unfold escape_char.
  repeat match goal with
         | |- context [if ?b then _ else _] => destruct b eqn:?
         end; try reflexivity.
  - assert (H1 : Ascii.eqb (hex_digit (nat_of_ascii c / 16)) carriage_return
                 = false).
    { apply hex_digit_line_ends.
      apply Nat.Div0.div_lt_upper_bound. apply Nat.ltb_lt in Heqb6. lia. }
    assert (H2 : Ascii.eqb (hex_digit (nat_of_ascii c mod 16))
                           carriage_return = false).
    { apply hex_digit_line_ends. apply Nat.mod_upper_bound. discriminate. }
    rewrite has_carriage_return_app. cbn [has_carriage_return].
    rewrite H1, H2. reflexivity.
  - simpl. rewrite orb_false_r.
    apply Nat.eqb_neq in Heqb2.
    destruct (Ascii.eqb_spec c carriage_return) as [->|]; [| reflexivity].
    exfalso. apply Heqb2. reflexivity.
Qed.

Lemma join_line_ends (sep : string) (l : list string) :
  has_carriage_return sep = false ->
  Forall (fun x => has_carriage_return x = false) l ->
  has_carriage_return (join sep l) = false.
Proof.
  intros Hsep H. induction H as [|x l Hx Hl IH]; [reflexivity |].
  destruct l as [|y l]; [exact Hx |].
  change (join sep (x :: y :: l)) with (x ++ sep ++ join sep (y :: l))%string.
  rewrite !has_carriage_return_app, Hx, Hsep, IH. reflexivity.
Qed.

Lemma dumps_at_line_ends :
  forall (v : json) (indent : string),
    has_carriage_return indent = false ->
    has_carriage_return (dumps_at indent v) = false.
Proof.
  fix IH 1.
  intros [|[|]|n|s|l|d] indent Hi; try reflexivity.
  - apply decimal_line_ends.
  - unfold dumps_at, quote.
    rewrite !has_carriage_return_app, escape_line_ends. reflexivity.
  - destruct l as [|x l]; [reflexivity |].
    change (dumps_at indent (JArr (x :: l)))
      with ("[" ++ newline ++ ("  " ++ indent)
                ++ join ("," ++ newline ++ ("  " ++ indent))
                        (map (dumps_at ("  " ++ indent)) (x :: l))
                ++ newline ++ indent ++ "]")%string.
    rewrite !has_carriage_return_app, Hi.
    rewrite join_line_ends; [reflexivity | |].
    + rewrite !has_carriage_return_app, Hi. reflexivity.
    + generalize (x :: l) as items.
      induction items as [|y items IHitems]; constructor;
        [| exact IHitems].
      apply IH. rewrite has_carriage_return_app, Hi. reflexivity.
  - destruct d as [|kv d]; [reflexivity |].
    change (dumps_at indent (JObj (kv :: d)))
      with ("{" ++ newline ++ ("  " ++ indent)
                ++ join ("," ++ newline ++ ("  " ++ indent))
                        (map (fun kv => (quote (fst kv) ++ ": "
                                           ++ dumps_at ("  " ++ indent)
                                                       (snd kv))%string)
                             (kv :: d))
                ++ newline ++ indent ++ "}")%string.
    rewrite !has_carriage_return_app, Hi.
    rewrite join_line_ends; [reflexivity | |].
    + rewrite !has_carriage_return_app, Hi. reflexivity.
    + generalize (kv :: d) as fields.
      induction fields as [|[k y] fields IHfields]; constructor;
        [| exact IHfields].
      cbn [fst snd]. unfold quote.
      rewrite !has_carriage_return_app, escape_line_ends.
      rewrite IH; [reflexivity |].
      rewrite has_carriage_return_app, Hi. reflexivity.
Qed.

Lemma sample_dumps_line_ends (v : json) (text : string) :
  Some (dumps v) = Some text -> has_carriage_return text = false.
Proof.
  intros [= <-]. apply dumps_at_line_ends. reflexivity.
Qed.

Lemma hex_line_ends (digits n : nat) :
  has_carriage_return (hex digits n) = false.
Proof.
  revert n. induction digits as [|d IH]; intros n; [reflexivity |].
  cbn [hex]. rewrite has_carriage_return_app, IH.
  cbn [has_carriage_return orb].
  rewrite hex_digit_line_ends; [reflexivity |].
  apply Nat.mod_upper_bound. discriminate.
Qed.

Lemma sample_digest_line_ends (bytes : string) :
  has_carriage_return (digest bytes) = false.
Proof.
  apply hex_line_ends.
Qed.

Definition runtime (docs : list json) : Runtime :=
  Build_Runtime casefold strip repr (fun v => Some (dumps v)) (loads docs)
                (fun s => Some s) digest
                sample_dumps_line_ends sample_digest_line_ends.

End Sample.

(** ** Documents and worlds for the examples *)

Module Example.

(** The data set and the schema of the end-to-end scenario. *)
Definition dataset : json :=
  JObj [("authors", JArr [JStr "b"; JStr "a"]);
        ("categories", JArr [JStr "y"; JStr "x"]);
        ("sites",
         JArr [JObj [("name", JStr "Zeta");
                     ("headers", JObj [("b", JStr "2"); ("a", JStr "1")])];
               JObj [("name", JStr "Alpha"); ("headers", JObj [])]])].

Definition site_schema (declared : dict) : json :=
  JObj [("properties",
         JObj [("sites",
                JObj [("items", JObj [("properties", JObj declared)])])])].

Definition schema : json :=
  site_schema [("name", JObj []); ("headers", JObj [])].

Definition canonical : json :=
  JObj [("authors", JArr [JStr "a"; JStr "b"]);
        ("categories", JArr [JStr "x"; JStr "y"]);
        ("sites",
         JArr [JObj [("name", JStr "Alpha"); ("headers", JObj [])];
               JObj [("name", JStr "Zeta");
                     ("headers", JObj [("a", JStr "1"); ("b", JStr "2")])]])].

(** The runtime of the examples parses the texts of these documents. *)
Definition runtime : Runtime :=
  Sample.runtime [dataset; schema; canonical].

Definition empty_disk : path -> entry := fun _ => Missing.

(** A disk that holds the two tracked files. *)
Definition disk_with (data_text schema_text : string) : path -> entry :=
  upd (upd empty_disk DEFAULT_SCHEMA (Regular schema_text))
      DEFAULT_DATA (Regular data_text).

(** A new formatter over a disk: [WMNDataFormatter()]. *)
Definition fresh (fs : path -> entry) : world :=
  mkWorld (init DEFAULT_DATA DEFAULT_SCHEMA) fs [].

(** A formatter that has parsed [data] and [schema]. *)
Definition loaded (data schema : json) : world :=
  mkWorld (mkWMNBase DEFAULT_DATA DEFAULT_SCHEMA data schema None None)
          empty_disk [].

Definition formatter : world := loaded dataset schema.

(** A schema whose [properties.sites] is an array, and a formatter with
    it. *)
Definition malformed_schema : json :=
  JObj [("properties", JObj [("sites", JArr [])])].

Definition malformed : world := loaded dataset malformed_schema.

(** A violation at the root of the data set: its path is empty. *)
Definition root_violation : ValidationError :=
  mkValidationError "'license' is a required property" "$" [].

(** A violation at the name of the first site. *)
Definition name_violation : ValidationError :=
  mkValidationError "'Zeta' is too long" "$.sites[0].name"
                    [Key "sites"; Index 0; Key "name"].

(** A validator whose sites have the given names and nothing else. *)
Definition sites_named (names : list string) : world :=
  loaded (JObj [("sites",
                 JArr (map (fun n => JObj [("name", JStr n)]) names))])
         schema.

(** A hasher over a disk where the digest path of the data file is a
    directory: nothing can be read from it, nothing written to it. *)
Definition digest_is_directory : world :=
  fresh (upd empty_disk (DEFAULT_DATA ++ HASH_FILE_EXTENSION)%string Directory).

(** Two new formatters over a disk with the schema and a data file: one
    with the data set as it came, one with the canonical text. *)
Definition unformatted_file : world :=
  fresh (disk_with (Sample.dumps dataset) (Sample.dumps schema)).

Definition canonical_file : world :=
  fresh (disk_with (Sample.dumps canonical) (Sample.dumps schema)).

(** A formatter whose data set has a site with the undeclared key [x]. *)
Definition unknown_key : world :=
  loaded (JObj [("authors", JArr [JStr "a"]);
                ("categories", JArr [JStr "x"]);
                ("sites", JArr [JObj [("name", JStr "A"); ("x", JInt 1)]])])
         schema.

Definition canonical_text : string := Sample.dumps canonical.

(** A formatter that has parsed the schema and finds the canonical text
    in the data file. *)
Definition reloaded : world :=
  mkWorld (mkWMNBase DEFAULT_DATA DEFAULT_SCHEMA JNull schema None None)
          (upd empty_disk DEFAULT_DATA (Regular canonical_text)) [].

End Example.

(** ** The property setters, the schema validation and the entry points *)

(** [jsonschema], as [validate_schema] uses it. *)
Class Draft7 : Type := {
  (** [Draft7Validator(schema)]; [false] stands for [SchemaError] *)
  accepts_schema : json -> bool;
  (** [Draft7Validator(schema).iter_errors(instance)]: the violations
      in the order in which they are yielded, or the exception that
      stops the iteration *)
  iter_errors : json -> json -> result (list ValidationError)
}.

Section Workflows.
Context {rt : Runtime}.

(** *** [wmn_base.py]: the setters of the four properties *)

(** [self.data_raw = value]. *)
Definition data_raw_setter (value : option string) : M unit :=
  set_self (fun me => assign_data JNull (assign_data_raw value me)).

(** [self.schema_raw = value]. *)
Definition schema_raw_setter (value : option string) : M unit :=
  set_self (fun me => assign_schema JNull (assign_schema_raw value me)).

(** [self.data = value]. *)
Definition data_setter (value : json) : M unit :=
  set_self (assign_data value).

(** [self.schema = value]. *)
Definition schema_setter (value : json) : M unit :=
  set_self (assign_schema value).

(** [WMNDataFormatter()], [WMNDataHasher()], [WMNDataValidator()]: a new
    object with the default paths, over the disk as it is. *)
Definition construct (w : world) : world :=
  mkWorld (init DEFAULT_DATA DEFAULT_SCHEMA) (disk w) (written w).

(** *** [wmn_format_dataset.py]: the second call of [main] *)

(** [formatter.format_file(formatter.format_schema, formatter.schema_raw,
                           formatter.schema_path)]. *)
Definition format_schema_file : M bool :=
  raw_data <- schema_raw ;;
  me <- get_self ;;
  format_file format_schema raw_data (schema_path me).

(** *** [wmn_hash_dataset.py]: the two updates of [main] and its loop *)

(** [[hasher.update_hash_file(hasher.data_path, hasher.data_raw),
      hasher.update_hash_file(hasher.schema_path, hasher.schema_raw)]]. *)
Definition hash_results : M (list HashResult) :=
  me <- get_self ;;
  data_text <- data_raw ;;
  for_data <- update_hash_file (data_path me) data_text ;;
  me <- get_self ;;
  schema_text <- schema_raw ;;
  for_schema <- update_hash_file (schema_path me) schema_text ;;
  ret [for_data; for_schema].

(** [for result in results: ...]: the flag [hashes_changed] at the end of
    the loop.  The three statuses are all there are, so the branch that
    returns 1 for another status is never taken. *)
Fixpoint report (results : list HashResult) (hashes_changed : bool) : bool :=
  match results with
  | [] => hashes_changed
  | result :: results' =>
      match status result with
      | UNCHANGED => report results' hashes_changed
      | NEW => report results' true
      | UPDATED => report results' true
      end
  end.

(** *** [wmn_validate_dataset.py]: [validate_schema] *)

(** A comprehension [[f(x) for x in l]] whose body is a method call. *)
Fixpoint for_each {A B} (body : A -> M B) (items : list A) : M (list B) :=
  match items with
  | [] => ret []
  | item :: rest =>
      value <- body item ;;
      values <- for_each body rest ;;
      ret (value :: values)
  end.

Context {validator : Draft7}.

Definition validate_schema : M (list WMNValidationModel) :=
  s <- schema ;;
  if accepts_schema s then
    d <- data ;;
    errors <- lift (iter_errors s d) ;;
    for_each _format_validation_error errors
  else raise WMNSchemaError.

End Workflows.

(** *** The three functions [main]

    Each returns its exit code; every exception is caught and turned
    into the exit code 1. *)

Module wmn_format_dataset.
Section FormatMain.
Context {rt : Runtime}.

Definition main : M Z :=
  fun w =>
    try_except
      (data_changed <- format_data_file ;;
       schema_changed <- format_schema_file ;;
       ret 0%Z)
      (fun _ => ret 1%Z)
      (construct w).

End FormatMain.
End wmn_format_dataset.

Module wmn_hash_dataset.
Section HashMain.
Context {rt : Runtime}.

Definition main : M Z :=
  fun w =>
    try_except
      (results <- hash_results ;;
       let hashes_changed := report results false in
       ret 0%Z)
      (fun _ => ret 1%Z)
      (construct w).

End HashMain.
End wmn_hash_dataset.

Module wmn_validate_dataset.
Section ValidateMain.
Context {rt : Runtime} {validator : Draft7}.

Definition main : M Z :=
  fun w =>
    try_except
      (schema_errors <- validate_schema ;;
       match schema_errors with
       | _ :: _ => ret 1%Z
       | [] =>
           duplicate_names <- validate_duplicates ;;
           match duplicate_names with
           | _ :: _ => ret 1%Z
           | [] => ret 0%Z
           end
       end)
      (fun _ => ret 1%Z)
      (construct w).

End ValidateMain.
End wmn_validate_dataset.

(** ** Further worlds, two more runtimes and a validator for the
    examples *)

Module Scenario.

(** An object whose data set is an array, and one whose schema declares
    nothing. *)
Definition array_data : world := Example.loaded (JArr []) Example.schema.

Definition empty_schema : world := Example.loaded Example.dataset (JObj []).


(** A text with the line ends of another system: a carriage return
    before every line feed. *)
Fixpoint with_carriage_returns (s : string) : string :=
  match s with
  | EmptyString => EmptyString
  | String c rest =>
      if Ascii.eqb c line_feed then
        String carriage_return (String c (with_carriage_returns rest))
      else String c (with_carriage_returns rest)
  end.

(** A new object over a disk whose data file holds the canonical text
    with such line ends. *)
Definition crlf_file : world :=
  Example.fresh
    (Example.disk_with (with_carriage_returns (Sample.dumps Example.canonical))
                       (Sample.dumps Example.schema)).

(** A site whose name is a list. *)
Definition unhashable_name : world :=
  Example.loaded
    (JObj [("sites", JArr [JObj [("name", JArr [JStr "A"])]])])
    Example.schema.

(** A disk with the two files and their digest files, up to date. *)
Definition hashed_disk : path -> entry :=
  upd (upd (Example.disk_with (Sample.dumps Example.dataset)
                              (Sample.dumps Example.schema))
           (DEFAULT_DATA ++ HASH_FILE_EXTENSION)%string
           (Regular (Sample.digest (Sample.dumps Example.dataset)
                     ++ newline)))
      (DEFAULT_SCHEMA ++ HASH_FILE_EXTENSION)%string
      (Regular (Sample.digest (Sample.dumps Example.schema) ++ newline)).

Definition hashed : world := Example.fresh hashed_disk.

(** Equality of JSON values, to tell the documents of a table. *)
Fixpoint json_eqb (a b : json) {struct a} : bool :=
  match a, b with
  | JNull, JNull => true
  | JBool x, JBool y => Bool.eqb x y
  | JInt n, JInt m => (n =? m)%Z
  | JStr s, JStr t => (s =? t)%string
  | JArr l, JArr l' =>
      (fix items (l l' : list json) {struct l} : bool :=
         match l, l' with
         | [], [] => true
         | x :: xs, y :: ys => json_eqb x y && items xs ys
         | _, _ => false
         end) l l'
  | JObj d, JObj d' =>
      (fix fields (d d' : list (string * json)) {struct d} : bool :=
         match d, d' with
         | [], [] => true
         | (k, x) :: xs, (k', y) :: ys =>
             (k =? k')%string && json_eqb x y && fields xs ys
         | _, _ => false
         end) d d'
  | _, _ => false
  end.

Lemma strict_dumps_line_ends (docs : list json) (v : json) (text : string) :
  (if existsb (json_eqb v) docs then Some (Sample.dumps v) else None)
  = Some text ->
  has_carriage_return text = false.
Proof.
  destruct (existsb (json_eqb v) docs); [| discriminate].
  apply Sample.sample_dumps_line_ends.
Qed.

(** A runtime that serialises the documents of a table and no other,
    and parses their serialisations: what it writes, it reads back. *)
Definition strict_runtime : Runtime :=
  let docs := [Example.dataset; Example.schema; Example.canonical] in
  Build_Runtime Sample.casefold Sample.strip Sample.repr
                (fun v => if existsb (json_eqb v) docs
                          then Some (Sample.dumps v) else None)
                (Sample.loads docs) (fun s => Some s) Sample.digest
                (strict_dumps_line_ends docs)
                Sample.sample_digest_line_ends.






(** A validator that accepts every schema and finds the name of the
    first site too long. *)
Definition validator : Draft7 :=
  Build_Draft7 (fun _ => true) (fun _ _ => OK [Example.name_violation]).

End Scenario.

(** * Properties *)

(** ** Line ends *)

(** A text without a carriage return is read as it is. *)
Lemma universal_newlines_line_feeds (s : string) :
  has_carriage_return s = false -> universal_newlines s = s.
Proof.
  induction s as [|c s IH]; [reflexivity |].
  cbn [has_carriage_return universal_newlines]. intros H.
  apply orb_false_iff in H. destruct H as [Hc Hs].
  rewrite Hc, (IH Hs). reflexivity.
Qed.

(** ** The stable sort *)

Lemma leb_refl (s : string) : (s <=? s)%string = true.
Proof.
  destruct (String.leb_total s s); assumption.
Qed.

Section SortingFacts.
Context {A : Type} (key : A -> string).

Lemma insert_by_perm (x : A) (l : list A) :
  Permutation (insert_by key x l) (x :: l).
Proof.
  induction l as [|y l IH]; simpl.
  - apply Permutation_refl.
  - destruct (key x <=? key y)%string.
    + apply Permutation_refl.
    + apply perm_trans with (y :: x :: l).
      * apply perm_skip, IH.
      * apply perm_swap.
Qed.

Lemma sorted_perm (l : list A) : Permutation (sorted key l) l.
Proof.
  induction l as [|x l IH]; simpl.
  - apply perm_nil.
  - apply perm_trans with (x :: sorted key l).
    + apply insert_by_perm.
    + apply perm_skip, IH.
Qed.

Lemma insert_by_HdRel (a x : A) (l : list A) :
  key_le key a x -> HdRel (key_le key) a l -> HdRel (key_le key) a (insert_by key x l).
Proof.
  intros Hax Hal. destruct l as [|y l]; simpl.
  - constructor. exact Hax.
  - destruct (key x <=? key y)%string.
    + constructor. exact Hax.
    + constructor. inversion Hal; assumption.
Qed.

Lemma insert_by_Sorted (x : A) (l : list A) :
  Sorted (key_le key) l -> Sorted (key_le key) (insert_by key x l).
Proof.
  induction 1 as [|y l Hs IH Hhd]; simpl.
  - repeat constructor.
  - destruct (key x <=? key y)%string eqn:E.
    + constructor; [constructor; assumption | constructor; exact E].
    + constructor; [exact IH |].
      apply insert_by_HdRel; [| exact Hhd].
      unfold key_le.
      destruct (String.leb_total (key x) (key y)) as [H|H];
        [congruence | exact H].
Qed.

Lemma sorted_Sorted (l : list A) : Sorted (key_le key) (sorted key l).
Proof.
  induction l as [|x l IH]; simpl.
  - constructor.
  - apply insert_by_Sorted, IH.
Qed.

(** An element goes past the elements with a smaller key only: the
    elements of one key keep their order. *)
Lemma insert_by_stable (k : string) (x : A) (l : list A) :
  filter (fun a => key a =? k) (insert_by key x l)
  = filter (fun a => key a =? k) (x :: l).
Proof.
  induction l as [|y l IH]; simpl.
  - reflexivity.
  - destruct (key x <=? key y)%string eqn:E; simpl.
    + reflexivity.
    + simpl in IH. rewrite IH.
      destruct (String.eqb_spec (key x) k) as [Hx|Hx];
        destruct (String.eqb_spec (key y) k) as [Hy|Hy]; try reflexivity.
      exfalso. rewrite Hx, Hy, leb_refl in E. discriminate.
Qed.

Lemma sorted_stable (k : string) (l : list A) :
  filter (fun a => key a =? k) (sorted key l)
  = filter (fun a => key a =? k) l.
Proof.
  induction l as [|x l IH]; simpl.
  - reflexivity.
  - rewrite insert_by_stable. simpl. rewrite IH. reflexivity.
Qed.

(** A list already in order is left as it is. *)
Lemma sorted_fixed (l : list A) : Sorted (key_le key) l -> sorted key l = l.
Proof.
  induction 1 as [|x l Hs IH Hhd]; simpl.
  - reflexivity.
  - rewrite IH. destruct Hhd as [|y l Hxy]; simpl.
    + reflexivity.
    + unfold key_le in Hxy. rewrite Hxy. reflexivity.
Qed.

Lemma sorted_idempotent (l : list A) :
  sorted key (sorted key l) = sorted key l.
Proof. apply sorted_fixed, sorted_Sorted. Qed.

End SortingFacts.

Section Decorated.
Context {A : Type} (key : A -> string).

(** Sorting the list decorated with its keys, as [sorted] does. *)
Lemma insert_by_decorated (x : A) (l : list (string * A)) :
  Forall (fun p => fst p = key (snd p)) l ->
  map snd (insert_by fst (key x, x) l) = insert_by key x (map snd l).
Proof.
  induction 1 as [|[k y] l Hy Hl IH]; simpl.
  - reflexivity.
  - simpl in Hy. subst k.
    destruct (key x <=? key y)%string; simpl.
    + reflexivity.
    + rewrite IH. reflexivity.
Qed.

Lemma insert_by_decorated_Forall (x : A) (l : list (string * A)) :
  Forall (fun p => fst p = key (snd p)) l ->
  Forall (fun p => fst p = key (snd p)) (insert_by fst (key x, x) l).
Proof.
  intros H. eapply Permutation_Forall.
  - apply Permutation_sym, insert_by_perm.
  - constructor; [reflexivity | exact H].
Qed.

Lemma sorted_decorated (l : list A) :
  Forall (fun p => fst p = key (snd p)) (sorted fst (combine (map key l) l))
  /\ map snd (sorted fst (combine (map key l) l)) = sorted key l.
Proof.
  induction l as [|x l [IHf IHm]]; simpl.
  - split; [constructor | reflexivity].
  - split.
    + apply insert_by_decorated_Forall, IHf.
    + rewrite insert_by_decorated by exact IHf. rewrite IHm. reflexivity.
Qed.
End Decorated.

Lemma map_result_total {A B} (f : A -> B) (l : list A) :
  map_result (fun x => OK (f x)) l = OK (map f l).
Proof.
  induction l as [|x l IH]; simpl.
  - reflexivity.
  - rewrite IH. reflexivity.
Qed.

Lemma leb_trans (a b c : string) :
  (a <=? b)%string = true -> (b <=? c)%string = true -> (a <=? c)%string = true.
Proof.
  assert (le_iff : forall x y, (x <=? y)%string = true
                               <-> x = y \/ OrderedTypeEx.String_as_OT.lt x y).
  { intros x y. unfold String.leb.
    destruct (x ?= y)%string eqn:E.
    - apply OrderedTypeEx.String_as_OT.cmp_eq in E. tauto.
    - apply OrderedTypeEx.String_as_OT.cmp_lt in E. tauto.
    - split; [discriminate |].
      intros [H|H].
      + apply OrderedTypeEx.String_as_OT.cmp_eq in H.
        unfold OrderedTypeEx.String_as_OT.cmp in H. congruence.
      + apply OrderedTypeEx.String_as_OT.cmp_lt in H.
        unfold OrderedTypeEx.String_as_OT.cmp in H. congruence. }
  rewrite !le_iff. intros [->|Hab] [->|Hbc]; auto.
  right. eapply OrderedTypeEx.String_as_OT.lt_trans; eassumption.
Qed.

(** Any list in key order that keeps, for every key, the elements of that
    key in their order, is the result of [sorted]: the model decides
    nothing that a stable sort leaves open. *)
Section StableSortUnique.
Context {A : Type} (key : A -> string).

Lemma key_le_trans (a b c : A) :
  key_le key a b -> key_le key b c -> key_le key a c.
Proof. unfold key_le. apply leb_trans. Qed.

Lemma filter_key_In (k : string) (x : A) (l : list A) :
  In x l -> key x = k -> In x (filter (fun a => key a =? k) l).
Proof.
  intros Hin Hk. apply filter_In. split; [exact Hin |].
  apply String.eqb_eq, Hk.
Qed.

Lemma sorted_heads_agree (x y : A) (s t : list A) :
  Sorted (key_le key) (x :: s) -> Sorted (key_le key) (y :: t) ->
  (forall k, filter (fun a => key a =? k) (x :: s)
             = filter (fun a => key a =? k) (y :: t)) ->
  x = y.
Proof.
  intros Hs Ht Hf.
  apply Sorted_StronglySorted in Hs; [| intros a b c; apply key_le_trans].
  apply Sorted_StronglySorted in Ht; [| intros a b c; apply key_le_trans].
  inversion Hs as [|? ? _ Hxs]; inversion Ht as [|? ? _ Hyt]; subst.
  rewrite Forall_forall in Hxs, Hyt.
  assert (Hxy : key_le key y x).
  { assert (Hin : In x (y :: t)).
    { refine (proj1 (proj1 (filter_In _ _ _) _)).
      rewrite <- (Hf (key x)). apply filter_key_In; [left |]; reflexivity. }
    destruct Hin as [->|Hin]; [apply leb_refl | apply Hyt, Hin]. }
  assert (Hyx : key_le key x y).
  { assert (Hin : In y (x :: s)).
    { refine (proj1 (proj1 (filter_In _ _ _) _)).
      rewrite (Hf (key y)). apply filter_key_In; [left |]; reflexivity. }
    destruct Hin as [->|Hin]; [apply leb_refl | apply Hxs, Hin]. }
  pose proof (String.leb_antisym _ _ Hyx Hxy) as Hk.
  specialize (Hf (key x)). simpl in Hf.
  rewrite <- Hk in Hf. rewrite String.eqb_refl in Hf.
  injection Hf as Hf _. exact Hf.
Qed.

Lemma sorted_lists_agree (s t : list A) :
  Sorted (key_le key) s -> Sorted (key_le key) t ->
  (forall k, filter (fun a => key a =? k) s
             = filter (fun a => key a =? k) t) ->
  s = t.
Proof.
  revert t. induction s as [|x s IH]; intros t Hs Ht Hf.
  - destruct t as [|y t]; [reflexivity |].
    specialize (Hf (key y)). simpl in Hf.
    rewrite String.eqb_refl in Hf. discriminate.
  - destruct t as [|y t].
    + specialize (Hf (key x)). simpl in Hf.
      rewrite String.eqb_refl in Hf. discriminate.
    + pose proof (sorted_heads_agree Hs Ht Hf) as <-.
      f_equal. apply IH.
      * inversion Hs; assumption.
      * inversion Ht; assumption.
      * intros k. specialize (Hf k). simpl in Hf.
        destruct (key x =? k); [injection Hf as Hf |]; exact Hf.
Qed.

Lemma stable_sort_unique (l l' : list A) :
  Sorted (key_le key) l' ->
  (forall k, filter (fun a => key a =? k) l'
             = filter (fun a => key a =? k) l) ->
  l' = sorted key l.
Proof.
  intros Hs Hf. apply sorted_lists_agree; [exact Hs | apply sorted_Sorted |].
  intros k. rewrite sorted_stable. apply Hf.
Qed.
End StableSortUnique.

(** ** Dicts *)

Lemma key_in_In (k : string) (ks : list string) :
  key_in k ks = true <-> In k ks.
Proof.
  unfold key_in. rewrite existsb_exists. split.
  - intros [x [Hx E]]. apply String.eqb_eq in E. subst. exact Hx.
  - intros H. exists k. split; [exact H | apply String.eqb_refl].
Qed.

Lemma dict_get_None (k : string) (d : dict) :
  dict_get k d = None <-> ~ In k (dict_keys d).
Proof.
  induction d as [|[k' v] d IH]; simpl.
  - tauto.
  - destruct (String.eqb_spec k k') as [->|Hne].
    + split; [discriminate | intros H; exfalso; apply H; auto].
    + rewrite IH. split; [intros H [E|E]; [congruence | tauto] | tauto].
Qed.

Lemma dict_mem_get (k : string) (d : dict) :
  dict_mem k d = true <-> exists v, dict_get k d = Some v.
Proof.
  unfold dict_mem. rewrite key_in_In.
  destruct (dict_get k d) eqn:E.
  - split; [eauto |]. intros _.
    destruct (in_dec string_dec k (dict_keys d)) as [H|H]; [exact H |].
    apply dict_get_None in H. congruence.
  - apply dict_get_None in E. split; [tauto | intros [v Hv]; discriminate].
Qed.

Lemma dict_get_set_same (k : string) (v : json) (d : dict) :
  dict_get k (dict_set k v d) = Some v.
Proof.
  induction d as [|[k' v'] d IH]; simpl.
  - rewrite String.eqb_refl. reflexivity.
  - destruct (String.eqb_spec k k') as [->|Hne]; simpl.
    + rewrite String.eqb_refl. reflexivity.
    + apply String.eqb_neq in Hne. rewrite Hne. exact IH.
Qed.

Lemma dict_get_set_other (k k' : string) (v : json) (d : dict) :
  k' <> k -> dict_get k' (dict_set k v d) = dict_get k' d.
Proof.
  intros Hne. induction d as [|[k0 v0] d IH]; simpl.
  - apply String.eqb_neq in Hne. rewrite Hne. reflexivity.
  - destruct (String.eqb_spec k k0) as [->|Hk]; simpl.
    + apply String.eqb_neq in Hne. rewrite Hne. reflexivity.
    + rewrite IH. reflexivity.
Qed.

(** Assigning to a key that is there keeps the keys and their order. *)
Lemma dict_keys_set_present (k : string) (v : json) (d : dict) :
  In k (dict_keys d) -> dict_keys (dict_set k v d) = dict_keys d.
Proof.
  induction d as [|[k' v'] d IH]; simpl.
  - tauto.
  - intros H. destruct (String.eqb_spec k k') as [->|Hne]; simpl.
    + reflexivity.
    + f_equal. apply IH. destruct H; [congruence | assumption].
Qed.

Lemma dict_set_absent (k : string) (v : json) (d : dict) :
  ~ In k (dict_keys d) -> dict_set k v d = d ++ [(k, v)].
Proof.
  induction d as [|[k' v'] d IH]; simpl.
  - reflexivity.
  - intros H. destruct (String.eqb_spec k k') as [->|Hne].
    + exfalso. apply H. auto.
    + f_equal. apply IH. tauto.
Qed.

(** Assigning the value that is there changes nothing. *)
Lemma dict_set_same (k : string) (v : json) (d : dict) :
  dict_get k d = Some v -> dict_set k v d = d.
Proof.
  induction d as [|[k' v'] d IH]; simpl.
  - discriminate.
  - destruct (String.eqb_spec k k') as [->|Hne].
    + intros [= ->]. reflexivity.
    + intros H. f_equal. apply IH, H.
Qed.

Lemma dict_set_set (k : string) (v v' : json) (d : dict) :
  dict_set k v (dict_set k v' d) = dict_set k v d.
Proof.
  induction d as [|[k0 v0] d IH]; simpl.
  - rewrite String.eqb_refl. reflexivity.
  - destruct (String.eqb_spec k k0) as [->|Hne]; simpl.
    + rewrite String.eqb_refl. reflexivity.
    + apply String.eqb_neq in Hne. rewrite Hne. f_equal. exact IH.
Qed.

(** [dict(items)] of items with distinct keys is the list of the items. *)
Lemma fold_dict_set_distinct (items acc : dict) :
  NoDup (dict_keys (acc ++ items)) ->
  fold_left (fun d kv => dict_set (fst kv) (snd kv) d) items acc
  = acc ++ items.
Proof.
  revert acc. induction items as [|[k v] items IH]; intros acc Hnd; simpl.
  - rewrite app_nil_r. reflexivity.
  - rewrite dict_set_absent.
    + rewrite IH; rewrite <- app_assoc; simpl; [reflexivity | exact Hnd].
    + unfold dict_keys in *. rewrite map_app in Hnd. simpl in Hnd.
      apply NoDup_remove_2 in Hnd. intros H. apply Hnd.
      apply in_or_app. left. exact H.
Qed.

Lemma dict_of_items_distinct (items : dict) :
  NoDup (dict_keys items) -> dict_of_items items = items.
Proof.
  intros H. unfold dict_of_items. rewrite fold_dict_set_distinct; auto.
Qed.

Lemma dict_keys_set (k : string) (v : json) (d : dict) :
  dict_keys (dict_set k v d) = add_key (dict_keys d) k.
Proof.
  unfold add_key. destruct (key_in k (dict_keys d)) eqn:E.
  - apply dict_keys_set_present, key_in_In, E.
  - rewrite dict_set_absent.
    + unfold dict_keys. rewrite map_app. reflexivity.
    + intros H. apply key_in_In in H. congruence.
Qed.

Lemma dict_keys_fold_set (items acc : dict) :
  dict_keys (fold_left (fun d kv => dict_set (fst kv) (snd kv) d) items acc)
  = fold_left add_key (dict_keys items) (dict_keys acc).
Proof.
  revert acc. induction items as [|[k v] items IH]; intros acc; simpl.
  - reflexivity.
  - rewrite IH, dict_keys_set. reflexivity.
Qed.

Lemma add_key_NoDup (ks : list string) (k : string) :
  NoDup ks -> NoDup (add_key ks k).
Proof.
  intros H. unfold add_key. destruct (key_in k ks) eqn:E; [exact H |].
  apply NoDup_app; [exact H | repeat constructor; simpl; tauto |].
  intros x Hx [<-|[]]. apply key_in_In in Hx. congruence.
Qed.

Lemma fold_add_key_NoDup (l ks : list string) :
  NoDup ks -> NoDup (fold_left add_key l ks).
Proof.
  revert ks. induction l as [|k l IH]; intros ks H; simpl.
  - exact H.
  - apply IH, add_key_NoDup, H.
Qed.

Lemma dict_of_items_NoDup (items : dict) :
  NoDup (dict_keys (dict_of_items items)).
Proof.
  unfold dict_of_items. rewrite dict_keys_fold_set.
  apply fold_add_key_NoDup. constructor.
Qed.

Section KeyOrder.
Variable R : string -> string -> Prop.

Lemma StronglySorted_remove (a b : list string) (x : string) :
  StronglySorted R (a ++ x :: b) -> StronglySorted R (a ++ b).
Proof.
  induction a as [|y a IH]; simpl; intros H.
  - inversion H; assumption.
  - inversion H as [|? ? Hs Hf]; subst. constructor.
    + apply IH, Hs.
    + apply Forall_app in Hf. destruct Hf as [Ha Hb].
      apply Forall_app. split; [exact Ha | inversion Hb; assumption].
Qed.

Lemma fold_add_key_sorted (l ks : list string) :
  StronglySorted R (ks ++ l) -> StronglySorted R (fold_left add_key l ks).
Proof.
  revert ks. induction l as [|k l IH]; intros ks H; simpl.
  - rewrite app_nil_r in H. exact H.
  - apply IH. unfold add_key. destruct (key_in k ks).
    + eapply StronglySorted_remove, H.
    + rewrite <- app_assoc. exact H.
Qed.
End KeyOrder.

Lemma StronglySorted_map {A B} (f : A -> B) (R : B -> B -> Prop) (l : list A) :
  StronglySorted (fun a b => R (f a) (f b)) l <-> StronglySorted R (map f l).
Proof.
  induction l as [|x l IH]; simpl.
  - split; constructor.
  - split; intros H; inversion H as [|? ? Hs Hf]; subst; constructor;
      try (apply IH; assumption).
    + rewrite Forall_map. exact Hf.
    + rewrite Forall_map in Hf. exact Hf.
Qed.

(** ** [sorted] with a key that may raise *)

Section SortedByKey.
Context {rt : Runtime} {A : Type} (key : A -> result string).

Lemma map_result_keys (l : list A) (keys : list string) :
  map_result key l = OK keys ->
  keys = map (key_of key) l /\ Forall (fun x => key x = OK (key_of key x)) l.
Proof.
  revert keys. induction l as [|x l IH]; simpl; intros keys H.
  - injection H as <-. split; constructor.
  - unfold key_of at 1 2. destruct (key x) as [s|e] eqn:E; simpl in H; [| discriminate].
    destruct (map_result key l) as [ks|e]; simpl in H; [| discriminate].
    injection H as <-. destruct (IH ks eq_refl) as [-> Hf].
    split; [reflexivity |]. constructor; [| exact Hf].
    unfold key_of. rewrite E. reflexivity.
Qed.

Lemma map_result_keys_ok (l : list A) :
  Forall (fun x => exists s, key x = OK s) l ->
  map_result key l = OK (map (key_of key) l).
Proof.
  induction 1 as [|x l [s Hs] _ IH]; simpl.
  - reflexivity.
  - unfold key_of at 1. rewrite Hs, IH. reflexivity.
Qed.

Lemma sorted_by_key_inv (l l' : list A) :
  sorted_by_key key l = OK l' ->
  l' = sorted (key_of key) l /\ Forall (fun x => key x = OK (key_of key x)) l.
Proof.
  unfold sorted_by_key. intros H.
  destruct (map_result key l) as [keys|e] eqn:E; simpl in H; [| discriminate].
  injection H as <-. apply map_result_keys in E. destruct E as [-> Hf].
  split; [| exact Hf]. apply sorted_decorated.
Qed.

Lemma sorted_by_key_ok (l : list A) :
  Forall (fun x => exists s, key x = OK s) l ->
  sorted_by_key key l = OK (sorted (key_of key) l).
Proof.
  intros H. unfold sorted_by_key. rewrite map_result_keys_ok by exact H.
  simpl. f_equal. apply sorted_decorated.
Qed.
End SortedByKey.

(** ** One site *)

Section SiteFacts.
Context {rt : Runtime}.

Lemma header_key_eq (item : string * json) :
  key_of header_sort_key item = casefold (fst item).
Proof. reflexivity. Qed.

Lemma sort_headers_ok (headers : dict) :
  sorted_by_key header_sort_key headers
  = OK (sorted (key_of header_sort_key) headers).
Proof.
  apply sorted_by_key_ok. apply Forall_forall. intros x _.
  eexists. reflexivity.
Qed.

(** [dict(sorted(headers.items(), ...))] is sorted and has distinct keys,
    whatever the headers were. *)
Lemma sorted_headers_Sorted (headers : dict) :
  Sorted header_le
         (dict_of_items (sorted (key_of header_sort_key) headers)).
Proof.
  set (R := fun a b : string => (casefold a <=? casefold b)%string = true).
  assert (HR : forall l : dict,
             StronglySorted header_le l <-> StronglySorted R (map fst l)).
  { intros l. apply (StronglySorted_map fst R). }
  apply StronglySorted_Sorted, HR.
  unfold dict_of_items.
  change (map fst ?d) with (dict_keys d). rewrite dict_keys_fold_set.
  apply fold_add_key_sorted. simpl. apply HR.
  apply Sorted_StronglySorted.
  - intros a b c. unfold header_le, key_le. apply leb_trans.
  - apply sorted_Sorted.
Qed.

Lemma sorted_headers_fixed (headers : dict) :
  let sorted_headers :=
    dict_of_items (sorted (key_of header_sort_key) headers) in
  dict_of_items (sorted (key_of header_sort_key) sorted_headers)
  = sorted_headers.
Proof.
  intros sorted_headers. rewrite sorted_fixed.
  - apply dict_of_items_distinct, dict_of_items_NoDup.
  - apply sorted_headers_Sorted.
Qed.

Lemma _sort_site_headers_fixed (fields : dict) :
  headers_sorted fields ->
  _sort_site_headers (JObj fields) = OK (JObj fields).
Proof.
  intros H. unfold _sort_site_headers.
  destruct (dict_get HEADERS_KEY fields) as [[| | | | |headers]|] eqn:E;
    try reflexivity.
  destruct (truthy (JObj headers)); [| reflexivity].
  rewrite sort_headers_ok. simpl. rewrite (H headers E).
  rewrite dict_set_same by exact E. reflexivity.
Qed.

Lemma _sort_site_headers_object (fields : dict) :
  exists fields',
    _sort_site_headers (JObj fields) = OK (JObj fields')
    /\ dict_keys fields' = dict_keys fields
    /\ headers_sorted fields'
    /\ (forall k, k <> HEADERS_KEY -> dict_get k fields' = dict_get k fields).
Proof.
  unfold _sort_site_headers.
  destruct (dict_get HEADERS_KEY fields) as [v|] eqn:E.
  2: { exists fields. repeat split; auto. intros hs Hhs. congruence. }
  assert (Hin : In HEADERS_KEY (dict_keys fields)).
  { destruct (in_dec string_dec HEADERS_KEY (dict_keys fields)) as [H|H];
      [exact H |]. apply dict_get_None in H. congruence. }
  destruct v as [| | | | |headers];
    try (exists fields; repeat split; auto; intros hs Hhs; congruence).
  destruct headers as [|h headers].
  - exists fields. repeat split; auto.
    intros hs Hhs. rewrite E in Hhs. injection Hhs as <-. reflexivity.
  - cbn [truthy]. rewrite sort_headers_ok. simpl.
    eexists. split; [reflexivity |]. split; [| split].
    + apply dict_keys_set_present, Hin.
    + intros hs Hhs. rewrite dict_get_set_same in Hhs.
      injection Hhs as <-. apply (sorted_headers_fixed (h :: headers)).
    + intros k Hk. apply dict_get_set_other, Hk.
Qed.
End SiteFacts.

(** ** The keys of a site in the order of the schema *)

Section ReorderFacts.
Context {rt : Runtime}.
Variable fields : dict.

Lemma reorder_step_get (k key : string) (acc : dict) :
  dict_get k (reorder_step fields acc key)
  = if k =? key
    then match dict_get k fields with
         | Some v => Some v
         | None => dict_get k acc
         end
    else dict_get k acc.
Proof.
  unfold reorder_step. destruct (String.eqb_spec k key) as [->|Hne].
  - destruct (dict_get key fields); [apply dict_get_set_same | reflexivity].
  - destruct (dict_get key fields); [| reflexivity].
    apply dict_get_set_other, Hne.
Qed.

Lemma fold_reorder_get (k : string) (key_order : list string) (acc : dict) :
  (forall v, dict_get k acc = Some v -> dict_get k fields = Some v) ->
  dict_get k (fold_left (reorder_step fields) key_order acc)
  = if key_in k key_order then dict_get k fields else dict_get k acc.
Proof.
  revert acc. induction key_order as [|key l IH]; intros acc Hacc; simpl.
  - reflexivity.
  - rewrite IH.
    + rewrite reorder_step_get.
      destruct (String.eqb_spec k key) as [->|Hne]; simpl.
      * destruct (key_in key l); [reflexivity |].
        destruct (dict_get key fields) eqn:E; [reflexivity |].
        destruct (dict_get key acc) eqn:E'; [| reflexivity].
        specialize (Hacc _ eq_refl). discriminate.
      * reflexivity.
    + intros v. rewrite reorder_step_get.
      destruct (k =? key); [| apply Hacc].
      destruct (dict_get k fields); [auto | apply Hacc].
Qed.

Lemma reordered_get (k : string) (key_order : list string) :
  dict_get k (reordered fields key_order)
  = if key_in k key_order then dict_get k fields else None.
Proof.
  unfold reordered. rewrite fold_reorder_get; [reflexivity |].
  simpl. discriminate.
Qed.

Lemma reordered_keys_in (k : string) (key_order : list string) :
  In k (dict_keys (reordered fields key_order)) ->
  In k key_order /\ In k (dict_keys fields).
Proof.
  intros H.
  destruct (dict_get k (reordered fields key_order)) as [v|] eqn:E.
  - rewrite reordered_get in E.
    destruct (key_in k key_order) eqn:Hk; [| discriminate].
    split; [apply key_in_In, Hk |].
    destruct (in_dec string_dec k (dict_keys fields)) as [Hin|Hin];
      [exact Hin |]. apply dict_get_None in Hin. congruence.
  - apply dict_get_None in E. tauto.
Qed.

(** With a declared order free of repetitions, the keys of the result
    are the declared keys that the site has, in the declared order. *)
Lemma fold_reorder_keys (key_order : list string) (acc : dict) :
  NoDup (dict_keys acc ++ key_order) ->
  dict_keys (fold_left (reorder_step fields) key_order acc)
  = dict_keys acc ++ filter (fun k => dict_mem k fields) key_order.
Proof.
  revert acc. induction key_order as [|key l IH]; intros acc Hnd; simpl.
  - rewrite app_nil_r. reflexivity.
  - assert (Hkey : ~ In key (dict_keys acc)).
    { apply NoDup_remove_2 in Hnd. intros H. apply Hnd.
      apply in_or_app. left. exact H. }
    unfold reorder_step at 2.
    destruct (dict_get key fields) as [v|] eqn:E.
    + replace (dict_mem key fields) with true
        by (symmetry; apply dict_mem_get; eauto).
      rewrite IH.
      * rewrite dict_set_absent by exact Hkey.
        unfold dict_keys. rewrite map_app, <- app_assoc. reflexivity.
      * rewrite dict_set_absent by exact Hkey.
        unfold dict_keys in *. rewrite map_app, <- app_assoc. exact Hnd.
    + replace (dict_mem key fields) with false.
      * apply IH. apply NoDup_remove_1 in Hnd. exact Hnd.
      * destruct (dict_mem key fields) eqn:Hm; [| reflexivity].
        apply dict_mem_get in Hm. destruct Hm as [v Hv]. congruence.
Qed.

Lemma reordered_keys (key_order : list string) :
  NoDup key_order ->
  dict_keys (reordered fields key_order)
  = filter (fun k => dict_mem k fields) key_order.
Proof.
  intros H. unfold reordered. rewrite fold_reorder_keys; auto.
Qed.

Lemma _reorder_site_keys_inv (key_order : list string) (site : json) :
  _reorder_site_keys (JObj fields) key_order = OK site ->
  site = JObj (reordered fields key_order)
  /\ (forall k, In k (dict_keys fields) -> In k key_order).
Proof.
  unfold _reorder_site_keys.
  destruct (filter _ (dict_keys fields)) as [|u us] eqn:E; [| discriminate].
  intros [= <-]. split; [reflexivity |].
  intros k Hk. destruct (key_in k key_order) eqn:Hin.
  - apply key_in_In, Hin.
  - assert (H : In k (filter (fun key => negb (key_in key key_order))
                             (dict_keys fields))).
    { apply filter_In. rewrite Hin. auto. }
    rewrite E in H. destruct H.
Qed.

Lemma _reorder_site_keys_ok (key_order : list string) :
  (forall k, In k (dict_keys fields) -> In k key_order) ->
  _reorder_site_keys (JObj fields) key_order
  = OK (JObj (reordered fields key_order)).
Proof.
  intros H. unfold _reorder_site_keys.
  destruct (filter _ (dict_keys fields)) as [|u us] eqn:E; [reflexivity |].
  assert (Hu : In u (u :: us)) by (left; reflexivity).
  rewrite <- E in Hu. apply filter_In in Hu. destruct Hu as [Hu Hn].
  apply H, key_in_In in Hu. rewrite Hu in Hn. discriminate.
Qed.

Lemma _reorder_site_keys_unknown (key_order : list string) (k : string) :
  In k (dict_keys fields) -> ~ In k key_order ->
  _reorder_site_keys (JObj fields) key_order = Raise WMNFormatError.
Proof.
  intros Hk Hn. unfold _reorder_site_keys.
  destruct (filter _ (dict_keys fields)) as [|u us] eqn:E; [| reflexivity].
  assert (H : In k (filter (fun key => negb (key_in key key_order))
                           (dict_keys fields))).
  { apply filter_In. split; [exact Hk |].
    destruct (key_in k key_order) eqn:Hin; [| reflexivity].
    apply key_in_In in Hin. tauto. }
  rewrite E in H. destruct H.
Qed.
End ReorderFacts.

Section ReorderTwice.
Context {rt : Runtime}.

Lemma reordered_fixed (fields : dict) (key_order : list string) :
  reordered (reordered fields key_order) key_order
  = reordered fields key_order.
Proof.
  unfold reordered at 1 3.
  assert (H : forall l acc,
             (forall k, In k l -> In k key_order) ->
             fold_left (reorder_step (reordered fields key_order)) l acc
             = fold_left (reorder_step fields) l acc).
  { induction l as [|key l IH]; intros acc Hl; simpl.
    - reflexivity.
    - rewrite IH by (intros k Hk; apply Hl; right; exact Hk).
      f_equal. unfold reorder_step. rewrite reordered_get.
      replace (key_in key key_order) with true; [reflexivity |].
      symmetry. apply key_in_In, Hl. left. reflexivity. }
  apply H. auto.
Qed.
End ReorderTwice.

(** ** [_format_site] *)

Section FormatSite.
Context {rt : Runtime}.
Variable key_order : list string.

Lemma _format_site_object (fields : dict) :
  exists fields',
    _sort_site_headers (JObj fields) = OK (JObj fields')
    /\ _format_site (JObj fields) key_order
       = _reorder_site_keys (JObj fields') key_order
    /\ dict_keys fields' = dict_keys fields
    /\ headers_sorted fields'
    /\ (forall k, k <> HEADERS_KEY -> dict_get k fields' = dict_get k fields).
Proof.
  destruct (_sort_site_headers_object fields) as [fields' [H1 [H2 [H3 H4]]]].
  exists fields'. unfold _format_site. rewrite H1. simpl. auto.
Qed.

Lemma _format_site_inv (site site' : json) :
  _format_site site key_order = OK site' ->
  exists fields fields',
    site = JObj fields
    /\ site' = JObj (reordered fields' key_order)
    /\ dict_keys fields' = dict_keys fields
    /\ headers_sorted fields'
    /\ (forall k, k <> HEADERS_KEY -> dict_get k fields' = dict_get k fields)
    /\ (forall k, In k (dict_keys fields) -> In k key_order).
Proof.
  intros H. destruct site as [| | | | |fields]; try discriminate H.
  destruct (_format_site_object fields) as [fields' [_ [E [Hk [Hs Hg]]]]].
  rewrite E in H. apply _reorder_site_keys_inv in H. destruct H as [-> Hin].
  exists fields, fields'. rewrite Hk in Hin. auto 10.
Qed.

(** A site with a key that the schema does not declare is refused; any
    other object is accepted. *)
Lemma _format_site_unknown (fields : dict) (k : string) :
  In k (dict_keys fields) -> ~ In k key_order ->
  _format_site (JObj fields) key_order = Raise WMNFormatError.
Proof.
  intros Hk Hn.
  destruct (_format_site_object fields) as [fields' [_ [E [Hkeys _]]]].
  rewrite E. apply _reorder_site_keys_unknown with k; [| exact Hn].
  rewrite Hkeys. exact Hk.
Qed.

Lemma _format_site_known (fields : dict) :
  (forall k, In k (dict_keys fields) -> In k key_order) ->
  exists site', _format_site (JObj fields) key_order = OK site'.
Proof.
  intros H.
  destruct (_format_site_object fields) as [fields' [_ [E [Hkeys _]]]].
  rewrite E. eexists. apply _reorder_site_keys_ok.
  rewrite Hkeys. exact H.
Qed.

Lemma _format_site_object_result (fields : dict) :
  (exists site', _format_site (JObj fields) key_order = OK site')
  \/ _format_site (JObj fields) key_order = Raise WMNFormatError.
Proof.
  destruct (_format_site_object fields) as [fields' [_ [E _]]].
  rewrite E. unfold _reorder_site_keys.
  destruct (filter _ (dict_keys fields')); eauto.
Qed.

(** Formatting a formatted site changes nothing. *)
Lemma _format_site_fixed (site site' : json) :
  _format_site site key_order = OK site' ->
  _format_site site' key_order = OK site'.
Proof.
  intros H. apply _format_site_inv in H.
  destruct H as [fields [fields' [-> [-> [Hk [Hs [Hg Hin]]]]]]].
  unfold _format_site. rewrite _sort_site_headers_fixed.
  - cbn [rbind]. rewrite _reorder_site_keys_ok.
    + rewrite reordered_fixed. reflexivity.
    + intros k Hkin. apply reordered_keys_in in Hkin. tauto.
  - intros headers Hh. rewrite reordered_get in Hh.
    destruct (key_in HEADERS_KEY key_order); [| discriminate].
    apply Hs, Hh.
Qed.

(** The name of a site, hence its sort key, is kept. *)
Lemma _format_site_name (site site' : json) :
  _format_site site key_order = OK site' ->
  site_sort_key site' = site_sort_key site.
Proof.
  intros H. apply _format_site_inv in H.
  destruct H as [fields [fields' [-> [-> [Hk [Hs [Hg Hin]]]]]]].
  unfold site_sort_key, py_get_or, py_get. simpl.
  rewrite reordered_get.
  rewrite Hg by discriminate.
  destruct (key_in NAME_KEY key_order) eqn:E; [reflexivity |].
  destruct (dict_get NAME_KEY fields) eqn:Hn; [| reflexivity].
  exfalso.
  assert (Hname : In NAME_KEY (dict_keys fields)).
  { destruct (in_dec string_dec NAME_KEY (dict_keys fields)) as [Hi|Hi];
      [exact Hi |]. apply dict_get_None in Hi. congruence. }
  apply Hin, key_in_In in Hname. congruence.
Qed.

(** The keys of a formatted site: the declared keys that the site has,
    in the declared order. *)
Lemma _format_site_keys (fields : dict) (site' : json) :
  NoDup key_order ->
  _format_site (JObj fields) key_order = OK site' ->
  exists fields',
    site' = JObj fields'
    /\ dict_keys fields' = filter (fun k => dict_mem k fields) key_order.
Proof.
  intros Hnd H. apply _format_site_inv in H.
  destruct H as [fields0 [fields' [[= <-] [-> [Hk [Hs [Hg Hin]]]]]]].
  eexists. split; [reflexivity |].
  rewrite reordered_keys by exact Hnd.
  apply filter_ext. intros k. unfold dict_mem. rewrite Hk. reflexivity.
Qed.
End FormatSite.

(** ** The lazy attributes *)

Section Accessors.
Context {rt : Runtime}.

Lemma data_cached (w : world) :
  is_None (_data (self w)) = false -> data w = (OK (_data (self w)), w).
Proof.
  intros H. unfold data, bind, get_self. rewrite H. reflexivity.
Qed.

Lemma schema_cached (w : world) :
  is_None (_schema (self w)) = false -> schema w = (OK (_schema (self w)), w).
Proof.
  intros H. unfold schema, bind, get_self. rewrite H. reflexivity.
Qed.

(** Reading the data set touches the two data attributes only. *)
Lemma data_frame (w : world) :
  let w' := snd (data w) in
  disk w' = disk w /\ written w' = written w
  /\ data_path (self w') = data_path (self w)
  /\ schema_path (self w') = schema_path (self w)
  /\ _schema (self w') = _schema (self w)
  /\ _schema_raw (self w') = _schema_raw (self w).
Proof.
  unfold data, data_raw, read_file_content, bind, get_self, set_self,
    lift, ret, parse_json_data.
  destruct w as [me fs log]. simpl.
  destruct (is_None (_data me)); simpl; [| auto 10].
  destruct (_data_raw me) as [raw|]; simpl.
  - destruct (loads raw) as [?|[]]; simpl; auto 10.
  - destruct (read_text (data_path me) (mkWorld me fs log)) as [[]|raw];
      simpl; auto 10.
    destruct (loads raw) as [?|[]]; simpl; auto 10.
Qed.

Lemma data_result (w w' : world) (d : json) :
  data w = (OK d, w') -> _data (self w') = d.
Proof.
  unfold data, data_raw, read_file_content, bind, get_self, set_self,
    lift, ret, parse_json_data.
  destruct w as [me fs log]. simpl.
  destruct (is_None (_data me)); simpl; [| intros [= <- <-]; reflexivity].
  destruct (_data_raw me) as [raw|]; simpl.
  - destruct (loads raw) as [?|[]]; simpl; try discriminate.
    intros [= <- <-]. reflexivity.
  - destruct (read_text (data_path me) (mkWorld me fs log)) as [[]|raw];
      simpl; try discriminate.
    destruct (loads raw) as [?|[]]; simpl; try discriminate.
    intros [= <- <-]. reflexivity.
Qed.

(** After a first reading, the data set is read from the attribute. *)
Lemma data_again (w w' : world) (fields : dict) :
  data w = (OK (JObj fields), w') -> data w' = (OK (JObj fields), w').
Proof.
  intros H. apply data_result in H.
  rewrite data_cached; rewrite H; reflexivity.
Qed.

Lemma bind_data_warm {A} (k : json -> M A) (w w' : world) (fields : dict) :
  data w = (OK (JObj fields), w') -> bind data k w = bind data k w'.
Proof.
  intros H. assert (H' := H). apply data_again in H'.
  unfold bind. rewrite H', H. reflexivity.
Qed.
End Accessors.

(** ** The declared order of the site keys *)

Section KeyOrderFacts.
Context {rt : Runtime}.

Lemma _get_site_key_order_eq (w : world) :
  _get_site_key_order w = bind schema (fun s => lift (declared_order s)) w.
Proof.
  unfold _get_site_key_order, bind, lift, declared_order.
  destruct (schema w) as [[s|e] w1]; [| reflexivity].
  destruct (py_get_or s PROPERTIES_KEY (JObj [])) as [p|]; cbn [rbind];
    [| reflexivity].
  destruct (py_get_or p SITES_KEY (JObj [])) as [q|]; cbn [rbind];
    [| reflexivity].
  destruct (py_get_or q ITEMS_KEY (JObj [])) as [i|]; cbn [rbind];
    [| reflexivity].
  destruct (py_get i PROPERTIES_KEY) as [[[]|]|]; reflexivity.
Qed.

Lemma declared_order_object (s : json) (key_order : list string) :
  declared_order s = OK key_order -> is_None s = false.
Proof.
  destruct s; try reflexivity. unfold declared_order. simpl. discriminate.
Qed.

(** Reading the schema touches the two schema attributes only. *)
Lemma schema_frame (w : world) : same_but_schema (snd (schema w)) w.
Proof.
  unfold schema, schema_raw, read_file_content, bind, get_self, set_self,
    lift, ret, parse_json_data, same_but_schema.
  destruct w as [me fs log]. simpl.
  destruct (is_None (_schema me)); simpl; [| auto 10].
  destruct (_schema_raw me) as [raw|]; simpl.
  - destruct (loads raw) as [?|[]]; simpl; auto 10.
  - destruct (read_text (schema_path me) (mkWorld me fs log)) as [[]|raw];
      simpl; auto 10.
    destruct (loads raw) as [?|[]]; simpl; auto 10.
Qed.

Lemma schema_result (w w' : world) (s : json) :
  schema w = (OK s, w') -> _schema (self w') = s.
Proof.
  unfold schema, schema_raw, read_file_content, bind, get_self, set_self,
    lift, ret, parse_json_data.
  destruct w as [me fs log]. simpl.
  destruct (is_None (_schema me)); simpl; [| intros [= <- <-]; reflexivity].
  destruct (_schema_raw me) as [raw|]; simpl.
  - destruct (loads raw) as [?|[]]; simpl; try discriminate.
    intros [= <- <-]. reflexivity.
  - destruct (read_text (schema_path me) (mkWorld me fs log)) as [[]|raw];
      simpl; try discriminate.
    destruct (loads raw) as [?|[]]; simpl; try discriminate.
    intros [= <- <-]. reflexivity.
Qed.

(** The schema read in two worlds that hold the same schema. *)
Lemma schema_same (w v : world) :
  same_schema w v ->
  fst (schema w) = fst (schema v)
  /\ same_schema (snd (schema w)) (snd (schema v)).
Proof.
  unfold same_schema.
  destruct w as [[dp sp d s dr sr] fs log], v as [[dp' sp' d' s' dr' sr'] fs' log'].
  simpl. intros [<- [<- [<- Hfs]]].
  unfold schema, schema_raw, read_file_content, read_text, bind, get_self,
    set_self, lift, ret, parse_json_data. simpl.
  destruct (is_None s); simpl; [| auto].
  destruct sr as [raw|]; simpl.
  - destruct (loads raw) as [?|[]]; simpl; auto.
  - rewrite <- Hfs.
    destruct (fs sp) as [raw|raw| | | | | | ] eqn:Efs; simpl;
      try (repeat split; congruence).
    all: destruct (loads (universal_newlines raw)) as [?|[]]; simpl;
      repeat split; congruence.
Qed.

Lemma _get_site_key_order_cached (w : world) (key_order : list string) :
  declared_order (_schema (self w)) = OK key_order ->
  _get_site_key_order w = (OK key_order, w).
Proof.
  intros H. rewrite _get_site_key_order_eq. unfold bind, lift.
  rewrite schema_cached by (eapply declared_order_object, H).
  rewrite H. reflexivity.
Qed.

Lemma _get_site_key_order_schema (w w' : world) (key_order : list string) :
  _get_site_key_order w = (OK key_order, w') ->
  declared_order (_schema (self w')) = OK key_order.
Proof.
  rewrite _get_site_key_order_eq. unfold bind, lift.
  destruct (schema w) as [[s|e] w1] eqn:E; [| discriminate].
  intros [= Hs <-]. apply schema_result in E. rewrite E. exact Hs.
Qed.

Lemma _get_site_key_order_frame (w : world) :
  same_but_schema (snd (_get_site_key_order w)) w.
Proof.
  rewrite _get_site_key_order_eq. unfold bind, lift.
  pose proof (schema_frame w) as H.
  destruct (schema w) as [[s|e] w1]; simpl in *; exact H.
Qed.

Lemma _get_site_key_order_same (w v : world) :
  same_schema w v ->
  fst (_get_site_key_order w) = fst (_get_site_key_order v).
Proof.
  intros H. apply schema_same in H. destruct H as [H _].
  rewrite !_get_site_key_order_eq. unfold bind, lift.
  destruct (schema w) as [[s|e] w1], (schema v) as [[s'|e'] v1];
    simpl in *; congruence.
Qed.

(** Once derived, the order is derived again from the cached schema. *)
Lemma _get_site_key_order_again (w w' : world) (key_order : list string) :
  _get_site_key_order w = (OK key_order, w') ->
  _get_site_key_order w' = (OK key_order, w').
Proof.
  intros H. apply _get_site_key_order_cached.
  eapply _get_site_key_order_schema, H.
Qed.
End KeyOrderFacts.

(** ** [format_data], step by step *)

Section FormatDataSteps.
Context {rt : Runtime}.

Lemma with_data_cached (v : json) (w : world) :
  _data (self (with_data v w)) = v.
Proof. reflexivity. Qed.

Lemma with_data_same_schema (v : json) (w : world) :
  same_schema (with_data v w) w.
Proof. unfold same_schema. simpl. auto. Qed.

Lemma data_setitem_cached (key : string) (v : json) (w : world)
      (fields : dict) :
  _data (self w) = JObj fields ->
  data_setitem key v w
  = (OK tt, with_data (JObj (dict_set key v fields)) w).
Proof.
  intros H. unfold data_setitem, bind.
  rewrite data_cached; rewrite H; reflexivity.
Qed.

Lemma _format_string_array_cached (key : string) (w : world)
      (fields : dict) :
  _data (self w) = JObj fields ->
  _format_string_array key w
  = match string_array_sorted key fields with
    | OK fields' => (OK tt, with_data (JObj fields') w)
    | Raise e => (Raise e, w)
    end.
Proof.
  intros H. unfold _format_string_array, string_array_sorted, bind.
  rewrite data_cached; rewrite H; [| reflexivity].
  unfold lift, py_get.
  destruct (dict_get key fields) as [[| | | |items|]|]; try reflexivity.
  destruct (truthy (JArr items)); [| reflexivity].
  destruct (forallb non_blank_str items); [| reflexivity].
  cbn [negb andb].
  destruct (_sort_array_alphabetically items) as [l|e]; [| reflexivity].
  cbn [rbind]. apply data_setitem_cached, H.
Qed.

Lemma _format_sites_cached (w : world) (fields : dict) :
  _data (self w) = JObj fields ->
  _format_sites w
  = match sites_sorted fields with
    | Raise e => (Raise e, w)
    | OK sorted_sites =>
        match _get_site_key_order w with
        | (Raise e, w') => (Raise e, w')
        | (OK key_order, w') =>
            match sites_formatted key_order sorted_sites with
            | Raise e => (Raise e, w')
            | OK sites =>
                (OK tt,
                 with_data (JObj (dict_set SITES_KEY (JArr sites) fields)) w')
            end
        end
    end.
Proof.
  intros H. unfold _format_sites, sites_sorted, bind.
  rewrite data_cached; rewrite H; [| reflexivity].
  unfold lift, py_get.
  destruct (dict_get SITES_KEY fields) as [[| | | |l|]|]; try reflexivity.
  destruct (_sort_sites_by_name l) as [sorted_sites|e]; [| reflexivity].
  pose proof (_get_site_key_order_frame w) as Hf.
  destruct (_get_site_key_order w) as [[key_order|e] w']; [| reflexivity].
  unfold sites_formatted.
  destruct (map_result _ sorted_sites) as [sites|e]; [| reflexivity].
  apply data_setitem_cached. destruct Hf as [Hd _]. simpl in Hd.
  rewrite Hd. exact H.
Qed.

Lemma format_data_run (w : world) (fields : dict) :
  _data (self w) = JObj fields ->
  format_data w
  = match string_array_sorted AUTHORS_KEY fields with
    | Raise e => (Raise e, w)
    | OK f1 =>
        match string_array_sorted CATEGORIES_KEY f1 with
        | Raise e => (Raise e, with_data (JObj f1) w)
        | OK f2 =>
            let w2 := with_data (JObj f2) (with_data (JObj f1) w) in
            match sites_sorted f2 with
            | Raise e => (Raise e, w2)
            | OK sorted_sites =>
                match _get_site_key_order w2 with
                | (Raise e, w') => (Raise e, w')
                | (OK key_order, w') =>
                    match sites_formatted key_order sorted_sites with
                    | Raise e => (Raise e, w')
                    | OK sites =>
                        let f3 := dict_set SITES_KEY (JArr sites) f2 in
                        (serialised f3, with_data (JObj f3) w')
                    end
                end
            end
        end
    end.
Proof.
  intros H. unfold format_data.
  unfold bind at 1. rewrite (_format_string_array_cached _ _ H).
  destruct (string_array_sorted AUTHORS_KEY fields) as [f1|e];
    [| reflexivity].
  unfold bind at 1.
  rewrite (_format_string_array_cached _ _ (with_data_cached (JObj f1) w)).
  destruct (string_array_sorted CATEGORIES_KEY f1) as [f2|e];
    [| reflexivity].
  unfold bind at 1.
  rewrite (_format_sites_cached _ (with_data_cached (JObj f2) _)).
  cbv zeta.
  destruct (sites_sorted f2) as [ss|e]; [| reflexivity].
  destruct (_get_site_key_order (with_data (JObj f2) (with_data (JObj f1) w)))
    as [[ko|e] w4]; [| reflexivity].
  destruct (sites_formatted ko ss) as [l|e]; [| reflexivity].
  unfold try_except, bind. rewrite data_cached by reflexivity.
  unfold lift, json_dumps, serialised. cbn [_data self with_data assign_data].
  destruct (dumps (JObj (dict_set SITES_KEY (JArr l) f2))); reflexivity.
Qed.

(** The result of [format_data], for a data set that is already parsed. *)
Lemma format_data_cached (w : world) (fields : dict) :
  _data (self w) = JObj fields ->
  fst (format_data w)
  = rbind (formatted (fst (_get_site_key_order w)) fields)
          serialised
  /\ same_but_schema (with_data (_data (self w)) (snd (format_data w))) w
  /\ (forall fields',
        formatted (fst (_get_site_key_order w)) fields = OK fields' ->
        _data (self (snd (format_data w))) = JObj fields'
        /\ exists key_order,
            fst (_get_site_key_order w) = OK key_order
            /\ declared_order (_schema (self (snd (format_data w))))
               = OK key_order).
Proof.
  intros H. rewrite (format_data_run _ H). unfold formatted.
  assert (Hw : same_but_schema (with_data (_data (self w)) w) w).
  { unfold same_but_schema. simpl. auto 10. }
  destruct (string_array_sorted AUTHORS_KEY fields) as [f1|e]; cbn [rbind].
  2: { repeat split; try discriminate; apply Hw. }
  destruct (string_array_sorted CATEGORIES_KEY f1) as [f2|e]; cbn [rbind].
  2: { repeat split; try discriminate; apply Hw. }
  cbv zeta.
  destruct (sites_sorted f2) as [ss|e]; cbn [rbind].
  2: { repeat split; try discriminate; apply Hw. }
  pose proof (_get_site_key_order_same
                (with_data_same_schema (JObj f2) (with_data (JObj f1) w))) as E1.
  pose proof (_get_site_key_order_same
                (with_data_same_schema (JObj f1) w)) as E2.
  rewrite <- E2, <- E1. clear E1 E2.
  pose proof (_get_site_key_order_frame
                (with_data (JObj f2) (with_data (JObj f1) w))) as Hf.
  pose proof (@_get_site_key_order_schema _
                (with_data (JObj f2) (with_data (JObj f1) w))) as Hs.
  destruct (_get_site_key_order (with_data (JObj f2) (with_data (JObj f1) w)))
    as [[ko|e] w4]; cbn [fst snd rbind] in *.
  2: { repeat split; try discriminate.
       all: unfold same_but_schema in *; simpl in *; intuition congruence. }
  destruct (sites_formatted ko ss) as [l|e]; cbn [rbind fst snd].
  2: { repeat split; try discriminate.
       all: unfold same_but_schema in *; simpl in *; intuition congruence. }
  split; [reflexivity |]. split.
  - unfold same_but_schema in *; simpl in *; intuition congruence.
  - intros fields' [= <-]. split; [reflexivity |].
    exists ko. split; [reflexivity |]. apply (Hs w4 ko eq_refl).
Qed.
End FormatDataSteps.

(** ** The list of sites *)

Lemma map_result_Forall2 {A B} (f : A -> result B) (l : list A) (l' : list B) :
  map_result f l = OK l' <-> Forall2 (fun x y => f x = OK y) l l'.
Proof.
  revert l'. induction l as [|x l IH]; intros l'; simpl.
  - split.
    + intros [= <-]. constructor.
    + intros H. inversion H. reflexivity.
  - split.
    + destruct (f x) as [y|e] eqn:E; simpl; [| discriminate].
      destruct (map_result f l) as [ys|e] eqn:E'; simpl; [| discriminate].
      intros [= <-]. constructor; [exact E |]. apply IH. reflexivity.
    + intros H. inversion H as [|? y ? ys Hy Hys]; subst.
      rewrite Hy. simpl. apply IH in Hys. rewrite Hys. reflexivity.
Qed.

Lemma Sorted_Forall2 {A B} (R : A -> A -> Prop) (R' : B -> B -> Prop)
      (P : A -> B -> Prop) (l : list A) (l' : list B) :
  (forall a b a' b', P a a' -> P b b' -> R a b -> R' a' b') ->
  Forall2 P l l' -> Sorted R l -> Sorted R' l'.
Proof.
  intros HP H. induction H as [|x y l l' Hxy Hl IH]; intros Hs.
  - constructor.
  - inversion Hs as [|? ? Hs' Hhd]; subst. constructor; [apply IH, Hs' |].
    destruct Hl as [|x1 y1 l1 l1' Hxy1 Hl1]; constructor.
    inversion Hhd; subst. eapply HP; eassumption.
Qed.

Lemma filter_Forall2 {A B} (p : A -> bool) (q : B -> bool)
      (P : A -> B -> Prop) (l : list A) (l' : list B) :
  (forall a b, P a b -> p a = q b) ->
  Forall2 P l l' -> Forall2 P (filter p l) (filter q l').
Proof.
  intros Hpq H. induction H as [|x y l l' Hxy Hl IH]; simpl.
  - constructor.
  - rewrite (Hpq x y Hxy). destruct (q y); [constructor |]; assumption.
Qed.

Section SitesFacts.
Context {rt : Runtime}.
Variable key_order : list string.

(** The sort key of a site that is an object. *)
Lemma site_sort_key_object (fields : dict) :
  site_sort_key (JObj fields) = OK (key_of site_sort_key (JObj fields)).
Proof. reflexivity. Qed.

Lemma site_sort_key_inv (site : json) (k : string) :
  site_sort_key site = OK k -> exists fields, site = JObj fields.
Proof. destruct site; try discriminate. eauto. Qed.

Lemma sites_formatted_keys (sorted_sites sites : list json) :
  sites_formatted key_order sorted_sites = OK sites ->
  Forall2 (fun site site' =>
             _format_site site key_order = OK site'
             /\ site_sort_key site' = site_sort_key site
             /\ key_of site_sort_key site' = key_of site_sort_key site)
          sorted_sites sites.
Proof.
  intros H. apply map_result_Forall2 in H.
  induction H as [|x y l l' Hxy Hl IH]; constructor; [| exact IH].
  pose proof (_format_site_name _ _ Hxy) as Hn.
  unfold key_of. rewrite Hn. auto.
Qed.

(** Formatted sites are in the order of their names, and formatting
    them again changes nothing. *)
Lemma sites_formatted_fixed (l sorted_sites sites : list json) :
  _sort_sites_by_name l = OK sorted_sites ->
  sites_formatted key_order sorted_sites = OK sites ->
  Sorted (key_le (key_of site_sort_key)) sites
  /\ _sort_sites_by_name sites = OK sites
  /\ sites_formatted key_order sites = OK sites.
Proof.
  intros Hs Hf. apply sorted_by_key_inv in Hs. destruct Hs as [-> Hk].
  pose proof (sites_formatted_keys _ Hf) as H2.
  assert (Hsorted : Sorted (key_le (key_of site_sort_key)) sites).
  { eapply Sorted_Forall2; [| exact H2 | apply sorted_Sorted].
    intros a b a' b' [_ [_ Ha]] [_ [_ Hb]]. unfold key_le.
    rewrite Ha, Hb. auto. }
  split; [exact Hsorted |]. split.
  - unfold _sort_sites_by_name. rewrite sorted_by_key_ok.
    + rewrite sorted_fixed by exact Hsorted. reflexivity.
    + clear Hf Hsorted Hk. induction H2 as [|x y s s' [Hxy _] _ IH];
        constructor; [| exact IH].
      apply _format_site_inv in Hxy.
      destruct Hxy as [fields [fields' [_ [-> _]]]].
      eexists. apply site_sort_key_object.
  - unfold sites_formatted. apply map_result_Forall2.
    clear Hf Hsorted Hk. induction H2 as [|x y s s' [Hxy _] _ IH];
      constructor; [| exact IH].
    eapply _format_site_fixed, Hxy.
Qed.
End SitesFacts.

(** ** The string arrays *)

Section StringArrays.
Context {rt : Runtime}.

Lemma non_blank_str_casefold (items : list json) :
  forallb non_blank_str items = true ->
  Forall (fun item => exists s, str_casefold item = OK s) items.
Proof.
  rewrite forallb_forall. intros H. apply Forall_forall. intros x Hx.
  apply H in Hx. destruct x; try discriminate. eexists. reflexivity.
Qed.

Lemma string_array_sorted_ok (key : string) (fields : dict)
      (items : list json) :
  dict_get key fields = Some (JArr items) ->
  items <> [] ->
  forallb non_blank_str items = true ->
  string_array_sorted key fields
  = OK (dict_set key (JArr (sorted (key_of str_casefold) items)) fields).
Proof.
  intros Hg Hne Hs. unfold string_array_sorted. rewrite Hg.
  destruct items as [|x items]; [congruence |].
  cbn [truthy andb]. rewrite Hs.
  unfold _sort_array_alphabetically.
  rewrite sorted_by_key_ok by (apply non_blank_str_casefold, Hs).
  reflexivity.
Qed.

Lemma string_array_sorted_inv (key : string) (fields fields' : dict) :
  string_array_sorted key fields = OK fields' ->
  exists items,
    dict_get key fields = Some (JArr items)
    /\ items <> []
    /\ forallb non_blank_str items = true
    /\ fields'
       = dict_set key (JArr (sorted (key_of str_casefold) items)) fields.
Proof.
  unfold string_array_sorted.
  destruct (dict_get key fields) as [[| | | |items|]|] eqn:Hg;
    try discriminate.
  destruct (truthy (JArr items)) eqn:Ht; [| discriminate].
  destruct (forallb non_blank_str items) eqn:Hs; [| discriminate].
  cbn [andb]. unfold _sort_array_alphabetically.
  rewrite sorted_by_key_ok by (apply non_blank_str_casefold, Hs).
  cbn [rbind]. intros [= <-]. exists items.
  repeat split; auto. intros ->. discriminate.
Qed.

(** A data set that holds the sorted array is left as it is. *)
Lemma string_array_sorted_fixed (key : string) (fields fields' other : dict) :
  string_array_sorted key fields = OK fields' ->
  dict_get key other = dict_get key fields' ->
  string_array_sorted key other = OK other.
Proof.
  intros H Hg. apply string_array_sorted_inv in H.
  destruct H as [items [_ [Hne [Hs ->]]]].
  rewrite dict_get_set_same in Hg.
  pose proof (sorted_perm (key_of str_casefold) items) as Hp.
  rewrite (string_array_sorted_ok _ _ Hg).
  - rewrite sorted_idempotent. rewrite dict_set_same by exact Hg.
    reflexivity.
  - intros E. rewrite E in Hp. apply Permutation_nil in Hp. congruence.
  - apply forallb_forall. intros x Hx.
    rewrite forallb_forall in Hs. apply Hs.
    eapply Permutation_in; eassumption.
Qed.
End StringArrays.

(** ** Formatting a formatted data set *)

Section FormattedTwice.
Context {rt : Runtime}.

Lemma formatted_inv (key_order : result (list string)) (fields fields' : dict) :
  formatted key_order fields = OK fields' ->
  exists with_authors with_both l sorted_sites order sites,
    string_array_sorted AUTHORS_KEY fields = OK with_authors
    /\ string_array_sorted CATEGORIES_KEY with_authors = OK with_both
    /\ dict_get SITES_KEY with_both = Some (JArr l)
    /\ _sort_sites_by_name l = OK sorted_sites
    /\ key_order = OK order
    /\ sites_formatted order sorted_sites = OK sites
    /\ fields' = dict_set SITES_KEY (JArr sites) with_both.
Proof.
  unfold formatted. intros H.
  destruct (string_array_sorted AUTHORS_KEY fields) as [f1|] eqn:Ha;
    [| discriminate].
  cbn [rbind] in H.
  destruct (string_array_sorted CATEGORIES_KEY f1) as [f2|] eqn:Hc;
    [| discriminate].
  cbn [rbind] in H. unfold sites_sorted in H.
  destruct (dict_get SITES_KEY f2) as [[| | | |l|]|] eqn:Hg; try discriminate.
  destruct (_sort_sites_by_name l) as [ss|] eqn:Hs; [| discriminate].
  cbn [rbind] in H. destruct key_order as [order|]; [| discriminate].
  cbn [rbind] in H.
  destruct (sites_formatted order ss) as [sites|] eqn:Hf; [| discriminate].
  injection H as <-. exists f1, f2, l, ss, order, sites.
  repeat split; assumption.
Qed.

Theorem formatted_fixed (key_order : list string) (fields fields' : dict) :
  formatted (OK key_order) fields = OK fields' ->
  formatted (OK key_order) fields' = OK fields'.
Proof.
  intros H. apply formatted_inv in H.
  destruct H as [f1 [f2 [l [ss [order [sites
                  [Ha [Hc [Hg [Hs [[= <-] [Hf ->]]]]]]]]]]]].
  destruct (sites_formatted_fixed _ _ Hs Hf) as [_ [Hs' Hf']].
  assert (Ha' : dict_get AUTHORS_KEY (dict_set SITES_KEY (JArr sites) f2)
                = dict_get AUTHORS_KEY f1).
  { rewrite dict_get_set_other by discriminate.
    apply string_array_sorted_inv in Hc. destruct Hc as [? [_ [_ [_ ->]]]].
    apply dict_get_set_other. discriminate. }
  assert (Hc' : dict_get CATEGORIES_KEY (dict_set SITES_KEY (JArr sites) f2)
                = dict_get CATEGORIES_KEY f2).
  { apply dict_get_set_other. discriminate. }
  unfold formatted.
  erewrite string_array_sorted_fixed by eassumption. cbn [rbind].
  erewrite string_array_sorted_fixed by eassumption. cbn [rbind].
  unfold sites_sorted. rewrite dict_get_set_same, Hs'. cbn [rbind].
  rewrite Hf'. cbn [rbind]. rewrite dict_set_set. reflexivity.
Qed.
End FormattedTwice.

(** ** [format_data] as a whole *)

Section FormatData.
Context {rt : Runtime}.

Lemma _format_string_array_warm (key : string) (w w1 : world)
      (fields : dict) :
  data w = (OK (JObj fields), w1) ->
  _format_string_array key w = _format_string_array key w1.
Proof.
  intros H. unfold _format_string_array. apply (bind_data_warm _ _ H).
Qed.

(** Reading the data set first changes nothing for [format_data]. *)
Lemma format_data_warm (w w1 : world) (fields : dict) :
  data w = (OK (JObj fields), w1) -> format_data w = format_data w1.
Proof.
  intros H. unfold format_data. unfold bind at 1 5.
  rewrite (_format_string_array_warm _ _ H). reflexivity.
Qed.

Lemma format_data_needs_data (w w' : world) (s : string) :
  format_data w = (OK s, w') ->
  exists fields w1, data w = (OK (JObj fields), w1).
Proof.
  unfold format_data, _format_string_array. unfold bind at 1 2.
  destruct (data w) as [[d|e] w1]; [| discriminate].
  destruct d as [| | | | |fields]; try discriminate. eauto.
Qed.

(** Either the data set is an object, and [format_data] goes on with it,
    or [format_data] stops where the data set was read. *)
Lemma format_data_cases (w : world) :
  (exists fields,
      data w = (OK (JObj fields), snd (data w))
      /\ format_data w = format_data (snd (data w)))
  \/ (exists e, format_data w = (Raise e, snd (data w))).
Proof.
  destruct (data w) as [[d|e] w1] eqn:Hd; cbn [snd].
  - destruct d as [| | | | |fields].
    6: { left. exists fields. split; [reflexivity |].
         apply (format_data_warm _ Hd). }
    all: right; exists AttributeError;
      unfold format_data, _format_string_array; unfold bind at 1 2;
      rewrite Hd; reflexivity.
  - right. exists e.
    unfold format_data, _format_string_array. unfold bind at 1 2.
    rewrite Hd. reflexivity.
Qed.

Lemma data_same_schema (w : world) : same_schema (snd (data w)) w.
Proof.
  pose proof (data_frame w) as H. cbv zeta in H. unfold same_schema.
  destruct H as [Hd [_ [_ [Hp [Hs Hr]]]]]. rewrite Hd, Hp. auto.
Qed.

(** What a successful run of [format_data] returns and leaves behind. *)
Lemma format_data_inv (w w' : world) (s : string) :
  format_data w = (OK s, w') ->
  exists fields w1 key_order fields',
    data w = (OK (JObj fields), w1)
    /\ fst (_get_site_key_order w) = OK key_order
    /\ formatted (OK key_order) fields = OK fields'
    /\ dumps (JObj fields') = Some s
    /\ _data (self w') = JObj fields'
    /\ declared_order (_schema (self w')) = OK key_order
    /\ disk w' = disk w
    /\ written w' = written w
    /\ data_path (self w') = data_path (self w)
    /\ schema_path (self w') = schema_path (self w).
Proof.
  intros H. destruct (format_data_needs_data _ H) as [fields [w1 Hd]].
  rewrite (format_data_warm _ Hd) in H.
  pose proof (data_result _ Hd) as Hc.
  destruct (format_data_cached _ Hc) as [Hr [Hw Hf]].
  rewrite H in Hr, Hw, Hf. cbn [fst snd] in *.
  assert (Hk : fst (_get_site_key_order w1) = fst (_get_site_key_order w)).
  { apply _get_site_key_order_same.
    pose proof (data_same_schema w) as Hs. rewrite Hd in Hs. exact Hs. }
  rewrite Hk in *.
  destruct (formatted (fst (_get_site_key_order w)) fields) as [f3|e] eqn:E;
    [| discriminate].
  cbn [rbind] in Hr. unfold serialised in Hr.
  destruct (dumps (JObj f3)) as [text|] eqn:Htext; [| discriminate].
  injection Hr as ->.
  destruct (Hf f3 eq_refl) as [Hd' [ko [Hko Hs]]].
  rewrite Hko in E.
  pose proof (data_frame w) as Hfr. cbv zeta in Hfr. rewrite Hd in Hfr.
  cbn [snd] in Hfr.
  unfold same_but_schema in Hw. simpl in Hw.
  exists fields, w1, ko, f3.
  repeat split; try assumption; try reflexivity; intuition congruence.
Qed.

(** A run on a world that holds a formatted data set and its schema. *)
Lemma format_data_fixed (w : world) (fields : dict)
      (key_order : list string) :
  data w = (OK (JObj fields), snd (data w)) ->
  fst (_get_site_key_order w) = OK key_order ->
  formatted (OK key_order) fields = OK fields ->
  fst (format_data w) = serialised fields
  /\ disk (snd (format_data w)) = disk w
  /\ written (snd (format_data w)) = written w.
Proof.
  intros Hd Hk Hf.
  rewrite (format_data_warm _ Hd).
  pose proof (data_result _ Hd) as Hc.
  destruct (format_data_cached _ Hc) as [Hr [Hw _]].
  assert (Hk' : fst (_get_site_key_order (snd (data w))) = OK key_order).
  { rewrite <- Hk. apply _get_site_key_order_same, data_same_schema. }
  rewrite Hk', Hf in Hr. cbn [rbind] in Hr.
  pose proof (data_frame w) as Hfr. cbv zeta in Hfr.
  unfold same_but_schema in Hw. simpl in Hw.
  repeat split; try assumption; intuition congruence.
Qed.
End FormatData.

(** ** The data sets that [format_data] accepts *)

Section Accepted.
Context {rt : Runtime}.

Lemma sites_formatted_known (key_order : list string) (sites : list json) :
  Forall (fun site =>
            exists f, site = JObj f
                      /\ forall k, In k (dict_keys f) -> In k key_order)
         sites ->
  exists sites', sites_formatted key_order sites = OK sites'.
Proof.
  unfold sites_formatted.
  induction 1 as [|site sites [f [-> Hk]] _ [sites' IH]]; simpl.
  - eexists. reflexivity.
  - destruct (_format_site_known key_order f Hk) as [site' E].
    rewrite E, IH. eexists. reflexivity.
Qed.

(** A data set with non-empty arrays of non-blank strings as authors and
    categories, and sites that are objects with declared keys only, is
    formatted, once the schema declares the order of the keys. *)
Lemma format_data_succeeds
      (w w1 : world) (fields : dict) (authors categories sites : list json)
      (key_order : list string) :
  data w = (OK (JObj fields), w1) ->
  dict_get AUTHORS_KEY fields = Some (JArr authors) ->
  authors <> [] -> forallb non_blank_str authors = true ->
  dict_get CATEGORIES_KEY fields = Some (JArr categories) ->
  categories <> [] -> forallb non_blank_str categories = true ->
  dict_get SITES_KEY fields = Some (JArr sites) ->
  Forall (fun site =>
            exists f, site = JObj f
                      /\ forall k, In k (dict_keys f) -> In k key_order)
         sites ->
  fst (_get_site_key_order w) = OK key_order ->
  exists fields',
    formatted (OK key_order) fields = OK fields'
    /\ fst (format_data w) = serialised fields'.
Proof.
  intros Hd Ha Hane Has Hc Hcne Hcs Hs Hsites Hko.
  assert (Hf : exists fields', formatted (OK key_order) fields = OK fields').
  2: { destruct Hf as [fields' Hf]. exists fields'. split; [exact Hf |].
       rewrite (format_data_warm _ Hd).
       destruct (format_data_cached _ (data_result _ Hd)) as [Hr _].
       rewrite Hr.
       replace (fst (_get_site_key_order w1)) with (OK key_order).
       - rewrite Hf. reflexivity.
       - rewrite <- Hko. symmetry. apply _get_site_key_order_same.
         pose proof (data_same_schema w) as Hsame. rewrite Hd in Hsame.
         exact Hsame. }
  unfold formatted.
  rewrite (string_array_sorted_ok _ _ Ha Hane Has). cbn [rbind].
  erewrite (string_array_sorted_ok CATEGORIES_KEY); try eassumption.
  2: { rewrite dict_get_set_other by discriminate. exact Hc. }
  cbn [rbind]. unfold sites_sorted.
  rewrite !dict_get_set_other by discriminate. rewrite Hs.
  unfold _sort_sites_by_name. rewrite sorted_by_key_ok.
  2: { eapply Forall_impl; [| exact Hsites]. intros site [f [-> _]].
       eexists. apply site_sort_key_object. }
  cbn [rbind].
  destruct (@sites_formatted_known key_order
              (sorted (key_of site_sort_key) sites))
    as [sites' E].
  { eapply Permutation_Forall; [| exact Hsites].
    apply Permutation_sym, sorted_perm. }
  rewrite E. cbn [rbind]. eexists. reflexivity.
Qed.
End Accepted.

(** ** Claims about the canonicaliser *)

Section Canonicaliser.
Context {rt : Runtime}.

Lemma data_parse (w : world) (s : string) (d : json) :
  _data (self w) = JNull ->
  fst (data_raw w) = OK s ->
  loads s = OK d ->
  data w = (OK d, with_data d (snd (data_raw w))).
Proof.
  intros Hd Hr Hl. unfold data, bind at 1, get_self.
  rewrite Hd. cbn [is_None]. unfold bind at 1.
  destruct (data_raw w) as [[raw|e] w0]; cbn [fst snd] in *; [| discriminate].
  injection Hr as ->.
  unfold bind, lift, parse_json_data, set_self, ret. rewrite Hl. reflexivity.
Qed.

(** C1.  Idempotence of canonicalisation, under a fixed schema.  When
    [format_data] returns the text [s], formatting again returns the
    same text: on the same formatter, which holds the formatted data
    set, and on a formatter [w2] with the same schema whose raw data is
    the text [s], not parsed yet, provided [json.loads] reads [s] back as
    the value that [json.dumps] wrote. *)
Theorem format_data_idempotent (w w' w2 : world) (s : string) :
  format_data w = (OK s, w') ->
  loads s = OK (_data (self w')) ->
  _data (self w2) = JNull ->
  fst (data_raw w2) = OK s ->
  same_schema w2 w ->
  fst (format_data w') = OK s /\ fst (format_data w2) = OK s.
Proof.
  intros H Hl Hd2 Hr2 Hs2. apply format_data_inv in H.
  destruct H as [fields [w1 [ko [f3 [Hd [Hk [Hf [Ht [Hd' [Hs' _]]]]]]]]]].
  apply formatted_fixed in Hf.
  assert (Ho : serialised f3 = OK s) by (unfold serialised; now rewrite Ht).
  rewrite <- Ho. split.
  - apply format_data_fixed with ko; [| | exact Hf].
    + rewrite data_cached; rewrite Hd'; reflexivity.
    + rewrite (_get_site_key_order_cached _ Hs'). reflexivity.
  - rewrite Hd' in Hl. pose proof (data_parse _ Hd2 Hr2 Hl) as Hp.
    apply format_data_fixed with ko; [| | exact Hf].
    + rewrite Hp. reflexivity.
    + rewrite <- Hk. apply _get_site_key_order_same, Hs2.
Qed.
End Canonicaliser.

(** The scenario of the specification: the data set is formatted into the
    canonical document, and a new formatter with the schema that finds
    the canonical text in the data file formats it into itself. *)
Lemma format_data_idempotent_witness :
  fst (format_data (rt := Example.runtime)
                   (snd (format_data (rt := Example.runtime) Example.formatter)))
  = OK Example.canonical_text
  /\ fst (format_data (rt := Example.runtime) Example.reloaded)
     = OK Example.canonical_text.
Proof.
  apply (@format_data_idempotent Example.runtime Example.formatter
           (snd (format_data (rt := Example.runtime) Example.formatter))
           Example.reloaded Example.canonical_text).
  - vm_compute. reflexivity.
  - vm_compute. reflexivity.
  - reflexivity.
  - vm_compute. reflexivity.
  - unfold same_schema. simpl. auto.
Defined.

Section Order.
Context {rt : Runtime}.

Lemma name_key_object (fields : dict) :
  key_of site_sort_key (JObj fields) = name_key (JObj fields).
Proof.
  unfold key_of, site_sort_key, py_get_or, py_get, name_key, site_name.
  simpl. destruct (dict_get NAME_KEY fields); reflexivity.
Qed.

Lemma name_key_objects (l : list json) :
  Forall (fun site => exists fields, site = JObj fields) l ->
  Forall (fun site => key_of site_sort_key site = name_key site) l.
Proof.
  intros H. eapply Forall_impl; [| exact H].
  intros site [fields ->]. apply name_key_object.
Qed.

Lemma sorted_ext {A} (f g : A -> string) (l : list A) :
  Forall (fun x => f x = g x) l -> sorted f l = sorted g l.
Proof.
  induction 1 as [|x l Hx Hl IH]; simpl; [reflexivity |].
  rewrite IH.
  assert (Hg : Forall (fun y => f y = g y) (sorted g l)).
  { eapply Permutation_Forall; [| exact Hl].
    apply Permutation_sym, sorted_perm. }
  clear IH Hl. induction Hg as [|y l' Hy Hl' IH']; simpl; [reflexivity |].
  rewrite Hx, Hy. destruct (g x <=? g y)%string; [reflexivity |].
  rewrite IH'. reflexivity.
Qed.

(** What [format_data] does to the sites: they are sorted by [name_key],
    stably, and each is formatted. *)
Lemma format_data_sites (w w' : world) (s : string) :
  format_data w = (OK s, w') ->
  exists fields w1 key_order fields' input output,
    data w = (OK (JObj fields), w1)
    /\ dict_get SITES_KEY fields = Some (JArr input)
    /\ fst (_get_site_key_order w) = OK key_order
    /\ dumps (JObj fields') = Some s
    /\ dict_get SITES_KEY fields' = Some (JArr output)
    /\ Forall (fun site => exists f, site = JObj f) input
    /\ Forall2 (fun site site' =>
                  _format_site site key_order = OK site'
                  /\ name_key site' = name_key site)
               (sorted name_key input) output.
Proof.
  intros H. apply format_data_inv in H.
  destruct H as [fields [w1 [ko [f3 [Hd [Hk [Hf [Ht _]]]]]]]].
  apply formatted_inv in Hf.
  destruct Hf as [f1 [f2 [l [ss [order [sites
                   [Ha [Hc [Hg [Hs [[= <-] [Hf ->]]]]]]]]]]]].
  exists fields, w1, ko, (dict_set SITES_KEY (JArr sites) f2), l, sites.
  apply string_array_sorted_inv in Ha, Hc.
  destruct Ha as [? [_ [_ [_ ->]]]]. destruct Hc as [? [_ [_ [_ ->]]]].
  rewrite !dict_get_set_other in Hg by discriminate.
  apply sorted_by_key_inv in Hs. destruct Hs as [-> Hobj].
  assert (Hobjs : Forall (fun site => exists f, site = JObj f) l).
  { eapply Forall_impl; [| exact Hobj]. intros site Hsite.
    eapply site_sort_key_inv, Hsite. }
  rewrite (sorted_ext _ name_key) in Hf by (apply name_key_objects, Hobjs).
  repeat split; try assumption; try reflexivity.
  - apply dict_get_set_same.
  - pose proof (sites_formatted_keys _ _ Hf) as H2.
    assert (Hin : Forall (fun site => exists f, site = JObj f)
                         (sorted name_key l)).
    { eapply Permutation_Forall; [| exact Hobjs].
      apply Permutation_sym, sorted_perm. }
    clear Hf Ht. induction H2 as [|site site' rest rest' [Hxy [_ Hkey]] _ IH];
      constructor.
    + split; [exact Hxy |]. inversion Hin as [|? ? [f ->] _]; subst.
      apply _format_site_inv in Hxy as Hy.
      destruct Hy as [? [f' [_ [-> _]]]].
      rewrite <- !name_key_object. exact Hkey.
    + apply IH. inversion Hin; assumption.
Qed.

(** C4.  In the text that [format_data] returns, the sites are in the
    order of their names, compared as case-folded strings with the
    empty string for a missing name; and the sites of one sort key are
    the input sites of that key, formatted, in their input order. *)
Theorem format_data_sorts_sites (w w' : world) (s : string) :
  format_data w = (OK s, w') ->
  exists fields w1 key_order fields' input output,
    data w = (OK (JObj fields), w1)
    /\ dict_get SITES_KEY fields = Some (JArr input)
    /\ dumps (JObj fields') = Some s
    /\ dict_get SITES_KEY fields' = Some (JArr output)
    /\ Sorted name_le output
    /\ forall k,
         Forall2 (fun site site' => _format_site site key_order = OK site')
                 (filter (fun site => name_key site =? k) input)
                 (filter (fun site => name_key site =? k) output).
Proof.
  intros H. apply format_data_sites in H.
  destruct H as [fields [w1 [ko [f3 [input [output
                  [Hd [Hi [Hk [Ht [Ho [Hobj H2]]]]]]]]]]]].
  exists fields, w1, ko, f3, input, output.
  repeat split; try assumption; try reflexivity.
  - eapply Sorted_Forall2; [| exact H2 | apply (sorted_Sorted name_key)].
    intros a b a' b' [_ Ha] [_ Hb]. unfold name_le, key_le.
    rewrite Ha, Hb. auto.
  - intros k. rewrite <- (sorted_stable name_key k input).
    eapply Forall2_impl; [| eapply filter_Forall2; [| exact H2]].
    + intros a b [Hab _]. exact Hab.
    + intros a b [_ Hab]. cbv beta. rewrite Hab. reflexivity.
Qed.
End Order.

Lemma format_data_sorts_sites_witness :
  exists fields w1 key_order fields' input output,
    data (rt := Example.runtime) Example.formatter = (OK (JObj fields), w1)
    /\ dict_get SITES_KEY fields = Some (JArr input)
    /\ dumps (Runtime := Example.runtime) (JObj fields')
       = Some Example.canonical_text
    /\ dict_get SITES_KEY fields' = Some (JArr output)
    /\ Sorted (name_le (rt := Example.runtime)) output
    /\ forall k,
         Forall2 (fun site site' =>
                    _format_site (rt := Example.runtime) site key_order
                    = OK site')
                 (filter (fun site => name_key (rt := Example.runtime) site =? k)
                         input)
                 (filter (fun site => name_key (rt := Example.runtime) site =? k)
                         output).
Proof.
  apply (@format_data_sorts_sites Example.runtime Example.formatter
           (snd (format_data (rt := Example.runtime) Example.formatter))
           Example.canonical_text).
  vm_compute. reflexivity.
Defined.

Section KeyOrderClaim.
Context {rt : Runtime}.

(** C5.  In the text that [format_data] returns, the keys of every site
    are the keys that the schema declares and the site has, in the
    declared order: the declared order restricted to the keys of the
    input site, which is also the declared order restricted to the keys
    of the output site.  No key is added.  The declared order is that of
    a dict, free of repetitions. *)
Theorem format_data_orders_keys (w w' : world) (s : string)
        (key_order : list string) :
  format_data w = (OK s, w') ->
  fst (_get_site_key_order w) = OK key_order ->
  NoDup key_order ->
  exists fields w1 fields' input output,
    data w = (OK (JObj fields), w1)
    /\ dict_get SITES_KEY fields = Some (JArr input)
    /\ dumps (JObj fields') = Some s
    /\ dict_get SITES_KEY fields' = Some (JArr output)
    /\ Forall2 (fun site site' =>
                  exists f f',
                    site = JObj f /\ site' = JObj f'
                    /\ dict_keys f'
                       = filter (fun k => dict_mem k f) key_order
                    /\ dict_keys f'
                       = filter (fun k => dict_mem k f') key_order
                    /\ (forall k, In k (dict_keys f') -> In k (dict_keys f)))
               (sorted name_key input) output.
Proof.
  intros H Hk Hnd. apply format_data_sites in H.
  destruct H as [fields [w1 [ko [f3 [input [output
                  [Hd [Hi [Hk' [Ht [Ho [Hobj H2]]]]]]]]]]]].
  rewrite Hk in Hk'. injection Hk' as <-.
  exists fields, w1, f3, input, output.
  repeat split; try assumption; try reflexivity.
  assert (Hin : Forall (fun site => exists f, site = JObj f)
                       (sorted name_key input)).
  { eapply Permutation_Forall; [| exact Hobj].
    apply Permutation_sym, sorted_perm. }
  clear Ho Hd Hi Hobj Ht.
  induction H2 as [|site site' rest rest' [Hxy _] _ IH]; constructor.
  - inversion Hin as [|? ? [f ->] _]; subst.
    destruct (_format_site_keys _ Hnd Hxy) as [f' [-> Hkeys]].
    exists f, f'. repeat split; try assumption.
    + rewrite Hkeys at 1. apply filter_ext_in. intros k Hkin.
      destruct (dict_mem k f) eqn:E; unfold dict_mem; rewrite Hkeys;
        symmetry.
      * apply key_in_In, filter_In. auto.
      * destruct (key_in k (filter (fun k0 => dict_mem k0 f) key_order))
          eqn:E'; [| reflexivity].
        apply key_in_In, filter_In in E'. destruct E'. congruence.
    + intros k Hkin. rewrite Hkeys in Hkin. apply filter_In in Hkin.
      destruct Hkin as [_ Hm]. apply key_in_In, Hm.
  - apply IH. inversion Hin; assumption.
Qed.
End KeyOrderClaim.

Lemma format_data_orders_keys_witness :
  exists fields w1 fields' input output,
    data (rt := Example.runtime) Example.formatter = (OK (JObj fields), w1)
    /\ dict_get SITES_KEY fields = Some (JArr input)
    /\ dumps (Runtime := Example.runtime) (JObj fields')
       = Some Example.canonical_text
    /\ dict_get SITES_KEY fields' = Some (JArr output)
    /\ Forall2 (fun site site' =>
                  exists f f',
                    site = JObj f /\ site' = JObj f'
                    /\ dict_keys f'
                       = filter (fun k => dict_mem k f) ["name"; "headers"]
                    /\ dict_keys f'
                       = filter (fun k => dict_mem k f') ["name"; "headers"]
                    /\ (forall k, In k (dict_keys f') -> In k (dict_keys f)))
               (sorted (name_key (rt := Example.runtime)) input) output.
Proof.
  apply (@format_data_orders_keys Example.runtime Example.formatter
           (snd (format_data (rt := Example.runtime) Example.formatter))
           Example.canonical_text ["name"; "headers"]).
  - vm_compute. reflexivity.
  - reflexivity.
  - repeat constructor; simpl; intuition discriminate.
Defined.

Section Strictness.
Context {rt : Runtime}.

Lemma string_array_sorted_cases (key : string) (fields : dict) :
  (exists fields', string_array_sorted key fields = OK fields')
  \/ string_array_sorted key fields = Raise WMNFormatError.
Proof.
  unfold string_array_sorted.
  destruct (dict_get key fields) as [[| | | |items|]|]; auto.
  destruct (truthy (JArr items)); auto.
  destruct (forallb non_blank_str items) eqn:Hs; auto.
  cbn [andb]. unfold _sort_array_alphabetically.
  rewrite sorted_by_key_ok by (apply non_blank_str_casefold, Hs).
  left. eexists. reflexivity.
Qed.

Lemma sites_formatted_unknown (key_order : list string) (sites : list json)
      (fields : dict) (k : string) :
  Forall (fun site => exists f, site = JObj f) sites ->
  In (JObj fields) sites ->
  In k (dict_keys fields) -> ~ In k key_order ->
  sites_formatted key_order sites = Raise WMNFormatError.
Proof.
  intros Hobj Hin Hk Hn. unfold sites_formatted.
  induction Hobj as [|site sites [f ->] _ IH]; [destruct Hin |].
  simpl. destruct (_format_site_object_result key_order f) as [[site' E]|E];
    rewrite E; [| reflexivity].
  cbn [rbind]. destruct Hin as [[= ->]|Hin].
  - rewrite (_format_site_unknown _ _ _ Hk Hn) in E. discriminate.
  - rewrite (IH Hin). reflexivity.
Qed.

(** A data set with an undeclared key in a site is refused. *)
Lemma formatted_unknown (key_order : list string) (fields site_fields : dict)
      (sites : list json) (k : string) :
  dict_get SITES_KEY fields = Some (JArr sites) ->
  Forall (fun site => exists f, site = JObj f) sites ->
  In (JObj site_fields) sites ->
  In k (dict_keys site_fields) -> ~ In k key_order ->
  formatted (OK key_order) fields = Raise WMNFormatError.
Proof.
  intros Hg Hobj Hin Hk Hn. unfold formatted.
  destruct (string_array_sorted_cases AUTHORS_KEY fields) as [[f1 Ha]|Ha];
    rewrite Ha; [| reflexivity].
  cbn [rbind].
  destruct (string_array_sorted_cases CATEGORIES_KEY f1) as [[f2 Hc]|Hc];
    rewrite Hc; [| reflexivity].
  cbn [rbind]. unfold sites_sorted.
  apply string_array_sorted_inv in Ha, Hc.
  destruct Ha as [? [_ [_ [_ ->]]]]. destruct Hc as [? [_ [_ [_ ->]]]].
  rewrite !dict_get_set_other by discriminate. rewrite Hg.
  unfold _sort_sites_by_name. rewrite sorted_by_key_ok.
  - cbn [rbind].
    rewrite sites_formatted_unknown with (fields := site_fields) (k := k);
      try assumption; try reflexivity.
    + eapply Permutation_Forall; [| exact Hobj].
      apply Permutation_sym, sorted_perm.
    + eapply Permutation_in; [| exact Hin].
      apply Permutation_sym, sorted_perm.
  - eapply Forall_impl; [| exact Hobj]. intros site [f ->].
    eexists. apply site_sort_key_object.
Qed.

(** [format_data] writes nothing. *)
Lemma format_data_frame (w : world) :
  disk (snd (format_data w)) = disk w
  /\ written (snd (format_data w)) = written w.
Proof.
  pose proof (data_frame w) as Hfr. cbv zeta in Hfr.
  destruct (format_data_cases w) as [[fields [Hd E]]|[e E]]; rewrite E.
  - destruct (format_data_cached _ (data_result _ Hd)) as [_ [Hw _]].
    unfold same_but_schema in Hw. simpl in Hw. intuition congruence.
  - cbn [snd]. intuition congruence.
Qed.

(** What [format_file] does, from what the formatter returns. *)
Lemma format_file_run (formatter : M string) (raw_data : string)
      (file_path : path) (w : world) :
  format_file formatter raw_data file_path w
  = match formatter w with
    | (Raise e, w1) =>
        (Raise (if is_WMNError e then e else WMNFormatError), w1)
    | (OK formatted_data, w1) =>
        if raw_data =? formatted_data then (OK false, w1)
        else
          match write_file_content file_path formatted_data w1 with
          | (OK _, w2) => (OK true, w2)
          | (Raise _, w2) => (Raise WMNFileError, w2)
          end
    end.
Proof.
  unfold format_file, try_except, bind.
  destruct (formatter w) as [[text|e] w1].
  - destruct (raw_data =? text); [reflexivity |]. cbn [negb].
    unfold write_file_content.
    destruct (write_text file_path text w1) as [[err|] w2].
    + reflexivity.
    + destruct (file_path =? data_path (self w2)); [reflexivity |].
      destruct (file_path =? schema_path (self w2)); reflexivity.
  - destruct (is_WMNError e); reflexivity.
Qed.

(** C3.  Strictness.  Let the data set be an object whose sites are
    objects, and let the schema declare an order of the site keys.  If
    some site has a key outside the declared order, [format_data]
    raises [WMNFormatError], and so does [format_file] called with it,
    without a call of [write_text] and with the disk as it was. *)
Theorem format_data_rejects_unknown_keys
        (w w1 : world) (fields site_fields : dict) (sites : list json)
        (key_order : list string) (k : string)
        (raw_data : string) (file_path : path) :
  data w = (OK (JObj fields), w1) ->
  dict_get SITES_KEY fields = Some (JArr sites) ->
  Forall (fun site => exists f, site = JObj f) sites ->
  fst (_get_site_key_order w) = OK key_order ->
  In (JObj site_fields) sites ->
  In k (dict_keys site_fields) ->
  ~ In k key_order ->
  fst (format_data w) = Raise WMNFormatError
  /\ fst (format_file format_data raw_data file_path w)
     = Raise WMNFormatError
  /\ written (snd (format_file format_data raw_data file_path w))
     = written w
  /\ disk (snd (format_file format_data raw_data file_path w)) = disk w.
Proof.
  intros Hd Hg Hobj Hko Hin Hk Hn.
  assert (Hr : fst (format_data w) = Raise WMNFormatError).
  { rewrite (format_data_warm _ Hd).
    destruct (format_data_cached _ (data_result _ Hd)) as [Hr _].
    rewrite Hr.
    replace (fst (_get_site_key_order w1)) with (OK key_order).
    - erewrite formatted_unknown by eassumption. reflexivity.
    - rewrite <- Hko. symmetry. apply _get_site_key_order_same.
      pose proof (data_same_schema w) as Hs. rewrite Hd in Hs. exact Hs. }
  split; [exact Hr |].
  rewrite format_file_run.
  pose proof (format_data_frame w) as Hf.
  destruct (format_data w) as [[text|e] w2]; simpl in Hr; [discriminate |].
  injection Hr as ->. simpl in *. tauto.
Qed.
End Strictness.

(** A site with the undeclared key [x] in the data set of the scenario. *)
Lemma format_data_rejects_unknown_keys_witness :
  fst (format_data (rt := Example.runtime) Example.unknown_key)
  = Raise WMNFormatError
  /\ fst (format_file (rt := Example.runtime)
                      (format_data (rt := Example.runtime))
                      EmptyString DEFAULT_DATA Example.unknown_key)
     = Raise WMNFormatError
  /\ written (snd (format_file (rt := Example.runtime)
                               (format_data (rt := Example.runtime))
                               EmptyString DEFAULT_DATA Example.unknown_key))
     = written Example.unknown_key
  /\ disk (snd (format_file (rt := Example.runtime)
                            (format_data (rt := Example.runtime))
                            EmptyString DEFAULT_DATA Example.unknown_key))
     = disk Example.unknown_key.
Proof.
  apply (@format_data_rejects_unknown_keys Example.runtime
           Example.unknown_key Example.unknown_key
           [("authors", JArr [JStr "a"]); ("categories", JArr [JStr "x"]);
            ("sites", JArr [JObj [("name", JStr "A"); ("x", JInt 1)]])]
           [("name", JStr "A"); ("x", JInt 1)]
           [JObj [("name", JStr "A"); ("x", JInt 1)]]
           ["name"; "headers"] "x").
  - reflexivity.
  - reflexivity.
  - repeat constructor. eexists. reflexivity.
  - reflexivity.
  - left. reflexivity.
  - simpl. auto.
  - simpl. intuition discriminate.
Defined.

(** ** Claims about the storage accessor *)

Section Storage.
Context {rt : Runtime}.

Lemma write_text_log (p : path) (content : string) (w : world) :
  let w' := snd (write_text p content w) in
  written w' = (p, content) :: written w /\ self w' = self w.
Proof.
  unfold write_text.
  destruct (disk w p); try destruct (encode content); simpl; auto.
Qed.

Lemma write_file_content_result (p : path) (content : string) (w : world) :
  fst (write_file_content p content w) = OK tt
  \/ fst (write_file_content p content w) = Raise WMNFileError.
Proof.
  unfold write_file_content.
  destruct (write_text p content w) as [[err|] w']; simpl; auto.
  destruct (p =? data_path (self w')); auto.
  destruct (p =? schema_path (self w')); auto.
Qed.

Lemma write_file_content_log (p : path) (content : string) (w : world) :
  written (snd (write_file_content p content w))
  = (p, content) :: written w.
Proof.
  unfold write_file_content.
  pose proof (write_text_log p content w) as [Hl _].
  destruct (write_text p content w) as [[err|] w']; simpl in *; auto.
  destruct (p =? data_path (self w')); auto.
  destruct (p =? schema_path (self w')); auto.
Qed.

(** C10.  The cached values after [write_file_content], the two tracked
    paths being distinct.  A write that fails raises [WMNFileError] and
    leaves the four cached values as they were.  A write that succeeds
    on the data path stores the written text as the raw data and clears
    the parsed data, and nothing else; on the schema path, the same for
    the schema; on any other path, it leaves the four values as they
    were. *)
Theorem write_file_content_caches (p : path) (content : string) (w : world) :
  data_path (self w) <> schema_path (self w) ->
  let r := write_file_content p content w in
  (fst r = OK tt \/ fst r = Raise WMNFileError)
  /\ (fst r = Raise WMNFileError -> self (snd r) = self w)
  /\ (fst r = OK tt -> p = data_path (self w) ->
      self (snd r) = assign_data JNull (assign_data_raw (Some content) (self w)))
  /\ (fst r = OK tt -> p = schema_path (self w) ->
      self (snd r)
      = assign_schema JNull (assign_schema_raw (Some content) (self w)))
  /\ (p <> data_path (self w) -> p <> schema_path (self w) ->
      self (snd r) = self w).
Proof.
  intros Hne r. split; [apply write_file_content_result |].
  subst r. unfold write_file_content.
  pose proof (write_text_log p content w) as [_ Hs].
  destruct (write_text p content w) as [[err|] w']; simpl in Hs;
    cbv zeta; rewrite ?Hs.
  - simpl. repeat split; try discriminate; auto.
  - destruct (String.eqb_spec p (data_path (self w))) as [->|Hd].
    + simpl. repeat split; try discriminate; try tauto.
    + destruct (String.eqb_spec p (schema_path (self w))) as [->|Hsp];
        simpl; repeat split; try discriminate; tauto.
Qed.
End Storage.

(** A write on the data path of the scenario, which succeeds. *)
Lemma write_file_content_caches_witness :
  data_path (self Example.formatter) <> schema_path (self Example.formatter)
  /\ self (snd (write_file_content (rt := Example.runtime) DEFAULT_DATA "{}"
                                   Example.formatter))
     = assign_data JNull (assign_data_raw (Some "{}") (self Example.formatter)).
Proof.
  assert (H : data_path (self Example.formatter)
              <> schema_path (self Example.formatter))
    by (simpl; discriminate).
  split; [exact H |].
  destruct (@write_file_content_caches Example.runtime DEFAULT_DATA "{}"
              Example.formatter H) as [_ [_ [Hdata _]]].
  apply Hdata; reflexivity.
Defined.

(** ** Claims about [format_file] *)

Section WriteSkip.
Context {rt : Runtime}.

Lemma data_raw_cached (w : world) (s : string) :
  _data_raw (self w) = Some s -> data_raw w = (OK s, w).
Proof.
  intros H. unfold data_raw, bind, get_self. rewrite H. reflexivity.
Qed.






End WriteSkip.

Section WriteOnce.
Context {rt : Runtime}.

Lemma write_file_content_data (content : string) (w : world) :
  fst (write_file_content (data_path (self w)) content w) = OK tt ->
  self (snd (write_file_content (data_path (self w)) content w))
  = assign_data JNull (assign_data_raw (Some content) (self w)).
Proof.
  unfold write_file_content.
  pose proof (write_text_log (data_path (self w)) content w) as [_ Hs].
  destruct (write_text (data_path (self w)) content w) as [[err|] w'];
    simpl in Hs; cbv zeta; rewrite ?Hs.
  - discriminate.
  - rewrite String.eqb_refl. simpl. rewrite ?Hs. reflexivity.
Qed.


End WriteOnce.



(** ** Claims about the hasher *)

Section Hasher.
Context {rt : Runtime}.

Lemma read_file_content_world (p : path) (w : world) :
  snd (read_file_content p w) = w.
Proof.
  unfold read_file_content. destruct (read_text p w) as [[]|s]; reflexivity.
Qed.

Lemma read_file_content_result (p : path) (w : world) :
  (exists s, fst (read_file_content p w) = OK s)
  \/ fst (read_file_content p w) = Raise WMNFileError
  \/ fst (read_file_content p w) = Raise OSError.
Proof.
  unfold read_file_content. destruct (read_text p w) as [[]|s]; simpl; eauto.
Qed.

(** The run of [update_hash_file] once the digest is computed, from the
    outcome of reading the digest file. *)
Lemma update_hash_file_run (target_file hash_file : path)
      (data new_hash : string) (w : world) :
  _compute_sha256 data = OK new_hash ->
  _get_hash_file_path target_file = OK hash_file ->
  let write := write_file_content hash_file (new_hash ++ newline)%string w in
  let outcome (previous_hash : option string) :=
    match fst write with
    | OK _ =>
        (OK (mkHashResult target_file
               (match previous_hash with None => NEW | Some _ => UPDATED end)
               new_hash previous_hash),
         snd write)
    | Raise _ => (Raise WMNHashError, snd write)
    end in
  update_hash_file target_file data w
  = match fst (read_file_content hash_file w) with
    | OK content =>
        if strip content =? new_hash then
          (OK (mkHashResult target_file UNCHANGED new_hash
                            (Some (strip content))), w)
        else outcome (Some (strip content))
    | Raise WMNFileError => outcome None
    | Raise e => (Raise e, w)
    end.
Proof.
  intros Hc Hp write outcome. subst outcome write.
  unfold update_hash_file. unfold bind at 1. unfold lift at 1. rewrite Hc.
  unfold bind at 1. unfold lift at 1. rewrite Hp.
  pose proof (read_file_content_world hash_file w) as Hw.
  pose proof (write_file_content_result hash_file
                (new_hash ++ newline)%string w) as Hres.
  unfold bind at 1. unfold try_except at 1. unfold bind at 1.
  destruct (read_file_content hash_file w) as [[content|e] w'];
    cbn [fst snd] in *; subst w'.
  - unfold ret at 1. cbn [hash_eqb].
    destruct (strip content =? new_hash); [reflexivity |].
    unfold bind, try_except.
    destruct (write_file_content hash_file (new_hash ++ newline)%string w)
      as [[[]|e] w2]; cbn [fst snd] in *; [reflexivity |].
    destruct Hres as [Hres|Hres]; [discriminate |].
    injection Hres as ->. reflexivity.
  - destruct e; try reflexivity.
    unfold ret at 1. cbn [hash_eqb].
    unfold bind, try_except.
    destruct (write_file_content hash_file (new_hash ++ newline)%string w)
      as [[[]|e] w2]; cbn [fst snd] in *; [reflexivity |].
    destruct Hres as [Hres|Hres]; [discriminate |].
    injection Hres as ->. reflexivity.
Qed.

(** A target without a name: [with_suffix] raises [ValueError] once the
    digest is computed, and nothing is read or written. *)
Lemma update_hash_file_nameless (target_file : path) (data new_hash : string)
      (w : world) :
  _compute_sha256 data = OK new_hash ->
  _get_hash_file_path target_file = Raise ValueError ->
  update_hash_file target_file data w = (Raise ValueError, w).
Proof.
  intros Hc Hp.
  unfold update_hash_file. unfold bind at 1. unfold lift at 1. rewrite Hc.
  unfold bind at 1. unfold lift at 1. rewrite Hp. reflexivity.
Qed.

(** The two outcomes of [_get_hash_file_path]. *)
Lemma _get_hash_file_path_cases (target_file : path) :
  (path_name target_file <> EmptyString
   /\ _get_hash_file_path target_file
      = OK (target_file ++ HASH_FILE_EXTENSION)%string)
  \/ (path_name target_file = EmptyString
      /\ _get_hash_file_path target_file = Raise ValueError).
Proof.
  unfold _get_hash_file_path.
  destruct (String.eqb_spec (path_name target_file) EmptyString) as [E|E];
    [right | left]; split; auto.
Qed.

(** C2, as amended.  Let the target have a name, so that the digest
    path is the target path with the extension appended, and let the
    digest of the text be computed.  If the
    digest file is read and its stripped content is the new digest,
    [update_hash_file] returns UNCHANGED with the two digests equal and
    leaves the world as it was: no write.  Otherwise, when the digest
    file is read with another content, or reading it raises a
    [WMNFileError], [write_text] is called once, on the sibling path,
    with the new digest and a newline; if that write succeeds the
    result is UPDATED with the two differing digests in the first case
    and NEW without a previous digest in the second; if it fails,
    [WMNHashError] is raised.  For a target without a name, the root
    or the current directory, the digest path cannot be derived:
    [ValueError] is raised and the world is left as it was. *)
Theorem update_hash_file_transitions
        (target_file : path) (data new_hash : string) (w : world) :
  _compute_sha256 data = OK new_hash ->
  (path_name target_file = EmptyString ->
   update_hash_file target_file data w = (Raise ValueError, w))
  /\ (path_name target_file <> EmptyString ->
      let hash_file := (target_file ++ HASH_FILE_EXTENSION)%string in
  let write := write_file_content hash_file (new_hash ++ newline)%string w in
  let r := update_hash_file target_file data w in
  (forall content,
      fst (read_file_content hash_file w) = OK content ->
      strip content = new_hash ->
      r = (OK (mkHashResult target_file UNCHANGED new_hash (Some new_hash)),
           w))
  /\ (forall content,
         fst (read_file_content hash_file w) = OK content ->
         strip content <> new_hash ->
         written (snd r) = (hash_file, (new_hash ++ newline)%string)
                           :: written w
         /\ (fst write = OK tt ->
             fst r = OK (mkHashResult target_file UPDATED new_hash
                                      (Some (strip content))))
         /\ (fst write = Raise WMNFileError -> fst r = Raise WMNHashError))
  /\ (fst (read_file_content hash_file w) = Raise WMNFileError ->
      written (snd r) = (hash_file, (new_hash ++ newline)%string)
                        :: written w
      /\ (fst write = OK tt ->
          fst r = OK (mkHashResult target_file NEW new_hash None))
      /\ (fst write = Raise WMNFileError -> fst r = Raise WMNHashError))).
Proof.
  intros Hc.
  destruct (_get_hash_file_path_cases target_file) as [[Hn Hp]|[Hn Hp]];
    (split; [intros Hn' | intros Hn']); try contradiction.
  2: { exact (@update_hash_file_nameless target_file data new_hash w Hc Hp). }
  intros hash_file write r. subst r.
  rewrite (@update_hash_file_run target_file hash_file data new_hash w Hc Hp).
  pose proof (write_file_content_log hash_file
                (new_hash ++ newline)%string w) as Hlog.
  fold write. fold write in Hlog.
  split; [| split].
  - intros content -> <-. rewrite String.eqb_refl. reflexivity.
  - intros content -> Hne. apply String.eqb_neq in Hne. rewrite Hne.
    destruct (fst write) as [[]|e]; cbn [fst snd];
      repeat split; try discriminate; auto.
  - intros ->.
    destruct (fst write) as [[]|e]; cbn [fst snd];
      repeat split; try discriminate; auto.
Qed.
End Hasher.

(** The first call for a file without a digest file, on a disk where the
    digest file can be created. *)
Lemma update_hash_file_transitions_witness :
  fst (update_hash_file (rt := Example.runtime) DEFAULT_DATA "{}"
                        (Example.fresh Example.empty_disk))
  = OK (mkHashResult DEFAULT_DATA NEW (Sample.digest "{}") None).
Proof.
  destruct (@update_hash_file_transitions Example.runtime DEFAULT_DATA "{}"
              (Sample.digest "{}") (Example.fresh Example.empty_disk))
    as [_ H].
  - reflexivity.
  - destruct H as [_ [_ H]]; [vm_compute; discriminate |].
    destruct H as [_ [H _]]; [reflexivity |]. apply H. reflexivity.
Defined.

(** No readable digest file exists, and no status is returned: the digest
    path is a directory, the write fails, [WMNHashError] is raised. *)
Lemma update_hash_file_unwritable :
  fst (read_file_content (DEFAULT_DATA ++ HASH_FILE_EXTENSION)%string
                         Example.digest_is_directory)
  = Raise WMNFileError
  /\ fst (update_hash_file (rt := Example.runtime) DEFAULT_DATA "{}"
                           Example.digest_is_directory)
     = Raise WMNHashError.
Proof.
  vm_compute. split; reflexivity.
Qed.

(** ** Claims about the validator *)

Section Duplicates.
Context {rt : Runtime}.

Lemma hkey_eqb_spec (a b : hkey) : reflect (a = b) (hkey_eqb a b).
Proof.
  destruct a as [|n|s], b as [|m|t]; simpl;
    try (constructor; congruence).
  - destruct (Z.eqb_spec n m); constructor; congruence.
  - destruct (String.eqb_spec s t); constructor; congruence.
Qed.

Lemma counter_get_absent (k : hkey) (counter : list (json * hkey * nat)) :
  ~ In k (counter_keys counter) -> counter_get k counter = 0.
Proof.
  induction counter as [|[[n k'] c] counter IH]; simpl; [reflexivity |].
  intros H. destruct (hkey_eqb_spec k' k) as [->|Hne]; [tauto |].
  apply IH. tauto.
Qed.

Lemma counter_get_In (name : json) (k : hkey) (count : nat)
      (counter : list (json * hkey * nat)) :
  NoDup (counter_keys counter) ->
  In (name, k, count) counter -> counter_get k counter = count.
Proof.
  induction counter as [|[[n k'] c] counter IH]; simpl; [tauto |].
  intros Hnd [[= -> -> ->]|Hin].
  - destruct (hkey_eqb_spec k k); [reflexivity | congruence].
  - inversion Hnd as [|? ? Hk Hnd']; subst.
    destruct (hkey_eqb_spec k' k) as [->|Hne]; [| apply IH; assumption].
    exfalso. apply Hk.
    exact (in_map (fun e : json * hkey * nat => snd (fst e)) counter
                  (name, k, count) Hin).
Qed.

Lemma counter_add_keys (name : json) (k : hkey)
      (counter : list (json * hkey * nat)) :
  forall k', In k' (counter_keys (counter_add name k counter))
             <-> k' = k \/ In k' (counter_keys counter).
Proof.
  induction counter as [|[[n k0] c] counter IH]; intros k'; simpl.
  - intuition congruence.
  - destruct (hkey_eqb_spec k0 k) as [->|Hne]; simpl.
    + intuition congruence.
    + rewrite IH. intuition congruence.
Qed.

Lemma counter_add_get (name : json) (k k' : hkey)
      (counter : list (json * hkey * nat)) :
  counter_get k' (counter_add name k counter)
  = (if hkey_eqb k k' then 1 else 0) + counter_get k' counter.
Proof.
  induction counter as [|[[n k0] c] counter IH]; simpl.
  - destruct (hkey_eqb k k'); reflexivity.
  - destruct (hkey_eqb_spec k0 k) as [->|Hne]; simpl.
    + destruct (hkey_eqb k k'); reflexivity.
    + rewrite IH. destruct (hkey_eqb_spec k0 k') as [->|Hne'].
      * destruct (hkey_eqb_spec k k'); [congruence | reflexivity].
      * reflexivity.
Qed.

Lemma counter_add_ok (name : json) (k : hkey)
      (counter : list (json * hkey * nat)) :
  py_hash name = Some k -> truthy name = true ->
  counter_ok counter -> counter_ok (counter_add name k counter).
Proof.
  intros Hh Ht [Hnd Hf]. split.
  - clear Hf. induction counter as [|[[n k0] c] counter IH]; simpl.
    + repeat constructor. simpl. tauto.
    + inversion Hnd as [|? ? Hk Hnd']; subst.
      destruct (hkey_eqb_spec k0 k) as [->|Hne]; simpl.
      * constructor; assumption.
      * constructor; [| apply IH, Hnd'].
        intros Hin. apply counter_add_keys in Hin.
        destruct Hin as [->|Hin]; [congruence | tauto].
  - induction Hf as [|[[n k0] c] counter [H1 [H2 H3]] Hf IH]; simpl.
    + constructor; [simpl; repeat split; auto; lia | constructor].
    + inversion Hnd; subst. simpl in *.
      destruct (hkey_eqb k0 k); constructor.
      * simpl. repeat split; auto; lia.
      * exact Hf.
      * simpl. auto.
      * apply IH. assumption.
Qed.
End Duplicates.

Section DuplicateNames.
Context {rt : Runtime}.

Lemma counter_add_names (name : json) (k : hkey)
      (counter : list (json * hkey * nat)) (e : json * hkey * nat) :
  In e (counter_add name k counter) ->
  fst (fst e) = name
  \/ In (fst (fst e)) (map (fun x => fst (fst x)) counter).
Proof.
  induction counter as [|[[n k0] c] counter IH]; simpl.
  - intros [<-|[]]. auto.
  - destruct (hkey_eqb k0 k); simpl.
    + intros [<-|He]; simpl; [auto |].
      right. right.
      exact (in_map (fun x : json * hkey * nat => fst (fst x)) _ _ He).
    + intros [<-|He]; simpl; [auto |].
      destruct (IH He); auto.
Qed.

Lemma Counter_from_spec (names : list json)
      (counter : list (json * hkey * nat)) :
  Forall (fun name => truthy name = true
                      /\ exists k, py_hash name = Some k) names ->
  counter_ok counter ->
  exists counter',
    Counter_from counter names = OK counter'
    /\ counter_ok counter'
    /\ (forall k, counter_get k counter'
                  = counter_get k counter
                    + length (filter (has_key k) names))
    /\ (forall e, In e counter' ->
                  In (fst (fst e))
                     (map (fun x => fst (fst x)) counter ++ names)).
Proof.
  intros Hn. revert counter.
  induction Hn as [|name names [Ht [k Hk]] _ IH]; intros counter Hok; simpl.
  - exists counter. split; [reflexivity |]. split; [exact Hok |]. split.
    + intros k. lia.
    + intros e He. rewrite app_nil_r.
      exact (in_map (fun x : json * hkey * nat => fst (fst x)) _ _ He).
  - rewrite Hk.
    destruct (IH _ (counter_add_ok _ Hk Ht Hok)) as [c' [E [Hok' [Hg Hin]]]].
    exists c'. split; [exact E |]. split; [exact Hok' |]. split.
    + intros k'. rewrite Hg, counter_add_get. unfold has_key at 2.
      rewrite Hk. destruct (hkey_eqb k k'); simpl; lia.
    + intros e He. apply Hin in He. apply in_app_or in He.
      apply in_or_app. destruct He as [He|He]; [| right; right; exact He].
      apply in_map_iff in He. destruct He as [x [<- Hx]].
      destruct (counter_add_names _ _ _ _ Hx) as [->|Hl]; simpl; auto.
Qed.
End DuplicateNames.

Section DuplicateSites.
Context {rt : Runtime}.

Lemma site_names_spec (sites : list json) :
  Forall countable_site sites ->
  exists names,
    site_names sites = OK names
    /\ Forall (fun name => truthy name = true
                           /\ exists k, py_hash name = Some k) names
    /\ (forall k, length (filter (has_key k) names) = occurrences k sites)
    /\ (forall name, In name names ->
                     exists site, In site sites /\ name_of site = Some name).
Proof.
  induction 1 as [|site sites [fields [-> Hname]] _ IH]; simpl.
  - exists []. repeat split; auto. intros name [].
  - destruct IH as [names [E [Hf [Hc Hin]]]]. rewrite E.
    unfold py_get_or, py_get. cbn [rbind].
    unfold occurrences, named. cbn [filter name_of].
    destruct (dict_get NAME_KEY fields) as [name|] eqn:Hg.
    + destruct (truthy name) eqn:Ht; cbn [andb].
      * eexists. split; [reflexivity |]. split; [| split].
        -- constructor; [| exact Hf]. split; [exact Ht | auto].
        -- intros k. cbn [filter]. destruct (has_key k name); simpl;
             rewrite Hc; reflexivity.
        -- intros v [<-|Hv].
           ++ exists (JObj fields). simpl. auto.
           ++ destruct (Hin v Hv) as [s [Hs Hn]]. exists s. simpl. auto.
      * exists names. repeat split; auto.
        intros v Hv. destruct (Hin v Hv) as [s [Hs Hn]]. exists s.
        simpl. auto.
    + cbn [truthy]. exists names. repeat split; auto.
      intros v Hv. destruct (Hin v Hv) as [s [Hs Hn]]. exists s.
      simpl. auto.
Qed.

Lemma counter_get_positive (k : hkey) (counter : list (json * hkey * nat)) :
  0 < counter_get k counter ->
  exists name, In (name, k, counter_get k counter) counter.
Proof.
  induction counter as [|[[n k'] c] counter IH]; simpl; [lia |].
  destruct (hkey_eqb_spec k' k) as [->|Hne].
  - eauto.
  - intros H. destruct (IH H) as [name Hin]. eauto.
Qed.

Lemma counter_keys_filter (keep : json * hkey * nat -> bool)
      (counter : list (json * hkey * nat)) :
  NoDup (counter_keys counter) -> NoDup (counter_keys (filter keep counter)).
Proof.
  unfold counter_keys.
  induction counter as [|e counter IH]; simpl; intros Hnd; [exact Hnd |].
  inversion Hnd as [|? ? He Hrest]; subst.
  destruct (keep e); simpl; [| apply IH, Hrest].
  constructor; [| apply IH, Hrest].
  intros Hin. apply He. apply in_map_iff in Hin.
  destruct Hin as [e' [Hkey Hin]]. apply filter_In in Hin.
  rewrite <- Hkey.
  exact (in_map (fun x : json * hkey * nat => snd (fst x)) counter e'
                (proj1 Hin)).
Qed.

Lemma NoDup_map_injective {A B} (f : A -> B) (l : list A) :
  (forall a b, f a = f b -> a = b) -> NoDup l -> NoDup (map f l).
Proof.
  intros Hf. induction 1 as [|x l Hx Hl IH]; simpl; constructor; auto.
  intros Hin. apply in_map_iff in Hin. destruct Hin as [y [Hy Hin]].
  apply Hf in Hy. subst y. tauto.
Qed.

(** The names that a counter holds more than once. *)
Lemma duplicates_of_counter (counter : list (json * hkey * nat)) :
  counter_ok counter ->
  let dups := map (fun e => fst (fst e))
                  (filter (fun e => (1 <? snd e)%nat) counter) in
  NoDup (map py_hash dups)
  /\ (forall k, (exists v, In v dups /\ py_hash v = Some k)
                <-> 2 <= counter_get k counter).
Proof.
  intros [Hnd Hf] dups. subst dups. split.
  - rewrite map_map.
    rewrite (map_ext_in _ (fun e => Some (snd (fst e)))).
    + rewrite <- (map_map (fun e => snd (fst e)) Some).
      apply NoDup_map_injective; [intros a b; congruence |].
      apply counter_keys_filter, Hnd.
    + intros e He. apply filter_In in He. destruct He as [He _].
      rewrite Forall_forall in Hf. apply Hf, He.
  - intros k. split.
    + intros [v [Hv Hk]]. apply in_map_iff in Hv.
      destruct Hv as [[[n k0] c] [<- He]]. apply filter_In in He.
      destruct He as [He Hc]. simpl in *.
      rewrite Forall_forall in Hf. destruct (Hf _ He) as [Hh _].
      simpl in Hh. rewrite Hh in Hk. injection Hk as ->.
      rewrite (@counter_get_In n k c counter Hnd He).
      apply Nat.ltb_lt in Hc. lia.
    + intros H. destruct (counter_get_positive k counter) as [name Hin];
        [lia |].
      exists name. split.
      * apply in_map_iff. eexists. split; [| apply filter_In; split;
                                              [exact Hin |]].
        -- reflexivity.
        -- simpl. apply Nat.ltb_lt. lia.
      * rewrite Forall_forall in Hf. destruct (Hf _ Hin) as [Hh _].
        exact Hh.
Qed.
End DuplicateSites.

Section DuplicateClaim.
Context {rt : Runtime}.

Lemma has_key_string (s : string) (v : json) :
  py_hash v = Some (HStr s) <-> v = JStr s.
Proof.
  split; [| intros ->; reflexivity].
  destruct v as [|b|n|t|l|d]; simpl; try discriminate.
  intros [= ->]. reflexivity.
Qed.

(** C6.  Let the data set be an object whose sites -- none, if the field
    is missing -- are objects with scalar names.  [validate_duplicates]
    returns a list without repetition, made of non-empty names of
    sites, in which a value occurs, up to Python's equality, exactly
    when two sites or more have that value as their non-empty name; in
    particular a string is in the list exactly when two sites or more
    have it as their non-empty name.  For sites named A, b, A the list
    is made of A alone. *)
Theorem validate_duplicates_exact
        (w w1 : world) (fields : dict) (sites : list json) :
  data w = (OK (JObj fields), w1) ->
  py_get_or (JObj fields) SITES_KEY (JArr []) = OK (JArr sites) ->
  Forall countable_site sites ->
  (exists dups,
      validate_duplicates w = (OK dups, w1)
      /\ NoDup (map py_hash dups)
      /\ (forall v, In v dups ->
                    truthy v = true
                    /\ exists site, In site sites /\ name_of site = Some v)
      /\ (forall k, (exists v, In v dups /\ py_hash v = Some k)
                    <-> 2 <= occurrences k sites)
      /\ (forall s, In (JStr s) dups <-> 2 <= occurrences (HStr s) sites))
  /\ fst (validate_duplicates (Example.sites_named ["A"; "b"; "A"]))
     = OK [JStr "A"].
Proof.
  intros Hd Hs Hc. split; [| reflexivity].
  destruct (site_names_spec Hc) as [names [En [Hn [Hocc Hfrom]]]].
  assert (Hok : counter_ok []) by (split; constructor).
  destruct (Counter_from_spec Hn Hok) as [counter [Ec [Hok' [Hg Hin]]]].
  destruct (duplicates_of_counter Hok') as [Hnd Hiff].
  cbv zeta in Hnd, Hiff.
  exists (map (fun e => fst (fst e))
              (filter (fun e => (1 <? snd e)%nat) counter)).
  assert (Hkeys : forall k,
             (exists v,
                 In v (map (fun e => fst (fst e))
                           (filter (fun e => (1 <? snd e)%nat) counter))
                 /\ py_hash v = Some k)
             <-> 2 <= occurrences k sites).
  { intros k. rewrite Hiff, Hg, <- Hocc. simpl. reflexivity. }
  split; [| split; [exact Hnd | split; [| split; [exact Hkeys |]]]].
  - unfold validate_duplicates, bind, lift. rewrite Hd, Hs.
    cbn [py_iter]. rewrite En. unfold Counter. rewrite Ec. reflexivity.
  - intros v Hv. apply in_map_iff in Hv. destruct Hv as [e [<- He]].
    apply filter_In in He. destruct He as [He _].
    destruct Hok' as [_ Hf]. rewrite Forall_forall in Hf.
    destruct (Hf _ He) as [_ [Ht _]]. split; [exact Ht |].
    apply Hfrom. apply Hin in He. exact He.
  - intros s. rewrite <- Hkeys. split.
    + intros H. exists (JStr s). auto.
    + intros [v [Hv Hk]]. apply has_key_string in Hk. subst v. exact Hv.
Qed.
End DuplicateClaim.

(** The sites named A, b, A. *)
Lemma validate_duplicates_exact_witness :
  validate_duplicates (rt := Example.runtime)
                      (Example.sites_named ["A"; "b"; "A"])
  = (OK [JStr "A"], Example.sites_named ["A"; "b"; "A"])
  /\ (In (JStr "A") [JStr "A"]
      <-> 2 <= occurrences (HStr "A")
                           (map (fun n => JObj [("name", JStr n)])
                                ["A"; "b"; "A"])).
Proof.
  destruct (@validate_duplicates_exact Example.runtime
              (Example.sites_named ["A"; "b"; "A"])
              (Example.sites_named ["A"; "b"; "A"])
              [("sites", JArr (map (fun n => JObj [("name", JStr n)])
                                   ["A"; "b"; "A"]))]
              (map (fun n => JObj [("name", JStr n)]) ["A"; "b"; "A"]))
    as [[dups [E [_ [_ [_ H]]]]] _].
  - reflexivity.
  - reflexivity.
  - repeat constructor; eexists; (split; [reflexivity |]);
      intros name [= <-] _; eexists; reflexivity.
  - assert (Hd : dups = [JStr "A"]).
    { vm_compute in E. injection E as <-. reflexivity. }
    subst dups. split; [exact E | apply H].
Defined.

(** ** The declaration of the site keys in the schema *)

(** The derivation succeeds exactly on a schema with a mapping as
    declaration, and yields its keys.  On every other schema it raises
    [WMNSchemaError] or [AttributeError]. *)
Lemma declared_order_declaration (s : json) (keys : list string) :
  declared_order s = OK keys
  <-> exists d, declaration s = Some (JObj d) /\ keys = dict_keys d.
Proof.
  unfold declared_order, declaration, py_get_or, py_get. simpl.
  destruct s as [| | | | |d0]; simpl;
    try (split; [discriminate | intros [d [H _]]; discriminate]).
  destruct (dict_get PROPERTIES_KEY d0) as [[| | | | |d1]|]; simpl;
    try (split; [discriminate | intros [d [H _]]; discriminate]).
  destruct (dict_get SITES_KEY d1) as [[| | | | |d2]|]; simpl;
    try (split; [discriminate | intros [d [H _]]; discriminate]).
  destruct (dict_get ITEMS_KEY d2) as [[| | | | |d3]|]; simpl;
    try (split; [discriminate | intros [d [H _]]; discriminate]).
  destruct (dict_get PROPERTIES_KEY d3) as [[| | | | |d4]|]; simpl;
    try (split; [discriminate | intros [d [H _]]; discriminate]).
  split.
  - intros [= <-]. eauto.
  - intros [d [[= <-] ->]]. reflexivity.
Qed.

Lemma declared_order_result (s : json) :
  (exists keys, declared_order s = OK keys)
  \/ declared_order s = Raise WMNSchemaError
  \/ declared_order s = Raise AttributeError.
Proof.
  unfold declared_order, py_get_or, py_get.
  destruct s as [| | | | |d0]; simpl; auto.
  destruct (dict_get PROPERTIES_KEY d0) as [[| | | | |d1]|]; simpl; auto.
  - destruct (dict_get SITES_KEY d1) as [[| | | | |d2]|]; simpl; auto.
    destruct (dict_get ITEMS_KEY d2) as [[| | | | |d3]|]; simpl; auto.
    destruct (dict_get PROPERTIES_KEY d3) as [[| | | | |d4]|]; simpl; eauto.
Qed.

(** Where the error is the one that C7 names: a schema object without
    [properties], and a declaration that is an array. *)
Lemma declared_order_missing (d : dict) :
  dict_get PROPERTIES_KEY d = None ->
  declared_order (JObj d) = Raise WMNSchemaError.
Proof.
  intros H. unfold declared_order, py_get_or, py_get. rewrite H. reflexivity.
Qed.

Lemma declared_order_not_a_mapping :
  declared_order
    (JObj [("properties",
            JObj [("sites",
                   JObj [("items", JObj [("properties", JArr [])])])])])
  = Raise WMNSchemaError.
Proof. reflexivity. Qed.

(** C7 at the failing input.  The schema has an array at
    [properties.sites]: it lacks the declaration at
    [properties.sites.items.properties], and the derivation of the key
    order raises [AttributeError], not [WMNSchemaError]; [format_data]
    raises it too, and [format_file] turns it into a [WMNFormatError]. *)
Theorem malformed_schema_is_attribute_error :
  declaration Example.malformed_schema = None
  /\ declared_order Example.malformed_schema = Raise AttributeError
  /\ fst (_get_site_key_order (rt := Example.runtime) Example.malformed)
     = Raise AttributeError
  /\ fst (format_data (rt := Example.runtime) Example.malformed)
     = Raise AttributeError
  /\ fst (format_file (rt := Example.runtime)
                      (format_data (rt := Example.runtime))
                      EmptyString DEFAULT_DATA Example.malformed)
     = Raise WMNFormatError.
Proof.
  vm_compute. repeat split; reflexivity.
Qed.

(** ** The findings of the validator *)

Section Findings.
Context {rt : Runtime}.

(** C9, as amended.  [_format_validation_error] always returns a
    finding, with the path and the message of the violation.  The
    finding has a snippet exactly when the path of the violation is not
    empty, the data set can be obtained, walking it along the path ends
    on a value that is not null, and that value is serialised; the
    snippet is its serialisation.  An empty path, a failure to read or
    parse the data set, a failed lookup, a null value and a failure to
    serialise all give a finding without snippet. *)
Theorem _format_validation_error_snippet (error : ValidationError)
        (w : world) :
  exists model w',
    _format_validation_error error w = (OK model, w')
    /\ model_path model = error_json_path error
    /\ model_message model = error_message error
    /\ forall text,
         model_data model = Some text
         <-> error_absolute_path error <> []
             /\ exists d v,
                  fst (data w) = OK d
                  /\ walk d (error_absolute_path error) = OK v
                  /\ is_None v = false
                  /\ dumps v = Some text.
Proof.
  unfold _format_validation_error, bind, try_except.
  destruct (error_absolute_path error) as [|seg path] eqn:Hp.
  - unfold ret. eexists. eexists.
    split; [reflexivity |]. split; [reflexivity |].
    split; [reflexivity |]. intros text. cbn [model_data]. split.
    + discriminate.
    + intros [Hne _]. congruence.
  - unfold bind, lift.
    destruct (data w) as [[d|e] w1]; cbn [fst].
    + destruct (walk d (seg :: path)) as [v|e] eqn:Hw.
      * destruct (is_None v) eqn:Hn; cbn [negb];
          [| unfold json_dumps; destruct (dumps v) as [t|] eqn:Ht];
          unfold ret; eexists; eexists;
          (split; [reflexivity |]); (split; [reflexivity |]);
          (split; [reflexivity |]); intros text; cbn [model_data]; split.
        -- discriminate.
        -- intros [_ [d' [v' [Hd [Hv [Hn' _]]]]]]. congruence.
        -- intros [= <-]. split; [discriminate |].
           exists d, v. auto.
        -- intros [_ [d' [v' [Hd [Hv [_ Ht']]]]]]. congruence.
        -- discriminate.
        -- intros [_ [d' [v' [Hd [Hv [_ Ht']]]]]]. congruence.
      * unfold ret. eexists. eexists.
        split; [reflexivity |]. split; [reflexivity |].
        split; [reflexivity |]. intros text. cbn [model_data]. split.
        -- discriminate.
        -- intros [_ [d' [v' [Hd [Hv _]]]]]. congruence.
    + unfold ret. eexists. eexists.
      split; [reflexivity |]. split; [reflexivity |].
      split; [reflexivity |]. intros text. cbn [model_data]. split.
      * discriminate.
      * intros [_ [d' [v' [Hd _]]]]. discriminate.
Qed.
End Findings.

(** A violation at the root: walking the data set along the empty path
    ends on the data set itself, which is not null, and the finding has no
    snippet. *)
Lemma root_violation_has_no_snippet :
  walk Example.dataset (error_absolute_path Example.root_violation)
  = OK Example.dataset
  /\ is_None Example.dataset = false
  /\ fst (_format_validation_error (rt := Example.runtime)
                                   Example.root_violation Example.formatter)
     = OK (mkWMNValidationModel "$" None "'license' is a required property").
Proof.
  repeat split; reflexivity.
Qed.

(** A violation inside the data set: the finding shows the value. *)
Lemma name_violation_snippet :
  fst (_format_validation_error (rt := Example.runtime)
                                Example.name_violation Example.formatter)
  = OK (mkWMNValidationModel "$.sites[0].name"
                             (Some (Sample.quote "Zeta"))
                             "'Zeta' is too long").
Proof. reflexivity. Qed.

(** * Further properties of the code *)

(** ** The storage accessor: caches, failures and round trips *)

Section StorageFacts.
Context {rt : Runtime}.

Lemma schema_raw_cached (w : world) (s : string) :
  _schema_raw (self w) = Some s -> schema_raw w = (OK s, w).
Proof.
  intros H. unfold schema_raw, bind, get_self. rewrite H. reflexivity.
Qed.

Lemma read_text_same_disk (p : path) (w v : world) :
  disk w p = disk v p -> read_text p w = read_text p v.
Proof. unfold read_text. intros ->. reflexivity. Qed.

(** A write that succeeds leaves the text in the file, and every other
    path as it was. *)
Lemma write_text_disk (p : path) (content : string) (w : world) :
  fst (write_text p content w) = None ->
  disk (snd (write_text p content w)) p = Regular content
  /\ forall q, q <> p -> disk (snd (write_text p content w)) q = disk w q.
Proof.
  unfold write_text.
  destruct (disk w p); try discriminate;
    destruct (encode content); try discriminate; intros _; simpl;
    unfold upd; rewrite String.eqb_refl; (split; [reflexivity |]);
    intros q Hq; apply String.eqb_neq in Hq; rewrite Hq; reflexivity.
Qed.

Lemma write_file_content_disk (p : path) (content : string) (w : world) :
  disk (snd (write_file_content p content w))
  = disk (snd (write_text p content w)).
Proof.
  unfold write_file_content.
  destruct (write_text p content w) as [[err|] w']; cbn [snd]; cbv zeta;
    [reflexivity |].
  destruct (p =? data_path (self w')); [reflexivity |].
  destruct (p =? schema_path (self w')); reflexivity.
Qed.

Lemma write_file_content_ok (p : path) (content : string) (w : world) :
  fst (write_file_content p content w) = OK tt <->
  fst (write_text p content w) = None.
Proof.
  unfold write_file_content.
  destruct (write_text p content w) as [[err|] w']; cbn [fst snd]; cbv zeta.
  - split; discriminate.
  - destruct (p =? data_path (self w')); [tauto |].
    destruct (p =? schema_path (self w')); tauto.
Qed.

(** An access to [data] with nothing parsed yet. *)
Lemma data_run (w : world) :
  is_None (_data (self w)) = true ->
  data w
  = match data_raw w with
    | (OK s, w0) =>
        match parse_json_data s with
        | OK v => (OK v, with_data v w0)
        | Raise e => (Raise e, w0)
        end
    | (Raise e, w0) => (Raise e, w0)
    end.
Proof.
  intros Hn. unfold data, bind at 1, get_self. rewrite Hn.
  unfold bind at 1. destruct (data_raw w) as [[s|e] w0]; [| reflexivity].
  unfold bind, lift.
  destruct (parse_json_data s); reflexivity.
Qed.


Lemma parse_json_data_ok (text : string) (v : json) :
  parse_json_data text = OK v <-> loads text = OK v.
Proof.
  unfold parse_json_data.
  destruct (loads text) as [v'|[]]; split; congruence.
Qed.

(** X1.  The parsed data set is read and parsed once.  After an access
    to [data] has returned a document that is not [null], every later
    access returns the same document and leaves the object as it is,
    whatever the disk holds by then. *)
Theorem data_served_from_cache
        (w w1 : world) (d : json) (fs : path -> entry)
        (log : list (path * string)) :
  data w = (OK d, w1) ->
  is_None d = false ->
  data (mkWorld (self w1) fs log) = (OK d, mkWorld (self w1) fs log).
Proof.
  intros Hd Hn. pose proof (data_result _ Hd) as Hc.
  rewrite data_cached; cbn [self]; rewrite Hc; [reflexivity | exact Hn].
Qed.



(** X4.  A write to the data file is seen by the accessors.  After
    [write_file_content] has succeeded on the data path, [data_raw]
    returns the written text without reading the disk, and [data] is
    the outcome of parsing that text, whatever was cached before; the
    cached schema is as it was. *)
Theorem write_then_data (content : string) (w : world) :
  fst (write_file_content (data_path (self w)) content w) = OK tt ->
  let w' := snd (write_file_content (data_path (self w)) content w) in
  data_raw w' = (OK content, w')
  /\ fst (data w') = parse_json_data content
  /\ _schema (self w') = _schema (self w)
  /\ _schema_raw (self w') = _schema_raw (self w).
Proof.
  intros H w'. pose proof (write_file_content_data _ _ H) as Hself.
  fold w' in Hself.
  assert (Hraw : data_raw w' = (OK content, w')).
  { apply data_raw_cached. rewrite Hself. reflexivity. }
  split; [exact Hraw |]. split.
  - rewrite data_run by (rewrite Hself; reflexivity). rewrite Hraw.
    destruct (parse_json_data content); reflexivity.
  - rewrite Hself. split; reflexivity.
Qed.

(** X5.  The setters.  After [self.data_raw = text], [data_raw] returns
    the text and [data] is the outcome of parsing it, the parsed data
    set of before being dropped and the disk not being read.  After
    [self.data_raw = None] the next access reads the data file.  After
    [self.data = value], for a value that is not [None], [data] returns
    the value. *)
Theorem setters_then_getters
        (w : world) (text : string) (value : json) :
  (let w' := snd (data_raw_setter (Some text) w) in
   data_raw w' = (OK text, w')
   /\ fst (data w') = parse_json_data text)
  /\ (let w' := snd (data_raw_setter None w) in
      fst (data_raw w') = fst (read_file_content (data_path (self w)) w)
      /\ fst (data w')
         = rbind (fst (read_file_content (data_path (self w)) w))
                 parse_json_data)
  /\ (is_None value = false ->
      let w' := snd (data_setter value w) in
      data w' = (OK value, w')).
Proof.
  split; [| split].
  - cbv zeta. unfold data_raw_setter, set_self. cbn [snd].
    split; [apply data_raw_cached; reflexivity |].
    rewrite data_run by reflexivity.
    rewrite (@data_raw_cached _ text) by reflexivity.
    destruct (parse_json_data text); reflexivity.
  - cbv zeta. unfold data_raw_setter, set_self. cbn [snd].
    set (w' := mkWorld (assign_data JNull (assign_data_raw None (self w)))
                       (disk w) (written w)).
    assert (Hread : read_file_content (data_path (self w)) w'
                    = (fst (read_file_content (data_path (self w)) w), w')).
    { unfold read_file_content.
      rewrite (@read_text_same_disk (data_path (self w)) w' w) by reflexivity.
      destruct (read_text (data_path (self w)) w) as [[]|s]; reflexivity. }
    assert (Hraw : fst (data_raw w')
                   = fst (read_file_content (data_path (self w)) w)).
    { unfold data_raw, bind at 1, get_self.
      cbn [w' self _data_raw assign_data assign_data_raw data_path].
      unfold bind at 1. fold w'. rewrite Hread.
      destruct (fst (read_file_content (data_path (self w)) w));
        reflexivity. }
    split; [exact Hraw |].
    rewrite data_run by reflexivity. rewrite <- Hraw.
    destruct (data_raw w') as [[s|e] w0]; cbn [fst rbind]; [| reflexivity].
    destruct (parse_json_data s); reflexivity.
  - intros Hv. cbv zeta. unfold data_setter, set_self. cbn [snd].
    rewrite data_cached; cbn [self _data assign_data]; [reflexivity | exact Hv].
Qed.
End StorageFacts.


(** The data set is read once: emptying the disk afterwards changes
    nothing. *)
Lemma data_served_from_cache_witness :
  data (rt := Example.runtime)
       (mkWorld (self (snd (data (rt := Example.runtime)
                                 Example.unformatted_file)))
                Example.empty_disk [])
  = (OK Example.dataset,
     mkWorld (self (snd (data (rt := Example.runtime)
                              Example.unformatted_file)))
             Example.empty_disk []).
Proof.
  apply (@data_served_from_cache Example.runtime Example.unformatted_file
           (snd (data (rt := Example.runtime) Example.unformatted_file))
           Example.dataset Example.empty_disk []).
  - vm_compute. reflexivity.
  - reflexivity.
Defined.



Lemma write_then_data_witness :
  data_raw (snd (write_file_content (rt := Example.runtime) DEFAULT_DATA "{}"
                                    Example.formatter))
  = (OK "{}",
     snd (write_file_content (rt := Example.runtime) DEFAULT_DATA "{}"
                             Example.formatter))
  /\ fst (data (rt := Example.runtime)
               (snd (write_file_content (rt := Example.runtime)
                                        DEFAULT_DATA "{}" Example.formatter)))
     = parse_json_data (rt := Example.runtime) "{}"
  /\ _schema (self (snd (write_file_content (rt := Example.runtime)
                                            DEFAULT_DATA "{}"
                                            Example.formatter)))
     = _schema (self Example.formatter)
  /\ _schema_raw (self (snd (write_file_content (rt := Example.runtime)
                                                DEFAULT_DATA "{}"
                                                Example.formatter)))
     = _schema_raw (self Example.formatter).
Proof.
  apply (@write_then_data Example.runtime "{}" Example.formatter).
  reflexivity.
Defined.

(** ** The three sorts of the canonicaliser *)

Section SortFacts.
Context {rt : Runtime}.

Lemma insert_by_map {A B} (f : A -> B) (key : B -> string) (x : A)
      (l : list A) :
  insert_by key (f x) (map f l)
  = map f (insert_by (fun a => key (f a)) x l).
Proof.
  induction l as [|y l IH]; simpl; [reflexivity |].
  destruct (key (f x) <=? key (f y))%string; simpl; [reflexivity |].
  rewrite IH. reflexivity.
Qed.

Lemma sorted_map {A B} (f : A -> B) (key : B -> string) (l : list A) :
  sorted key (map f l) = map f (sorted (fun a => key (f a)) l).
Proof.
  induction l as [|x l IH]; simpl; [reflexivity |].
  rewrite IH. apply insert_by_map.
Qed.

Lemma map_result_first_failure {A} (key : A -> result string) (e : exn)
      (l : list A) :
  Forall (fun x => (exists s, key x = OK s) \/ key x = Raise e) l ->
  Exists (fun x => key x = Raise e) l ->
  map_result key l = Raise e.
Proof.
  induction 1 as [|x l [[s Hx]|Hx] _ IH]; intros Hex; simpl.
  - inversion Hex.
  - rewrite Hx. cbn [rbind]. inversion Hex as [? ? Hbad|? ? Hrest]; subst.
    + congruence.
    + rewrite (IH Hrest). reflexivity.
  - rewrite Hx. reflexivity.
Qed.

(** X6.  [_sort_array_alphabetically] on a list of strings returns the
    strings sorted by their case-folded forms: a rearrangement of the
    list, in ascending order of the keys, in which strings with the same
    key keep their order.  On a list with an element that is not a
    string it raises [TypeError]. *)
Theorem _sort_array_alphabetically_strings :
  (forall strings : list string,
      _sort_array_alphabetically (map JStr strings)
      = OK (map JStr (sorted casefold strings))
      /\ Permutation (sorted casefold strings) strings
      /\ Sorted (fun a b => (casefold a <=? casefold b)%string = true)
                (sorted casefold strings)
      /\ forall k,
           filter (fun s => casefold s =? k) (sorted casefold strings)
           = filter (fun s => casefold s =? k) strings)
  /\ (forall (array : list json) (item : json),
         In item array -> (forall s, item <> JStr s) ->
         _sort_array_alphabetically array = Raise TypeError).
Proof.
  split.
  - intros strings. split; [| split; [| split]].
    + unfold _sort_array_alphabetically. rewrite sorted_by_key_ok.
      * rewrite sorted_map. reflexivity.
      * apply Forall_forall. intros v Hv. apply in_map_iff in Hv.
        destruct Hv as [s [<- _]]. eexists. reflexivity.
    + apply sorted_perm.
    + apply (sorted_Sorted casefold).
    + intros k. apply (sorted_stable casefold).
  - intros array item Hin Hns.
    unfold _sort_array_alphabetically, sorted_by_key.
    rewrite (@map_result_first_failure _ str_casefold TypeError).
    + reflexivity.
    + apply Forall_forall. intros v _. destruct v; simpl; eauto.
    + apply Exists_exists. exists item. split; [exact Hin |].
      destruct item; try reflexivity. exfalso. eapply Hns. reflexivity.
Qed.

(** Looking a key up in a dict does not depend on the order of its
    items. *)
Lemma dict_get_Permutation (k : string) (d d' : dict) :
  Permutation d d' -> NoDup (dict_keys d) ->
  dict_get k d = dict_get k d'.
Proof.
  induction 1 as [|[k1 v1] l l' Hp IH|[k1 v1] [k2 v2] l|l l' l'' H1 IH1 H2 IH2];
    intros Hnd.
  - reflexivity.
  - simpl. destruct (k =? k1); [reflexivity |].
    apply IH. inversion Hnd; assumption.
  - simpl. destruct (k =? k1) eqn:E1, (k =? k2) eqn:E2; try reflexivity.
    apply String.eqb_eq in E1, E2. subst.
    inversion Hnd as [|? ? Hin _]; subst. exfalso. apply Hin. left.
    reflexivity.
  - rewrite IH1 by exact Hnd. apply IH2.
    unfold dict_keys in *.
    eapply Permutation_NoDup; [| exact Hnd].
    apply Permutation_map. exact H1.
Qed.

(** The headers of a site that is a dict with a dict of headers. *)
Lemma _sort_site_headers_dict (fields headers : dict) :
  dict_get HEADERS_KEY fields = Some (JObj headers) ->
  NoDup (dict_keys headers) ->
  let sorted_headers := sorted (fun item => casefold (fst item)) headers in
  _sort_site_headers (JObj fields)
  = OK (JObj (dict_set HEADERS_KEY (JObj sorted_headers) fields))
  /\ Permutation sorted_headers headers
  /\ (forall k, dict_get k sorted_headers = dict_get k headers).
Proof.
  intros Hh Hnd sorted_headers.
  assert (Hs : sorted (key_of header_sort_key) headers = sorted_headers).
  { apply sorted_ext. apply Forall_forall. intros item _.
    apply header_key_eq. }
  assert (Hp : Permutation sorted_headers headers) by apply sorted_perm.
  assert (Hnd' : NoDup (dict_keys sorted_headers)).
  { unfold dict_keys. eapply Permutation_NoDup; [| exact Hnd].
    apply Permutation_map, Permutation_sym, Hp. }
  split; [| split; [exact Hp |]].
  - unfold _sort_site_headers. rewrite Hh.
    destruct headers as [|item rest].
    + simpl. rewrite dict_set_same by exact Hh. reflexivity.
    + cbn [truthy]. rewrite sort_headers_ok. cbn [rbind].
      rewrite Hs. rewrite dict_of_items_distinct by exact Hnd'.
      reflexivity.
  - intros k. apply dict_get_Permutation; assumption.
Qed.

Lemma _sort_site_headers_other (fields : dict) :
  (forall headers, dict_get HEADERS_KEY fields <> Some (JObj headers)) ->
  _sort_site_headers (JObj fields) = OK (JObj fields).
Proof.
  intros Hno. unfold _sort_site_headers.
  destruct (dict_get HEADERS_KEY fields) as [[| | | | |headers]|] eqn:E;
    try reflexivity.
  exfalso. eapply Hno. reflexivity.
Qed.

(** X7.  [_sort_site_headers] changes the order of the headers and
    nothing else.  For a site whose [headers] is a dict the result is
    the site with the headers sorted by their case-folded names, names
    with the same folded form keeping their order: the same items, so
    that every header has the value it had, and the keys and the other
    fields of the site are as they were.  A site whose [headers] is
    missing or is not a dict is returned as it is. *)
Theorem _sort_site_headers_content (fields : dict) :
  (forall headers,
      dict_get HEADERS_KEY fields = Some (JObj headers) ->
      NoDup (dict_keys headers) ->
      let sorted_headers := sorted (fun item => casefold (fst item)) headers in
      _sort_site_headers (JObj fields)
      = OK (JObj (dict_set HEADERS_KEY (JObj sorted_headers) fields))
      /\ Permutation sorted_headers headers
      /\ Sorted (fun a b => (casefold (fst a) <=? casefold (fst b))%string
                            = true) sorted_headers
      /\ (forall k,
            filter (fun item => casefold (fst item) =? k) sorted_headers
            = filter (fun item => casefold (fst item) =? k) headers)
      /\ (forall k, dict_get k sorted_headers = dict_get k headers)
      /\ dict_keys (dict_set HEADERS_KEY (JObj sorted_headers) fields)
         = dict_keys fields
      /\ (forall k, k <> HEADERS_KEY ->
                    dict_get k (dict_set HEADERS_KEY (JObj sorted_headers)
                                         fields)
                    = dict_get k fields))
  /\ ((forall headers, dict_get HEADERS_KEY fields <> Some (JObj headers)) ->
      _sort_site_headers (JObj fields) = OK (JObj fields)).
Proof.
  split; [| apply _sort_site_headers_other].
  intros headers Hh Hnd sorted_headers.
  destruct (_sort_site_headers_dict _ Hh Hnd) as [Hr [Hp Hg]].
  fold sorted_headers in Hr, Hp, Hg.
  split; [exact Hr |]. split; [exact Hp |]. split; [| split; [| split; [exact Hg | split]]].
  - apply (sorted_Sorted (fun item : string * json => casefold (fst item))).
  - intros k.
    apply (sorted_stable (fun item : string * json => casefold (fst item))).
  - apply dict_keys_set_present. apply key_in_In.
    change (dict_mem HEADERS_KEY fields = true).
    apply dict_mem_get. eexists. exact Hh.
  - intros k Hk. apply dict_get_set_other. exact Hk.
Qed.

(** X8.  [_reorder_site_keys] changes the order of the fields and
    nothing else: when it returns, the result is a dict in which every
    key has the value that it has in the site, and a key is missing
    exactly when the site lacks it. *)
Theorem _reorder_site_keys_content
        (fields : dict) (key_order : list string) (site' : json) :
  _reorder_site_keys (JObj fields) key_order = OK site' ->
  exists fields',
    site' = JObj fields'
    /\ forall k, dict_get k fields' = dict_get k fields.
Proof.
  intros H. apply _reorder_site_keys_inv in H. destruct H as [-> Hk].
  eexists. split; [reflexivity |]. intros k. rewrite reordered_get.
  destruct (key_in k key_order) eqn:E; [reflexivity |].
  symmetry. apply dict_get_None. intros Hin. apply Hk in Hin.
  apply key_in_In in Hin. congruence.
Qed.
End SortFacts.


(** A site with its two fields in the other order. *)
Lemma _reorder_site_keys_content_witness :
  exists fields',
    JObj [("name", JStr "A"); ("headers", JObj [])] = JObj fields'
    /\ forall k,
         dict_get k fields'
         = dict_get k [("headers", JObj []); ("name", JStr "A")].
Proof.
  apply (@_reorder_site_keys_content
           [("headers", JObj []); ("name", JStr "A")] ["name"; "headers"]).
  reflexivity.
Defined.

(** ** What the canonicaliser keeps, and what it rejects *)

Section Content.
Context {rt : Runtime}.

(** A list of non-blank strings, as [_format_string_array] requires. *)
Lemma non_blank_strings (items : list json) :
  forallb non_blank_str items = true <->
  exists strings,
    items = map JStr strings
    /\ Forall (fun s => strip s <> EmptyString) strings.
Proof.
  induction items as [|item items IH]; simpl.
  - split; [intros _; exists []; split; [reflexivity | constructor] | reflexivity].
  - rewrite andb_true_iff, IH. split.
    + intros [Hi [strings [-> Hs]]].
      destruct item as [| | |s| |]; try discriminate. simpl in Hi.
      exists (s :: strings). split; [reflexivity |]. constructor; [| exact Hs].
      intros E. rewrite E in Hi. discriminate.
    + intros [[|s strings] [E Hs]]; [discriminate |].
      injection E as -> ->. inversion Hs as [|? ? Hne Hrest]; subst.
      split; [| exists strings; auto]. simpl.
      destruct (strip s =? EmptyString) eqn:E; [| reflexivity].
      apply String.eqb_eq in E. contradiction.
Qed.

Lemma sorted_strings (strings : list string) :
  sorted (key_of str_casefold) (map JStr strings)
  = map JStr (sorted casefold strings).
Proof. apply (sorted_map JStr (key_of str_casefold)). Qed.

(** The fields of a data set after [_format_string_array]. *)
Lemma string_array_sorted_strings (key : string) (fields fields' : dict) :
  string_array_sorted key fields = OK fields' ->
  exists strings,
    dict_get key fields = Some (JArr (map JStr strings))
    /\ strings <> []
    /\ Forall (fun s => strip s <> EmptyString) strings
    /\ fields'
       = dict_set key (JArr (map JStr (sorted casefold strings))) fields.
Proof.
  intros H. apply string_array_sorted_inv in H.
  destruct H as [items [Hg [Hne [Hnb ->]]]].
  apply non_blank_strings in Hnb. destruct Hnb as [strings [-> Hs]].
  exists strings. rewrite sorted_strings.
  repeat split; try assumption. intros ->. apply Hne. reflexivity.
Qed.

Lemma dict_keys_set_get (k : string) (v v' : json) (d : dict) :
  dict_get k d = Some v' -> dict_keys (dict_set k v d) = dict_keys d.
Proof.
  intros H. apply dict_keys_set_present. apply key_in_In.
  change (dict_mem k d = true). apply dict_mem_get. eexists. exact H.
Qed.

(** X9.  [format_data] keeps the top level of the data set.  In the
    text that it returns the top-level keys are those of the input, in
    the same order; every field other than [authors], [categories] and
    [sites] has the value it had; and [authors] and [categories] are
    the input strings sorted by their case-folded forms. *)
Theorem format_data_keeps_top_level (w w' : world) (s : string) :
  format_data w = (OK s, w') ->
  exists fields w1 fields' authors categories,
    data w = (OK (JObj fields), w1)
    /\ dumps (JObj fields') = Some s
    /\ dict_keys fields' = dict_keys fields
    /\ (forall k, k <> AUTHORS_KEY -> k <> CATEGORIES_KEY -> k <> SITES_KEY ->
                  dict_get k fields' = dict_get k fields)
    /\ dict_get AUTHORS_KEY fields = Some (JArr (map JStr authors))
    /\ dict_get AUTHORS_KEY fields'
       = Some (JArr (map JStr (sorted casefold authors)))
    /\ dict_get CATEGORIES_KEY fields = Some (JArr (map JStr categories))
    /\ dict_get CATEGORIES_KEY fields'
       = Some (JArr (map JStr (sorted casefold categories))).
Proof.
  intros H. apply format_data_inv in H.
  destruct H as [fields [w1 [ko [f3 [Hd [_ [Hf [Ht _]]]]]]]].
  apply formatted_inv in Hf.
  destruct Hf as [f1 [f2 [l [ss [order [sites
                   [Ha [Hc [Hg [_ [_ [_ ->]]]]]]]]]]]].
  apply string_array_sorted_strings in Ha, Hc.
  destruct Ha as [authors [Hga [_ [_ ->]]]].
  destruct Hc as [categories [Hgc [_ [_ ->]]]].
  rewrite dict_get_set_other in Hgc by discriminate.
  rewrite !dict_get_set_other in Hg by discriminate.
  exists fields, w1. eexists. exists authors, categories.
  split; [exact Hd |]. split; [exact Ht |].
  split; [| split; [| split; [exact Hga | split; [| split; [exact Hgc |]]]]].
  - erewrite dict_keys_set_get.
    2: { rewrite !dict_get_set_other by discriminate. exact Hg. }
    erewrite dict_keys_set_get.
    2: { rewrite dict_get_set_other by discriminate. exact Hgc. }
    erewrite dict_keys_set_get by exact Hga. reflexivity.
  - intros k Hka Hkc Hks. rewrite !dict_get_set_other by assumption.
    reflexivity.
  - rewrite !dict_get_set_other by discriminate. apply dict_get_set_same.
  - rewrite dict_get_set_other by discriminate. apply dict_get_set_same.
Qed.

(** What [_format_site] keeps of a site. *)
Lemma _format_site_content (fields : dict) (key_order : list string)
      (site' : json) :
  _format_site (JObj fields) key_order = OK site' ->
  exists fields',
    site' = JObj fields'
    /\ (forall k, k <> HEADERS_KEY -> dict_get k fields' = dict_get k fields)
    /\ (forall headers,
           dict_get HEADERS_KEY fields = Some (JObj headers) ->
           NoDup (dict_keys headers) ->
           exists headers',
             dict_get HEADERS_KEY fields' = Some (JObj headers')
             /\ Permutation headers' headers
             /\ forall h, dict_get h headers' = dict_get h headers)
    /\ ((forall headers,
            dict_get HEADERS_KEY fields <> Some (JObj headers)) ->
        dict_get HEADERS_KEY fields' = dict_get HEADERS_KEY fields).
Proof.
  intros H. unfold _format_site in H.
  destruct (_sort_site_headers (JObj fields)) as [sorted_site|e] eqn:Es;
    [| discriminate].
  cbn [rbind] in H.
  assert (Hobj : exists f1, sorted_site = JObj f1).
  { destruct (_sort_site_headers_object fields) as [f1 [E1 _]].
    rewrite E1 in Es. injection Es as <-. eexists. reflexivity. }
  destruct Hobj as [f1 ->].
  apply _reorder_site_keys_inv in H. destruct H as [-> Hk].
  assert (Hget : forall k, dict_get k (reordered f1 key_order)
                           = dict_get k f1).
  { intros k. rewrite reordered_get.
    destruct (key_in k key_order) eqn:E; [reflexivity |].
    symmetry. apply dict_get_None. intros Hin. apply Hk in Hin.
    apply key_in_In in Hin. congruence. }
  eexists. split; [reflexivity |]. split; [| split].
  - intros k Hne. rewrite Hget.
    destruct (_sort_site_headers_object fields) as [f1' [E1 [_ [_ Hother]]]].
    rewrite E1 in Es. injection Es as <-. apply Hother, Hne.
  - intros headers Hh Hnd.
    destruct (_sort_site_headers_dict _ Hh Hnd) as [Hr [Hp Hg]].
    rewrite Hr in Es. injection Es as <-.
    eexists. split; [| split; [exact Hp | exact Hg]].
    rewrite Hget. apply dict_get_set_same.
  - intros Hno. rewrite Hget.
    rewrite (_sort_site_headers_other _ Hno) in Es. injection Es as <-.
    reflexivity.
Qed.

(** X10.  [format_data] keeps every site and its content.  The sites of
    the returned text are the input sites in the order of their names,
    one for one; each has the fields of its input site with the values
    they had, the headers apart, and its headers, when they are a dict,
    are the same items in another order. *)
Theorem format_data_keeps_sites (w w' : world) (s : string) :
  format_data w = (OK s, w') ->
  exists fields w1 fields' input output,
    data w = (OK (JObj fields), w1)
    /\ dict_get SITES_KEY fields = Some (JArr input)
    /\ dumps (JObj fields') = Some s
    /\ dict_get SITES_KEY fields' = Some (JArr output)
    /\ Permutation (sorted name_key input) input
    /\ Forall2
         (fun site site' =>
            exists f f',
              site = JObj f /\ site' = JObj f'
              /\ (forall k, k <> HEADERS_KEY ->
                            dict_get k f' = dict_get k f)
              /\ (forall headers,
                     dict_get HEADERS_KEY f = Some (JObj headers) ->
                     NoDup (dict_keys headers) ->
                     exists headers',
                       dict_get HEADERS_KEY f' = Some (JObj headers')
                       /\ Permutation headers' headers
                       /\ forall h, dict_get h headers' = dict_get h headers)
              /\ ((forall headers,
                      dict_get HEADERS_KEY f <> Some (JObj headers)) ->
                  dict_get HEADERS_KEY f' = dict_get HEADERS_KEY f))
         (sorted name_key input) output.
Proof.
  intros H. apply format_data_sites in H.
  destruct H as [fields [w1 [ko [f3 [input [output
                  [Hd [Hi [_ [Ht [Ho [Hobj H2]]]]]]]]]]]].
  exists fields, w1, f3, input, output.
  repeat (split; [assumption |]).
  split; [apply sorted_perm |].
  assert (Hin : Forall (fun site => exists f, site = JObj f)
                       (sorted name_key input)).
  { eapply Permutation_Forall; [| exact Hobj].
    apply Permutation_sym, sorted_perm. }
  clear Ho Hd Hi Hobj Ht.
  induction H2 as [|site site' rest rest' [Hxy _] _ IH]; constructor.
  - inversion Hin as [|? ? [f ->] _]; subst.
    destruct (_format_site_content _ _ Hxy) as [f' [-> Hc]].
    exists f, f'. split; [reflexivity |]. split; [reflexivity |]. exact Hc.
  - apply IH. inversion Hin; assumption.
Qed.

(** X11.  What [_format_string_array] accepts.  On a data set that is
    an object, a non-empty array of strings that are not blank is
    replaced by the strings sorted by their case-folded forms, the rest
    of the data set being kept; every other value under the key, a
    missing one too, raises [WMNFormatError] and leaves the data set as
    it is. *)
Theorem _format_string_array_accepts
        (key : string) (w w1 : world) (fields : dict) :
  data w = (OK (JObj fields), w1) ->
  (forall strings,
      dict_get key fields = Some (JArr (map JStr strings)) ->
      strings <> [] ->
      Forall (fun s => strip s <> EmptyString) strings ->
      _format_string_array key w
      = (OK tt,
         with_data
           (JObj (dict_set key (JArr (map JStr (sorted casefold strings)))
                           fields)) w1))
  /\ ((forall strings,
          dict_get key fields = Some (JArr (map JStr strings)) ->
          strings = [] \/ Exists (fun s => strip s = EmptyString) strings) ->
      _format_string_array key w = (Raise WMNFormatError, w1)).
Proof.
  intros Hd. rewrite (@_format_string_array_warm _ key w w1 fields Hd).
  rewrite (@_format_string_array_cached _ key w1 fields (data_result _ Hd)).
  split.
  - intros strings Hg Hne Hs.
    erewrite string_array_sorted_ok; [| exact Hg | |].
    + rewrite sorted_strings. reflexivity.
    + intros E. apply Hne. destruct strings; [reflexivity | discriminate].
    + apply non_blank_strings. exists strings. auto.
  - intros Hbad.
    destruct (string_array_sorted_cases key fields) as [[fields' E]|E];
      rewrite E; [| reflexivity].
    exfalso. apply string_array_sorted_strings in E.
    destruct E as [strings [Hg [Hne [Hs _]]]].
    destruct (Hbad _ Hg) as [->|Hex]; [apply Hne; reflexivity |].
    apply Exists_exists in Hex. destruct Hex as [x [Hin Hx]].
    rewrite Forall_forall in Hs. exact (Hs _ Hin Hx).
Qed.

(** X12.  What [_format_sites] rejects before it looks at the schema.
    On a data set that is an object, [sites] missing or not an array
    raises [WMNFormatError]; an array with an element that is not an
    object raises the [AttributeError] of its missing method [get].  In
    both cases the data set is as it was and the schema has not been
    read. *)
Theorem _format_sites_rejects (w w1 : world) (fields : dict) :
  data w = (OK (JObj fields), w1) ->
  ((forall sites, dict_get SITES_KEY fields <> Some (JArr sites)) ->
   _format_sites w = (Raise WMNFormatError, w1))
  /\ (forall sites site,
         dict_get SITES_KEY fields = Some (JArr sites) ->
         In site sites -> (forall f, site <> JObj f) ->
         _format_sites w = (Raise AttributeError, w1)).
Proof.
  intros Hd.
  assert (Hrun : _format_sites w = _format_sites w1).
  { unfold _format_sites. eapply bind_data_warm. exact Hd. }
  rewrite Hrun.
  rewrite (@_format_sites_cached _ w1 fields (data_result _ Hd)).
  split.
  - intros Hno. unfold sites_sorted.
    destruct (dict_get SITES_KEY fields) as [[| | | |l|]|] eqn:E;
      try reflexivity.
    exfalso. eapply Hno. reflexivity.
  - intros sites site Hg Hin Hno. unfold sites_sorted. rewrite Hg.
    unfold _sort_sites_by_name, sorted_by_key.
    rewrite (@map_result_first_failure _ site_sort_key AttributeError).
    + reflexivity.
    + apply Forall_forall. intros v _. destruct v; simpl; eauto.
      left. destruct (dict_get NAME_KEY fields0); eexists; reflexivity.
    + apply Exists_exists. exists site. split; [exact Hin |].
      destruct site; try reflexivity. exfalso. eapply Hno. reflexivity.
Qed.

(** X13.  A data set that is not an object.  When the data file holds
    a JSON value that is not an object, the first step of [format_data]
    raises the [AttributeError] of the missing method [get];
    [format_file] reports it as a [WMNFormatError] and writes
    nothing. *)
Theorem format_data_not_an_object
        (w w1 : world) (d : json) (raw_data : string) (file_path : path) :
  data w = (OK d, w1) ->
  (forall fields, d <> JObj fields) ->
  format_data w = (Raise AttributeError, w1)
  /\ format_file format_data raw_data file_path w
     = (Raise WMNFormatError, w1)
  /\ written w1 = written w
  /\ disk w1 = disk w.
Proof.
  intros Hd Hno.
  assert (Hf : format_data w = (Raise AttributeError, w1)).
  { unfold format_data, bind at 1. unfold _format_string_array, bind at 1.
    rewrite Hd. unfold bind at 1, lift.
    destruct d; try reflexivity. exfalso. eapply Hno. reflexivity. }
  split; [exact Hf |]. split.
  - rewrite format_file_run, Hf. reflexivity.
  - pose proof (data_frame w) as Hfr. cbv zeta in Hfr. rewrite Hd in Hfr.
    cbn [snd] in Hfr. intuition.
Qed.
End Content.


(** The data set of the examples, formatted. *)
Lemma format_data_keeps_top_level_witness :
  exists fields w1 fields' authors categories,
    data (rt := Example.runtime) Example.formatter = (OK (JObj fields), w1)
    /\ dumps (Runtime := Example.runtime) (JObj fields')
       = Some Example.canonical_text
    /\ dict_keys fields' = dict_keys fields
    /\ (forall k, k <> AUTHORS_KEY -> k <> CATEGORIES_KEY -> k <> SITES_KEY ->
                  dict_get k fields' = dict_get k fields)
    /\ dict_get AUTHORS_KEY fields = Some (JArr (map JStr authors))
    /\ dict_get AUTHORS_KEY fields'
       = Some (JArr (map JStr (sorted (casefold (Runtime := Example.runtime))
                                      authors)))
    /\ dict_get CATEGORIES_KEY fields = Some (JArr (map JStr categories))
    /\ dict_get CATEGORIES_KEY fields'
       = Some (JArr (map JStr (sorted (casefold (Runtime := Example.runtime))
                                      categories))).
Proof.
  apply (@format_data_keeps_top_level Example.runtime Example.formatter
           (snd (format_data (rt := Example.runtime) Example.formatter))
           Example.canonical_text).
  vm_compute. reflexivity.
Defined.

Lemma format_data_keeps_sites_witness :
  exists fields w1 fields' input output,
    data (rt := Example.runtime) Example.formatter = (OK (JObj fields), w1)
    /\ dict_get SITES_KEY fields = Some (JArr input)
    /\ dumps (Runtime := Example.runtime) (JObj fields')
       = Some Example.canonical_text
    /\ dict_get SITES_KEY fields' = Some (JArr output)
    /\ Permutation (sorted (name_key (rt := Example.runtime)) input) input
    /\ Forall2
         (fun site site' =>
            exists f f',
              site = JObj f /\ site' = JObj f'
              /\ (forall k, k <> HEADERS_KEY ->
                            dict_get k f' = dict_get k f)
              /\ (forall headers,
                     dict_get HEADERS_KEY f = Some (JObj headers) ->
                     NoDup (dict_keys headers) ->
                     exists headers',
                       dict_get HEADERS_KEY f' = Some (JObj headers')
                       /\ Permutation headers' headers
                       /\ forall h, dict_get h headers' = dict_get h headers)
              /\ ((forall headers,
                      dict_get HEADERS_KEY f <> Some (JObj headers)) ->
                  dict_get HEADERS_KEY f' = dict_get HEADERS_KEY f))
         (sorted (name_key (rt := Example.runtime)) input) output.
Proof.
  apply (@format_data_keeps_sites Example.runtime Example.formatter
           (snd (format_data (rt := Example.runtime) Example.formatter))
           Example.canonical_text).
  vm_compute. reflexivity.
Defined.

(** The authors of the examples are accepted; an empty array is not. *)
Lemma _format_string_array_accepts_witness :
  _format_string_array (rt := Example.runtime) AUTHORS_KEY Example.formatter
  = (OK tt,
     with_data
       (JObj (dict_set AUTHORS_KEY (JArr [JStr "a"; JStr "b"])
                       [("authors", JArr [JStr "b"; JStr "a"]);
                        ("categories", JArr [JStr "y"; JStr "x"]);
                        ("sites",
                         JArr [JObj [("name", JStr "Zeta");
                                     ("headers",
                                      JObj [("b", JStr "2");
                                            ("a", JStr "1")])];
                               JObj [("name", JStr "Alpha");
                                     ("headers", JObj [])]])]))
       Example.formatter).
Proof.
  destruct (@_format_string_array_accepts Example.runtime AUTHORS_KEY
              Example.formatter Example.formatter
              [("authors", JArr [JStr "b"; JStr "a"]);
               ("categories", JArr [JStr "y"; JStr "x"]);
               ("sites",
                JArr [JObj [("name", JStr "Zeta");
                            ("headers",
                             JObj [("b", JStr "2"); ("a", JStr "1")])];
                      JObj [("name", JStr "Alpha");
                            ("headers", JObj [])]])])
    as [H _].
  - reflexivity.
  - apply (H ["b"; "a"]).
    + reflexivity.
    + discriminate.
    + repeat constructor; discriminate.
Defined.

(** A data set whose sites are a string. *)
Lemma _format_sites_rejects_witness :
  _format_sites (rt := Example.runtime)
                (Example.loaded (JObj [("sites", JStr "none")])
                                Example.schema)
  = (Raise WMNFormatError,
     Example.loaded (JObj [("sites", JStr "none")]) Example.schema).
Proof.
  destruct (@_format_sites_rejects Example.runtime
              (Example.loaded (JObj [("sites", JStr "none")]) Example.schema)
              (Example.loaded (JObj [("sites", JStr "none")]) Example.schema)
              [("sites", JStr "none")])
    as [H _].
  - reflexivity.
  - apply H. intros sites E. discriminate E.
Defined.

(** A data file that holds an array. *)
Lemma format_data_not_an_object_witness :
  format_data (rt := Example.runtime) Scenario.array_data
  = (Raise AttributeError, Scenario.array_data)
  /\ format_file (rt := Example.runtime) (format_data (rt := Example.runtime))
                 "[]" DEFAULT_DATA Scenario.array_data
     = (Raise WMNFormatError, Scenario.array_data)
  /\ written Scenario.array_data = written Scenario.array_data
  /\ disk Scenario.array_data = disk Scenario.array_data.
Proof.
  apply (@format_data_not_an_object Example.runtime Scenario.array_data
           Scenario.array_data (JArr []) "[]" DEFAULT_DATA).
  - reflexivity.
  - intros fields E. discriminate E.
Defined.

(** ** The key order of the schema, and the errors of [format_file] *)

Section KeyOrderDomain.
Context {rt : Runtime}.

(** X14.  [_get_site_key_order] returns a list of keys exactly when the
    schema is read and holds an object at
    [properties.sites.items.properties]; the list is made of the keys
    of that object, in the order in which the schema declares them. *)
Theorem _get_site_key_order_declared (w : world) (keys : list string) :
  fst (_get_site_key_order w) = OK keys
  <-> exists s d,
        fst (schema w) = OK s
        /\ declaration s = Some (JObj d)
        /\ keys = dict_keys d.
Proof.
  rewrite _get_site_key_order_eq. unfold bind, lift.
  destruct (schema w) as [[s|e] w1]; cbn [fst].
  - rewrite declared_order_declaration. split.
    + intros [d [Hd ->]]. exists s, d. auto.
    + intros [s' [d [[= <-] [Hd ->]]]]. exists d. auto.
  - split; [discriminate |]. intros [s [d [H _]]]. discriminate.
Qed.

(** X15.  Where the missing declaration is a [WMNSchemaError].  Let the
    schema be an object in which [properties], [properties.sites] and
    [properties.sites.items] are objects wherever they are present.
    When [properties.sites.items.properties] is missing, or is not an
    object, [_get_site_key_order] raises [WMNSchemaError]. *)
Theorem _get_site_key_order_schema_error (w : world) (s : json) :
  fst (schema w) = OK s ->
  (exists d, s = JObj d) ->
  (forall keys v,
      In keys [[PROPERTIES_KEY];
               [PROPERTIES_KEY; SITES_KEY];
               [PROPERTIES_KEY; SITES_KEY; ITEMS_KEY]] ->
      at_path s keys = Some v -> exists d, v = JObj d) ->
  (forall d, declaration s <> Some (JObj d)) ->
  fst (_get_site_key_order w) = Raise WMNSchemaError.
Proof.
  intros Hs [d0 ->] Hlevels Hno.
  rewrite _get_site_key_order_eq. unfold bind, lift.
  destruct (schema w) as [[s|e] w1]; cbn [fst] in *; [| discriminate].
  injection Hs as ->.
  assert (H1 := Hlevels [PROPERTIES_KEY]).
  assert (H2 := Hlevels [PROPERTIES_KEY; SITES_KEY]).
  assert (H3 := Hlevels [PROPERTIES_KEY; SITES_KEY; ITEMS_KEY]).
  clear Hlevels. revert H1 H2 H3 Hno.
  unfold declared_order, declaration, py_get_or, py_get. cbn [at_path rbind].
  destruct (dict_get PROPERTIES_KEY d0) as [p|]; [| reflexivity].
  intros H1. destruct (H1 p) as [d1 ->]; [simpl; auto | reflexivity |].
  clear H1. cbn [rbind].
  destruct (dict_get SITES_KEY d1) as [q|]; [| reflexivity].
  intros H2. destruct (H2 q) as [d2 ->]; [simpl; auto | reflexivity |].
  clear H2. cbn [rbind].
  destruct (dict_get ITEMS_KEY d2) as [i|]; [| reflexivity].
  intros H3. destruct (H3 i) as [d3 ->]; [simpl; auto | reflexivity |].
  clear H3. cbn [rbind].
  destruct (dict_get PROPERTIES_KEY d3) as [[| | | | |d4]|]; try reflexivity.
  intros Hno. exfalso. eapply Hno. reflexivity.
Qed.

End KeyOrderDomain.


(** A schema that declares nothing. *)
Lemma _get_site_key_order_schema_error_witness :
  fst (_get_site_key_order (rt := Example.runtime) Scenario.empty_schema)
  = Raise WMNSchemaError.
Proof.
  apply (@_get_site_key_order_schema_error Example.runtime
           Scenario.empty_schema (JObj [])).
  - reflexivity.
  - exists []. reflexivity.
  - intros keys v [<-|[<-|[<-|[]]]] E; discriminate E.
  - intros d E. discriminate E.
Defined.


(** ** Runs of the accessors on a new object *)

Section FreshRuns.
Context {rt : Runtime}.

Lemma read_file_content_ok (p : path) (w : world) (s : string) :
  read_file_content p w = (OK s, w) <-> read_text p w = inr s.
Proof.
  unfold read_file_content.
  destruct (read_text p w) as [[]|s']; split; intros H;
    try discriminate; congruence.
Qed.

Lemma read_file_content_inv (p : path) (w w' : world) (s : string) :
  read_file_content p w = (OK s, w') -> read_text p w = inr s /\ w' = w.
Proof.
  intros H. pose proof (read_file_content_world p w) as Hw.
  rewrite H in Hw. cbn [snd] in Hw. subst w'.
  split; [apply read_file_content_ok, H | reflexivity].
Qed.

(** An access to [data_raw] with nothing read yet. *)
Lemma data_raw_run (w : world) :
  _data_raw (self w) = None ->
  data_raw w
  = match fst (read_file_content (data_path (self w)) w) with
    | OK s =>
        (OK s, mkWorld (assign_data_raw (Some s) (self w)) (disk w) (written w))
    | Raise e => (Raise e, w)
    end.
Proof.
  intros H. unfold data_raw, bind at 1, get_self. rewrite H.
  unfold bind at 1.
  pose proof (read_file_content_world (data_path (self w)) w) as Hw.
  destruct (read_file_content (data_path (self w)) w) as [[s|e] w'];
    cbn [fst snd] in *; subst w'; reflexivity.
Qed.

Lemma schema_raw_run (w : world) :
  _schema_raw (self w) = None ->
  schema_raw w
  = match fst (read_file_content (schema_path (self w)) w) with
    | OK s =>
        (OK s,
         mkWorld (assign_schema_raw (Some s) (self w)) (disk w) (written w))
    | Raise e => (Raise e, w)
    end.
Proof.
  intros H. unfold schema_raw, bind at 1, get_self. rewrite H.
  unfold bind at 1.
  pose proof (read_file_content_world (schema_path (self w)) w) as Hw.
  destruct (read_file_content (schema_path (self w)) w) as [[s|e] w'];
    cbn [fst snd] in *; subst w'; reflexivity.
Qed.

(** An access to [schema] with nothing parsed yet. *)
Lemma schema_run (w : world) :
  is_None (_schema (self w)) = true ->
  schema w
  = match schema_raw w with
    | (OK s, w0) =>
        match parse_json_data s with
        | OK v =>
            (OK v, mkWorld (assign_schema v (self w0)) (disk w0) (written w0))
        | Raise e => (Raise e, w0)
        end
    | (Raise e, w0) => (Raise e, w0)
    end.
Proof.
  intros Hn. unfold schema, bind at 1, get_self. rewrite Hn.
  unfold bind at 1. destruct (schema_raw w) as [[s|e] w0]; [| reflexivity].
  unfold bind, lift.
  destruct (parse_json_data s); reflexivity.
Qed.





(** [format_schema] on an object that holds the parsed schema. *)
Lemma format_schema_cached (w : world) (text : string) :
  is_None (_schema (self w)) = false ->
  dumps (_schema (self w)) = Some text ->
  format_schema w = (OK text, w).
Proof.
  intros Hn Ht. unfold format_schema, try_except, bind.
  rewrite schema_cached by exact Hn. unfold lift, json_dumps. rewrite Ht.
  reflexivity.
Qed.

Lemma format_schema_unserialisable (w : world) :
  is_None (_schema (self w)) = false ->
  dumps (_schema (self w)) = None ->
  format_schema w = (Raise WMNFormatError, w).
Proof.
  intros Hn Ht. unfold format_schema, try_except, bind.
  rewrite schema_cached by exact Hn. unfold lift, json_dumps. rewrite Ht.
  reflexivity.
Qed.



End FreshRuns.

(** ** The formatter as a program *)

Section FormatterFrame.
Context {rt : Runtime}.


Lemma format_data_file_eq (w : world) :
  format_data_file w
  = match data_raw w with
    | (OK raw, w0) => format_file format_data raw (data_path (self w0)) w0
    | (Raise e, w0) => (Raise e, w0)
    end.
Proof.
  unfold format_data_file, bind at 1.
  destruct (data_raw w) as [[raw|e] w0]; reflexivity.
Qed.

Lemma format_schema_file_eq (w : world) :
  format_schema_file w
  = match schema_raw w with
    | (OK raw, w0) => format_file format_schema raw (schema_path (self w0)) w0
    | (Raise e, w0) => (Raise e, w0)
    end.
Proof.
  unfold format_schema_file, bind at 1.
  destruct (schema_raw w) as [[raw|e] w0]; reflexivity.
Qed.



(** The two calls of [main] and its exit code. *)
Lemma format_main_eq (w : world) :
  wmn_format_dataset.main w
  = match format_data_file (construct w) with
    | (OK _, w1) =>
        match format_schema_file w1 with
        | (OK _, w2) => (OK 0%Z, w2)
        | (Raise _, w2) => (OK 1%Z, w2)
        end
    | (Raise _, w1) => (OK 1%Z, w1)
    end.
Proof.
  unfold wmn_format_dataset.main, try_except, bind at 1.
  destruct (format_data_file (construct w)) as [[b1|e1] w1]; [| reflexivity].
  unfold bind at 1.
  destruct (format_schema_file w1) as [[b2|e2] w2]; reflexivity.
Qed.

End FormatterFrame.

Section FormatterRuns.
Context {rt : Runtime}.

(** The object of [main] once it holds the two raw texts and the two
    parsed documents. *)
Lemma schema_loading (me : WMNBase) (fs : path -> entry)
      (log : list (path * string)) (r : string) (sch : json) :
  _schema me = JNull -> _schema_raw me = None ->
  read_text (schema_path me) (mkWorld me fs log) = inr r ->
  loads r = OK sch ->
  schema (mkWorld me fs log)
  = (OK sch,
     mkWorld (assign_schema sch (assign_schema_raw (Some r) me)) fs log).
Proof.
  intros Hs Hr Hread Hl.
  rewrite schema_run by (cbn [self]; rewrite Hs; reflexivity).
  rewrite schema_raw_run by exact Hr. cbn [self].
  apply read_file_content_ok in Hread. rewrite Hread. cbn [fst].
  rewrite (proj2 (parse_json_data_ok _ _) Hl). reflexivity.
Qed.

Lemma format_data_loading (fs : path -> entry) (log : list (path * string))
      (raw r : string) (fields f3 : dict) (sch : json)
      (key_order : list string) :
  loads raw = OK (JObj fields) ->
  read_text DEFAULT_SCHEMA (mkWorld (init DEFAULT_DATA DEFAULT_SCHEMA) fs log)
  = inr r ->
  loads r = OK sch ->
  declared_order sch = OK key_order ->
  formatted (OK key_order) fields = OK f3 ->
  format_data
    (mkWorld (mkWMNBase DEFAULT_DATA DEFAULT_SCHEMA JNull JNull (Some raw) None)
             fs log)
  = (serialised f3,
     mkWorld (mkWMNBase DEFAULT_DATA DEFAULT_SCHEMA (JObj f3) sch
                        (Some raw) (Some r)) fs log).
Proof.
  intros Hraw Hread Hr Hko Hf.
  set (c0 := mkWorld (mkWMNBase DEFAULT_DATA DEFAULT_SCHEMA JNull JNull
                                (Some raw) None) fs log).
  assert (Hd : data c0 = (OK (JObj fields), with_data (JObj fields) c0)).
  { rewrite data_run by reflexivity.
    rewrite (@data_raw_cached c0 raw) by reflexivity.
    rewrite (proj2 (parse_json_data_ok _ _) Hraw). reflexivity. }
  rewrite (format_data_warm _ Hd).
  rewrite (@format_data_run _ (with_data (JObj fields) c0) fields)
    by reflexivity.
  apply formatted_inv in Hf.
  destruct Hf as [f1 [f2 [l [ss [order [sites
                   [Ha [Hc [Hg [Hs [[= <-] [Hfs ->]]]]]]]]]]]].
  rewrite Ha, Hc. cbv zeta. unfold sites_sorted. rewrite Hg, Hs.
  rewrite _get_site_key_order_eq. unfold bind at 1.
  unfold with_data, c0. cbn [self disk written assign_data data_path
                             schema_path _schema _data_raw _schema_raw].
  rewrite (@schema_loading _ fs log r sch);
    [| reflexivity | reflexivity | | exact Hr].
  2: { cbn [schema_path]. rewrite <- Hread. apply read_text_same_disk.
       reflexivity. }
  unfold lift. rewrite Hko. rewrite Hfs. reflexivity.
Qed.

(** The first call of [main] on a new object that finds the two files. *)
Lemma format_data_file_loading (w : world) (raw r : string)
      (fields f3 : dict) (sch : json) (key_order : list string) (s : string) :
  read_text DEFAULT_DATA w = inr raw ->
  loads raw = OK (JObj fields) ->
  read_text DEFAULT_SCHEMA w = inr r ->
  loads r = OK sch ->
  declared_order sch = OK key_order ->
  formatted (OK key_order) fields = OK f3 ->
  dumps (JObj f3) = Some s ->
  format_data_file (construct w)
  = format_file (ret s) raw DEFAULT_DATA
      (mkWorld (mkWMNBase DEFAULT_DATA DEFAULT_SCHEMA (JObj f3) sch
                          (Some raw) (Some r)) (disk w) (written w)).
Proof.
  intros Hread Hraw Hreads Hr Hko Hf Hs.
  rewrite format_data_file_eq.
  rewrite data_raw_run by reflexivity.
  assert (Hrc : read_file_content DEFAULT_DATA (construct w)
                = (OK raw, construct w)).
  { apply read_file_content_ok. rewrite <- Hread.
    apply read_text_same_disk. reflexivity. }
  cbn [construct self init data_path] in *. rewrite Hrc. cbn [fst].
  cbn [assign_data_raw data_path schema_path _data _schema _schema_raw
       disk written self].
  rewrite !format_file_run.
  unfold construct, init, assign_data_raw.
  cbn [self disk written data_path schema_path _data _schema _data_raw
       _schema_raw].
  rewrite (@format_data_loading (disk w) (written w) raw r fields f3 sch
             key_order); try assumption.
  unfold serialised. rewrite Hs. reflexivity.
Qed.

(** The second call on an object that holds the schema. *)
Lemma format_schema_file_loaded (w : world) (r t : string) :
  _schema_raw (self w) = Some r ->
  is_None (_schema (self w)) = false ->
  dumps (_schema (self w)) = Some t ->
  format_schema_file w = format_file (ret t) r (schema_path (self w)) w.
Proof.
  intros Hr Hn Ht. rewrite format_schema_file_eq.
  rewrite (schema_raw_cached _ Hr). rewrite !format_file_run.
  rewrite (format_schema_cached _ Hn Ht). reflexivity.
Qed.

(** The outcome of [format_file] for a text that is at hand. *)
Lemma format_file_text (text raw_data : string) (file_path : path)
      (w : world) :
  format_file (ret text) raw_data file_path w
  = if raw_data =? text then (OK false, w)
    else
      match write_text file_path text w with
      | (None, _) => (OK true, snd (write_file_content file_path text w))
      | (Some _, _) =>
          (Raise WMNFileError, snd (write_file_content file_path text w))
      end.
Proof.
  rewrite format_file_run. unfold ret.
  destruct (raw_data =? text); [reflexivity |].
  unfold write_file_content.
  destruct (write_text file_path text w) as [[err|] w1]; cbv zeta;
    [reflexivity |].
  destruct (file_path =? data_path (self w1)); [reflexivity |].
  destruct (file_path =? schema_path (self w1)); reflexivity.
Qed.
End FormatterRuns.

Section FormatterTwice.
Context {rt : Runtime}.

(** A call of [format_file] that returns, for a text that is at hand:
    either the text is the previous one and nothing happens, or it has
    been written. *)
Lemma format_file_text_ok (text raw_data : string) (file_path : path)
      (w w' : world) (changed : bool) :
  format_file (ret text) raw_data file_path w = (OK changed, w') ->
  (raw_data = text /\ w' = w)
  \/ (raw_data <> text
      /\ fst (write_file_content file_path text w) = OK tt
      /\ w' = snd (write_file_content file_path text w)).
Proof.
  rewrite format_file_text.
  destruct (raw_data =? text) eqn:E.
  - intros [= _ <-]. left. apply String.eqb_eq in E. auto.
  - apply String.eqb_neq in E.
    destruct (write_text file_path text w) as [[err|] w1] eqn:Ew;
      [discriminate |].
    intros [= _ <-]. right. split; [exact E |]. split; [| reflexivity].
    apply write_file_content_ok. rewrite Ew. reflexivity.
Qed.

Lemma write_file_content_read (p : path) (content : string) (w : world) :
  fst (write_file_content p content w) = OK tt ->
  has_carriage_return content = false ->
  read_text p (snd (write_file_content p content w)) = inr content
  /\ forall q, q <> p ->
               read_text q (snd (write_file_content p content w))
               = read_text q w.
Proof.
  intros H Hc. apply write_file_content_ok in H.
  destruct (write_text_disk _ _ _ H) as [Hp Hq].
  rewrite <- write_file_content_disk in Hp, Hq. split.
  - unfold read_text. rewrite Hp, (universal_newlines_line_feeds _ Hc).
    reflexivity.
  - intros q Hne. unfold read_text. rewrite (Hq q Hne). reflexivity.
Qed.

(** A write that succeeds leaves the text in the file. *)
Lemma write_file_content_holds (p : path) (content : string) (w : world) :
  fst (write_file_content p content w) = OK tt ->
  disk (snd (write_file_content p content w)) p = Regular content
  /\ forall q, q <> p ->
               disk (snd (write_file_content p content w)) q = disk w q.
Proof.
  intros H. apply write_file_content_ok in H.
  destruct (write_text_disk _ _ _ H) as [Hp Hq].
  rewrite <- write_file_content_disk in Hp, Hq. auto.
Qed.

Lemma write_file_content_schema (content : string) (w : world) :
  data_path (self w) <> schema_path (self w) ->
  fst (write_file_content (schema_path (self w)) content w) = OK tt ->
  self (snd (write_file_content (schema_path (self w)) content w))
  = assign_schema JNull (assign_schema_raw (Some content) (self w)).
Proof.
  intros Hne. unfold write_file_content.
  pose proof (write_text_log (schema_path (self w)) content w) as [_ Hs].
  destruct (write_text (schema_path (self w)) content w) as [[err|] w'];
    simpl in Hs; cbv zeta; rewrite ?Hs.
  - discriminate.
  - assert (E : (schema_path (self w) =? data_path (self w)) = false).
    { apply String.eqb_neq. congruence. }
    rewrite E, String.eqb_refl. simpl. rewrite ?Hs. reflexivity.
Qed.

(** The run of [main] on two files that are formatted already. *)
Lemma format_main_canonical (w : world) (s t : string) (fields : dict)
      (sch : json) (key_order : list string) :
  read_text DEFAULT_DATA w = inr s ->
  loads s = OK (JObj fields) ->
  read_text DEFAULT_SCHEMA w = inr t ->
  loads t = OK sch ->
  declared_order sch = OK key_order ->
  formatted (OK key_order) fields = OK fields ->
  dumps (JObj fields) = Some s ->
  dumps sch = Some t ->
  wmn_format_dataset.main w
  = (OK 0%Z,
     mkWorld (mkWMNBase DEFAULT_DATA DEFAULT_SCHEMA (JObj fields) sch
                        (Some s) (Some t)) (disk w) (written w)).
Proof.
  intros Hrd Hls Hrs Hlt Hko Hf Hds Hdt.
  rewrite format_main_eq.
  rewrite (@format_data_file_loading _ w s t fields fields sch key_order s
             Hrd Hls Hrs Hlt Hko Hf Hds).
  rewrite format_file_text, String.eqb_refl.
  rewrite (@format_schema_file_loaded _ _ t t);
    [| reflexivity | exact (declared_order_object _ Hko) | exact Hdt].
  rewrite format_file_text, String.eqb_refl. reflexivity.
Qed.

(** X18.  The formatter on formatted files.  When the data file holds
    the serialisation of a data set that formatting leaves as it is,
    and the schema file the serialisation of the schema, both read back
    by [json.loads], [main] returns 0, makes no call of [write_text] and
    leaves the disk as it is. *)
Theorem format_main_steady_state
        (w : world) (s t : string) (fields : dict) (sch : json)
        (key_order : list string) :
  read_text DEFAULT_DATA w = inr s ->
  loads s = OK (JObj fields) ->
  read_text DEFAULT_SCHEMA w = inr t ->
  loads t = OK sch ->
  declared_order sch = OK key_order ->
  formatted (OK key_order) fields = OK fields ->
  dumps (JObj fields) = Some s ->
  dumps sch = Some t ->
  fst (wmn_format_dataset.main w) = OK 0%Z
  /\ written (snd (wmn_format_dataset.main w)) = written w
  /\ disk (snd (wmn_format_dataset.main w)) = disk w.
Proof.
  intros Hrd Hls Hrs Hlt Hko Hf Hds Hdt.
  rewrite (@format_main_canonical w s t fields sch key_order
             Hrd Hls Hrs Hlt Hko Hf Hds Hdt).
  repeat split.
Qed.

(** What a run of [main] that returns 0 has found and has left. *)
Lemma format_main_outcome (w : world) :
  fst (wmn_format_dataset.main w) = OK 0%Z ->
  exists raw r fields f3 sch key_order s t,
    read_text DEFAULT_DATA w = inr raw
    /\ loads raw = OK (JObj fields)
    /\ read_text DEFAULT_SCHEMA w = inr r
    /\ loads r = OK sch
    /\ declared_order sch = OK key_order
    /\ formatted (OK key_order) fields = OK f3
    /\ dumps (JObj f3) = Some s
    /\ dumps sch = Some t
    /\ read_text DEFAULT_DATA (snd (wmn_format_dataset.main w)) = inr s
    /\ read_text DEFAULT_SCHEMA (snd (wmn_format_dataset.main w)) = inr t
    /\ ((raw = s
         /\ disk (snd (wmn_format_dataset.main w)) DEFAULT_DATA
            = disk w DEFAULT_DATA)
        \/ disk (snd (wmn_format_dataset.main w)) DEFAULT_DATA = Regular s)
    /\ ((r = t
         /\ disk (snd (wmn_format_dataset.main w)) DEFAULT_SCHEMA
            = disk w DEFAULT_SCHEMA)
        \/ disk (snd (wmn_format_dataset.main w)) DEFAULT_SCHEMA
           = Regular t).
Proof.
  intros H0.
  (* the data file is read *)
  assert (Hraw : exists raw, read_text DEFAULT_DATA w = inr raw).
  { rewrite format_main_eq, format_data_file_eq in H0.
    rewrite data_raw_run in H0 by reflexivity.
    destruct (read_file_content (data_path (self (construct w)))
                                (construct w)) as [[raw|e] w1] eqn:E;
      cbn [fst] in H0; [| discriminate].
    apply read_file_content_inv in E. destruct E as [E _].
    exists raw. rewrite <- E. apply read_text_same_disk. reflexivity. }
  destruct Hraw as [raw Hraw].
  assert (Hc0 : data_raw (construct w)
                = (OK raw,
                   mkWorld (mkWMNBase DEFAULT_DATA DEFAULT_SCHEMA JNull JNull
                                      (Some raw) None) (disk w) (written w))).
  { rewrite data_raw_run by reflexivity.
    assert (Hrc : read_file_content DEFAULT_DATA (construct w)
                  = (OK raw, construct w)).
    { apply read_file_content_ok. rewrite <- Hraw.
      apply read_text_same_disk. reflexivity. }
    cbn [construct self init data_path] in *. rewrite Hrc. reflexivity. }
  set (c0 := mkWorld (mkWMNBase DEFAULT_DATA DEFAULT_SCHEMA JNull JNull
                                (Some raw) None) (disk w) (written w)) in *.
  (* the data set is formatted *)
  assert (Hfmt : exists s c1, format_data c0 = (OK s, c1)).
  { rewrite format_main_eq, format_data_file_eq, Hc0 in H0.
    rewrite format_file_run in H0.
    destruct (format_data c0) as [[s|e] c1]; [eauto | discriminate]. }
  destruct Hfmt as [s [c1 Hfmt]].
  destruct (format_data_inv _ Hfmt)
    as [fields [w1 [ko [f3 [Hd [Hk [Hf [Hs _]]]]]]]].
  assert (Hl : loads raw = OK (JObj fields)).
  { rewrite data_run in Hd by reflexivity.
    rewrite (@data_raw_cached c0 raw) in Hd by reflexivity.
    destruct (parse_json_data raw) as [v|e] eqn:Ep; [| discriminate].
    injection Hd as -> _. apply parse_json_data_ok. exact Ep. }
  assert (Hsch : exists r sch,
             read_text DEFAULT_SCHEMA w = inr r
             /\ loads r = OK sch /\ declared_order sch = OK ko).
  { rewrite _get_site_key_order_eq in Hk. unfold bind in Hk.
    rewrite schema_run in Hk by reflexivity.
    rewrite schema_raw_run in Hk by reflexivity.
    destruct (read_file_content (schema_path (self c0)) c0)
      as [[r|e] w2] eqn:E; cbn [fst] in Hk; [| discriminate].
    apply read_file_content_inv in E. destruct E as [E _].
    destruct (parse_json_data r) as [sch|e] eqn:El; [| discriminate].
    apply parse_json_data_ok in El.
    unfold lift in Hk. cbn [fst] in Hk.
    exists r, sch. split; [| split; [exact El | exact Hk]].
    rewrite <- E. apply read_text_same_disk. reflexivity. }
  destruct Hsch as [r [sch [Hr [Hlr Hko]]]].
  exists raw, r, fields, f3, sch, ko, s.
  (* the two calls of format_file *)
  rewrite format_main_eq in H0 |- *.
  rewrite (@format_data_file_loading _ w raw r fields f3 sch ko s
             Hraw Hl Hr Hlr Hko Hf Hs) in H0 |- *.
  set (c2 := mkWorld (mkWMNBase DEFAULT_DATA DEFAULT_SCHEMA (JObj f3) sch
                                (Some raw) (Some r)) (disk w) (written w))
    in *.
  destruct (format_file (ret s) raw DEFAULT_DATA c2) as [[b1|e1] c3] eqn:E1;
    [| discriminate].
  apply format_file_text_ok in E1.
  assert (H3 : _schema_raw (self c3) = Some r
               /\ _schema (self c3) = sch
               /\ schema_path (self c3) = DEFAULT_SCHEMA
               /\ data_path (self c3) = DEFAULT_DATA
               /\ read_text DEFAULT_DATA c3 = inr s
               /\ read_text DEFAULT_SCHEMA c3 = inr r
               /\ ((raw = s /\ disk c3 = disk w)
                   \/ (disk c3 DEFAULT_DATA = Regular s
                       /\ disk c3 DEFAULT_SCHEMA = disk w DEFAULT_SCHEMA))).
  { destruct E1 as [[-> ->]|[_ [Hok ->]]].
    - repeat split; try assumption. left. split; reflexivity.
    - pose proof (@write_file_content_data _ s c2 Hok) as Hself.
      destruct (@write_file_content_read
                  DEFAULT_DATA s c2 Hok (@dumps_line_ends _ _ _ Hs))
        as [Hrd Hother].
      destruct (@write_file_content_holds DEFAULT_DATA s c2 Hok)
        as [Hheld Hkept].
      change (data_path (self c2)) with DEFAULT_DATA in Hself.
      rewrite Hself. repeat split; try assumption.
      + rewrite (Hother DEFAULT_SCHEMA) by discriminate. exact Hr.
      + right. split; [exact Hheld |].
        rewrite (Hkept DEFAULT_SCHEMA) by discriminate. reflexivity. }
  destruct H3 as [Hsr [Hsv [Hsp [Hdp [Hrd3 [Hrs3 Hdisk3]]]]]].
  assert (Hn : is_None (_schema (self c3)) = false).
  { rewrite Hsv. exact (declared_order_object _ Hko). }
  destruct (dumps sch) as [t|] eqn:Ht.
  2: { exfalso. rewrite format_schema_file_eq in H0.
       rewrite (schema_raw_cached _ Hsr) in H0.
       rewrite format_file_run in H0.
       rewrite format_schema_unserialisable in H0;
         [discriminate | exact Hn | rewrite Hsv; exact Ht]. }
  exists t.
  rewrite (@format_schema_file_loaded _ c3 r t) in H0 |- *;
    try assumption; try (rewrite Hsv; exact Ht).
  rewrite Hsp in H0 |- *.
  destruct (format_file (ret t) r DEFAULT_SCHEMA c3) as [[b2|e2] c4] eqn:E2;
    [| discriminate].
  apply format_file_text_ok in E2. cbn [snd].
  repeat (split; [assumption || reflexivity |]).
  destruct E2 as [[-> ->]|[_ [Hok ->]]].
  - split; [assumption |]. split; [assumption |]. split.
    + destruct Hdisk3 as [[Hsame Hk3]|[Hk3 _]];
        [left; rewrite Hk3; auto | right; exact Hk3].
    + left. split; [reflexivity |].
      destruct Hdisk3 as [[_ Hk3]|[_ Hk3]];
        [rewrite Hk3; reflexivity | exact Hk3].
  - destruct (@write_file_content_read
                DEFAULT_SCHEMA t c3 Hok (@dumps_line_ends _ _ _ Ht))
      as [Hrd Hother].
    destruct (@write_file_content_holds DEFAULT_SCHEMA t c3 Hok)
      as [Hheld Hkept].
    split; [rewrite (Hother DEFAULT_DATA) by discriminate; exact Hrd3 |].
    split; [exact Hrd |]. split; [| right; exact Hheld].
    rewrite (Hkept DEFAULT_DATA) by discriminate.
    destruct Hdisk3 as [[Hsame Hk3]|[Hk3 _]];
      [left; rewrite Hk3; auto | right; exact Hk3].
Qed.

(** X19.  What a successful run of the formatter leaves.  After [main]
    has returned 0, reading the data file yields the serialisation of
    the formatted form of the data set that was read from it, a data
    set that formatting leaves as it is, and reading the schema file
    yields the serialisation of the schema that was read from it; the
    key order is the one that this schema declares.  Each of the two
    files either holds that very text, or has not been touched because
    the text read from it, its line ends read as line feeds, was that
    text already: a file with other line ends that reads as the
    canonical text keeps them. *)
Theorem format_main_result (w : world) :
  fst (wmn_format_dataset.main w) = OK 0%Z ->
  exists (raw r s t : string) (fields fields' : dict) (sch : json)
         (key_order : list string),
    read_text DEFAULT_DATA w = inr raw
    /\ loads raw = OK (JObj fields)
    /\ read_text DEFAULT_SCHEMA w = inr r
    /\ loads r = OK sch
    /\ declared_order sch = OK key_order
    /\ formatted (OK key_order) fields = OK fields'
    /\ formatted (OK key_order) fields' = OK fields'
    /\ dumps (JObj fields') = Some s
    /\ dumps sch = Some t
    /\ read_text DEFAULT_DATA (snd (wmn_format_dataset.main w)) = inr s
    /\ read_text DEFAULT_SCHEMA (snd (wmn_format_dataset.main w)) = inr t
    /\ ((raw = s
         /\ disk (snd (wmn_format_dataset.main w)) DEFAULT_DATA
            = disk w DEFAULT_DATA)
        \/ disk (snd (wmn_format_dataset.main w)) DEFAULT_DATA = Regular s)
    /\ ((r = t
         /\ disk (snd (wmn_format_dataset.main w)) DEFAULT_SCHEMA
            = disk w DEFAULT_SCHEMA)
        \/ disk (snd (wmn_format_dataset.main w)) DEFAULT_SCHEMA
           = Regular t).
Proof.
  intros H. apply format_main_outcome in H.
  destruct H as [raw [r [fields [f3 [sch [ko [s [t
                  [Hraw [Hl [Hr [Hlr [Hko [Hf [Hs [Ht
                    [Hd' [Hs' [Hdd Hds]]]]]]]]]]]]]]]]]]].
  exists raw, r, s, t, fields, f3, sch, ko.
  repeat (split; [assumption |]).
  split; [apply formatted_fixed in Hf; exact Hf |].
  repeat (split; [assumption |]). assumption.
Qed.

(** X20.  The formatter is idempotent.  Let [json.loads] read back
    what [json.dumps] writes.  After [main] has returned 0, a second
    run returns 0 too, makes no call of [write_text] and leaves the
    disk as it is. *)
Theorem format_main_idempotent (w : world) :
  (forall v text, dumps v = Some text -> loads text = OK v) ->
  fst (wmn_format_dataset.main w) = OK 0%Z ->
  fst (wmn_format_dataset.main (snd (wmn_format_dataset.main w))) = OK 0%Z
  /\ written (snd (wmn_format_dataset.main (snd (wmn_format_dataset.main w))))
     = written (snd (wmn_format_dataset.main w))
  /\ disk (snd (wmn_format_dataset.main (snd (wmn_format_dataset.main w))))
     = disk (snd (wmn_format_dataset.main w)).
Proof.
  intros Hround H. apply format_main_outcome in H.
  destruct H as [raw [r [fields [f3 [sch [ko [s [t
                  [_ [_ [_ [_ [Hko [Hf [Hs [Ht [Hd' [Hs' _]]]]]]]]]]]]]]]]]].
  apply formatted_fixed in Hf.
  rewrite (@format_main_canonical (snd (wmn_format_dataset.main w)) s t f3 sch
             ko Hd' (Hround _ _ Hs) Hs' (Hround _ _ Ht) Hko Hf Hs Ht).
  repeat split.
Qed.
End FormatterTwice.


(** The formatter on the canonical files. *)
Lemma format_main_steady_state_witness :
  fst (wmn_format_dataset.main (rt := Example.runtime) Example.canonical_file)
  = OK 0%Z
  /\ written (snd (wmn_format_dataset.main (rt := Example.runtime)
                                           Example.canonical_file))
     = written Example.canonical_file
  /\ disk (snd (wmn_format_dataset.main (rt := Example.runtime)
                                        Example.canonical_file))
     = disk Example.canonical_file.
Proof.
  apply (@format_main_steady_state Example.runtime Example.canonical_file
           Example.canonical_text (Sample.dumps Example.schema)
           [("authors", JArr [JStr "a"; JStr "b"]);
            ("categories", JArr [JStr "x"; JStr "y"]);
            ("sites",
             JArr [JObj [("name", JStr "Alpha"); ("headers", JObj [])];
                   JObj [("name", JStr "Zeta");
                         ("headers",
                          JObj [("a", JStr "1"); ("b", JStr "2")])]])]
           Example.schema ["name"; "headers"]);
    vm_compute; reflexivity.
Defined.

(** The formatter on a data file that holds the canonical text with the
    line ends of another system: the file is left as it is. *)
Lemma format_main_result_witness :
  exists (raw r s t : string) (fields fields' : dict) (sch : json)
         (key_order : list string),
    read_text DEFAULT_DATA Scenario.crlf_file = inr raw
    /\ loads (Runtime := Example.runtime) raw = OK (JObj fields)
    /\ read_text DEFAULT_SCHEMA Scenario.crlf_file = inr r
    /\ loads (Runtime := Example.runtime) r = OK sch
    /\ declared_order sch = OK key_order
    /\ formatted (rt := Example.runtime) (OK key_order) fields = OK fields'
    /\ formatted (rt := Example.runtime) (OK key_order) fields' = OK fields'
    /\ dumps (Runtime := Example.runtime) (JObj fields') = Some s
    /\ dumps (Runtime := Example.runtime) sch = Some t
    /\ read_text DEFAULT_DATA
                 (snd (wmn_format_dataset.main (rt := Example.runtime)
                                               Scenario.crlf_file))
       = inr s
    /\ read_text DEFAULT_SCHEMA
                 (snd (wmn_format_dataset.main (rt := Example.runtime)
                                               Scenario.crlf_file))
       = inr t
    /\ ((raw = s
         /\ disk (snd (wmn_format_dataset.main (rt := Example.runtime)
                                               Scenario.crlf_file))
                 DEFAULT_DATA
            = disk Scenario.crlf_file DEFAULT_DATA)
        \/ disk (snd (wmn_format_dataset.main (rt := Example.runtime)
                                              Scenario.crlf_file))
                DEFAULT_DATA
           = Regular s)
    /\ ((r = t
         /\ disk (snd (wmn_format_dataset.main (rt := Example.runtime)
                                               Scenario.crlf_file))
                 DEFAULT_SCHEMA
            = disk Scenario.crlf_file DEFAULT_SCHEMA)
        \/ disk (snd (wmn_format_dataset.main (rt := Example.runtime)
                                              Scenario.crlf_file))
                DEFAULT_SCHEMA
           = Regular t).
Proof.
  apply (@format_main_result Example.runtime Scenario.crlf_file).
  vm_compute. reflexivity.
Defined.

(** The strict runtime reads back what it writes. *)
Lemma json_eqb_eq : forall a b, Scenario.json_eqb a b = true -> a = b.
Proof.
  fix IH 1.
  intros [|x|n|s|l|d] [|y|m|t|l'|d']; simpl; try discriminate; intros H.
  - reflexivity.
  - apply Bool.eqb_prop in H. congruence.
  - apply Z.eqb_eq in H. congruence.
  - apply String.eqb_eq in H. congruence.
  - f_equal. revert l' H.
    induction l as [|a l IHl]; intros [|b l'] H; try discriminate;
      [reflexivity |].
    apply andb_true_iff in H. destruct H as [Ha Hl].
    f_equal; [apply IH, Ha | apply IHl, Hl].
  - f_equal. revert d' H.
    induction d as [|[k a] d IHd]; intros [|[k' b] d'] H; try discriminate;
      [reflexivity |].
    apply andb_true_iff in H. destruct H as [H Hd].
    apply andb_true_iff in H. destruct H as [Hk Ha].
    apply String.eqb_eq in Hk.
    f_equal; [f_equal; [exact Hk | apply IH, Ha] | apply IHd, Hd].
Qed.

Lemma strict_runtime_round_trip (v : json) (text : string) :
  dumps (Runtime := Scenario.strict_runtime) v = Some text ->
  loads (Runtime := Scenario.strict_runtime) text = OK v.
Proof.
  cbn [dumps loads Scenario.strict_runtime]. cbv zeta.
  destruct (existsb (Scenario.json_eqb v)
                    [Example.dataset; Example.schema; Example.canonical])
    eqn:E; [| discriminate].
  intros [= <-]. apply existsb_exists in E. destruct E as [doc [Hin Heq]].
  apply json_eqb_eq in Heq. subst doc.
  destruct Hin as [<-|[<-|[<-|[]]]]; vm_compute; reflexivity.
Qed.

(** Two runs of the formatter on the data set as it came. *)
Lemma format_main_idempotent_witness :
  fst (wmn_format_dataset.main
         (rt := Scenario.strict_runtime)
         (snd (wmn_format_dataset.main (rt := Scenario.strict_runtime)
                                       Example.unformatted_file)))
  = OK 0%Z
  /\ written (snd (wmn_format_dataset.main
                     (rt := Scenario.strict_runtime)
                     (snd (wmn_format_dataset.main
                             (rt := Scenario.strict_runtime)
                             Example.unformatted_file))))
     = written (snd (wmn_format_dataset.main (rt := Scenario.strict_runtime)
                                             Example.unformatted_file))
  /\ disk (snd (wmn_format_dataset.main
                  (rt := Scenario.strict_runtime)
                  (snd (wmn_format_dataset.main
                          (rt := Scenario.strict_runtime)
                          Example.unformatted_file))))
     = disk (snd (wmn_format_dataset.main (rt := Scenario.strict_runtime)
                                          Example.unformatted_file)).
Proof.
  apply (@format_main_idempotent Scenario.strict_runtime
           Example.unformatted_file).
  - exact strict_runtime_round_trip.
  - vm_compute. reflexivity.
Defined.

(** ** The hasher: one update, and the program *)


(** The two tracked files have names. *)
Lemma DEFAULT_DATA_named : path_name DEFAULT_DATA <> EmptyString.
Proof.
  vm_compute. discriminate.
Qed.

Lemma DEFAULT_SCHEMA_named : path_name DEFAULT_SCHEMA <> EmptyString.
Proof.
  vm_compute. discriminate.
Qed.

Section HasherFacts.
Context {rt : Runtime}.




(** The run of [update_hash_file], whatever the text. *)
Lemma update_hash_file_cases (target_file : path) (data : string)
      (w : world) :
  let hash_file := (target_file ++ HASH_FILE_EXTENSION)%string in
  (_compute_sha256 data = Raise WMNHashError
   /\ update_hash_file target_file data w = (Raise WMNHashError, w))
  \/ ((exists new_hash, _compute_sha256 data = OK new_hash)
      /\ path_name target_file = EmptyString
      /\ update_hash_file target_file data w = (Raise ValueError, w))
  \/ exists new_hash,
      _compute_sha256 data = OK new_hash
      /\ path_name target_file <> EmptyString
      /\ ((exists content,
              read_text hash_file w = inr content
              /\ strip content = new_hash
              /\ update_hash_file target_file data w
                 = (OK (mkHashResult target_file UNCHANGED new_hash
                                     (Some new_hash)), w))
          \/ (fst (read_file_content hash_file w) = Raise OSError
              /\ update_hash_file target_file data w = (Raise OSError, w))
          \/ (exists previous_hash,
                 (forall content, read_text hash_file w = inr content ->
                                  strip content <> new_hash)
                 /\ update_hash_file target_file data w
                    = (match fst (write_file_content
                                    hash_file (new_hash ++ newline)%string w)
                       with
                       | OK _ =>
                           OK (mkHashResult
                                 target_file
                                 (match previous_hash with
                                  | None => NEW
                                  | Some _ => UPDATED
                                  end) new_hash previous_hash)
                       | Raise _ => Raise WMNHashError
                       end,
                       snd (write_file_content
                              hash_file (new_hash ++ newline)%string w)))).
Proof.
  intros hash_file.
  destruct (_compute_sha256 data) as [new_hash|e] eqn:Hc.
  2: { left. assert (He : e = WMNHashError).
       { unfold _compute_sha256 in Hc.
         destruct (encode data); [discriminate | congruence]. }
       subst e. split; [reflexivity |].
       unfold update_hash_file, bind at 1, lift. rewrite Hc. reflexivity. }
  right.
  destruct (_get_hash_file_path_cases target_file) as [[Hn Hp]|[Hn Hp]].
  2: { left. split; [eauto |]. split; [exact Hn |].
       exact (@update_hash_file_nameless _ target_file data new_hash w
                                         Hc Hp). }
  right. exists new_hash. split; [reflexivity |]. split; [exact Hn |].
  rewrite (@update_hash_file_run _ target_file hash_file data new_hash w
                                 Hc Hp).
  pose proof (read_file_content_result hash_file w) as Hres.
  destruct (read_file_content hash_file w) as [[content|e] w1] eqn:Er;
    cbn [fst] in *.
  - apply read_file_content_inv in Er. destruct Er as [Er _].
    destruct (strip content =? new_hash) eqn:E.
    + apply String.eqb_eq in E. left. exists content. rewrite E. auto.
    + apply String.eqb_neq in E. right. right.
      exists (Some (strip content)). split.
      * intros content' Hc'. rewrite Er in Hc'. injection Hc' as <-.
        exact E.
      * destruct (fst (write_file_content hash_file
                         (new_hash ++ newline)%string w)); reflexivity.
  - destruct Hres as [[s Hs]|[Hs|Hs]]; try discriminate;
      injection Hs as ->.
    + right. right. exists None. split.
      * intros content Hc'. exfalso.
        apply read_file_content_ok in Hc'. rewrite Hc' in Er. discriminate.
      * destruct (fst (write_file_content hash_file
                         (new_hash ++ newline)%string w)); reflexivity.
    + right. left. auto.
Qed.
End HasherFacts.

Section HasherClaims.
Context {rt : Runtime}.




End HasherClaims.

Section HasherProgram.
Context {rt : Runtime}.

Lemma hash_results_eq (w : world) :
  hash_results w
  = match data_raw w with
    | (Raise e, w0) => (Raise e, w0)
    | (OK data_text, w0) =>
        match update_hash_file (data_path (self w)) data_text w0 with
        | (Raise e, w1) => (Raise e, w1)
        | (OK for_data, w1) =>
            match schema_raw w1 with
            | (Raise e, w2) => (Raise e, w2)
            | (OK schema_text, w2) =>
                match update_hash_file (schema_path (self w1)) schema_text w2
                with
                | (Raise e, w3) => (Raise e, w3)
                | (OK for_schema, w3) => (OK [for_data; for_schema], w3)
                end
            end
        end
    end.
Proof.
  unfold hash_results, bind at 1, get_self. unfold bind at 1.
  destruct (data_raw w) as [[data_text|e] w0]; [| reflexivity].
  unfold bind at 1.
  destruct (update_hash_file (data_path (self w)) data_text w0)
    as [[for_data|e] w1]; [| reflexivity].
  unfold bind at 1. unfold bind at 1.
  destruct (schema_raw w1) as [[schema_text|e] w2]; [| reflexivity].
  unfold bind.
  destruct (update_hash_file (schema_path (self w1)) schema_text w2)
    as [[for_schema|e] w3]; reflexivity.
Qed.

Lemma hash_main_eq (w : world) :
  wmn_hash_dataset.main w
  = match hash_results (construct w) with
    | (OK _, w') => (OK 0%Z, w')
    | (Raise _, w') => (OK 1%Z, w')
    end.
Proof.
  unfold wmn_hash_dataset.main, try_except, bind.
  destruct (hash_results (construct w)) as [[results|e] w']; reflexivity.
Qed.


End HasherProgram.

Section HasherTwice.
Context {rt : Runtime}.



(** An update for a text whose digest the digest file holds. *)
Lemma update_hash_file_unchanged (target_file : path) (data : string)
      (w : world) (new_hash content : string) :
  path_name target_file <> EmptyString ->
  _compute_sha256 data = OK new_hash ->
  read_text (target_file ++ HASH_FILE_EXTENSION)%string w = inr content ->
  strip content = new_hash ->
  update_hash_file target_file data w
  = (OK (mkHashResult target_file UNCHANGED new_hash (Some new_hash)), w).
Proof.
  intros Hn Hc Hr Hs.
  destruct (update_hash_file_cases target_file data w)
    as [[E _]|[[_ [E _]]
              |[h [Hc' [_ [[content' [_ [_ E]]]
                          |[[E _]|[prev [Hne _]]]]]]]]].
  - congruence.
  - contradiction.
  - rewrite Hc in Hc'. injection Hc' as <-. exact E.
  - exfalso. apply read_file_content_ok in Hr. rewrite Hr in E.
    discriminate.
  - exfalso. rewrite Hc in Hc'. injection Hc' as <-.
    exact (Hne _ Hr Hs).
Qed.

(** The run of [main] when the two digest files hold the digests. *)
Lemma hash_main_unchanged
      (w : world) (data_text schema_text : string)
      (data_hash schema_hash data_content schema_content : string) :
  read_text DEFAULT_DATA w = inr data_text ->
  read_text DEFAULT_SCHEMA w = inr schema_text ->
  _compute_sha256 data_text = OK data_hash ->
  _compute_sha256 schema_text = OK schema_hash ->
  read_text (DEFAULT_DATA ++ HASH_FILE_EXTENSION)%string w = inr data_content ->
  strip data_content = data_hash ->
  read_text (DEFAULT_SCHEMA ++ HASH_FILE_EXTENSION)%string w
  = inr schema_content ->
  strip schema_content = schema_hash ->
  wmn_hash_dataset.main w
  = (OK 0%Z,
     mkWorld (mkWMNBase DEFAULT_DATA DEFAULT_SCHEMA JNull JNull
                        (Some data_text) (Some schema_text))
             (disk w) (written w)).
Proof.
  intros Hrd Hrs Hcd Hcs Hhd Hsd Hhs Hss.
  rewrite hash_main_eq, hash_results_eq.
  rewrite data_raw_run by reflexivity.
  assert (E1 : read_file_content DEFAULT_DATA (construct w)
               = (OK data_text, construct w)).
  { apply read_file_content_ok. exact Hrd. }
  cbn [construct self init data_path schema_path] in *. rewrite E1.
  cbn [fst]. unfold assign_data_raw.
  cbn [data_path schema_path _data _schema _schema_raw].
  rewrite (@update_hash_file_unchanged DEFAULT_DATA data_text _ data_hash
             data_content DEFAULT_DATA_named Hcd); [| exact Hhd | exact Hsd].
  rewrite schema_raw_run by reflexivity.
  cbn [self schema_path disk written].
  assert (E2 : forall me,
             read_file_content DEFAULT_SCHEMA
                               (mkWorld me (disk w) (written w))
             = (OK schema_text, mkWorld me (disk w) (written w))).
  { intros me. apply read_file_content_ok. exact Hrs. }
  rewrite E2. cbn [fst]. unfold assign_schema_raw.
  cbn [data_path schema_path _data _schema _data_raw].
  rewrite (@update_hash_file_unchanged DEFAULT_SCHEMA schema_text _
             schema_hash schema_content DEFAULT_SCHEMA_named Hcs);
    [| exact Hhs | exact Hss].
  reflexivity.
Qed.

(** X25.  The hasher on digests that are up to date.  When the digest
    files of the data file and of the schema file hold the digests of
    the two texts, blanks around them apart, [main] returns 0, makes no
    call of [write_text] and leaves the disk as it is. *)
Theorem hash_main_steady_state
        (w : world) (data_text schema_text : string)
        (data_hash schema_hash data_content schema_content : string) :
  read_text DEFAULT_DATA w = inr data_text ->
  read_text DEFAULT_SCHEMA w = inr schema_text ->
  _compute_sha256 data_text = OK data_hash ->
  _compute_sha256 schema_text = OK schema_hash ->
  read_text (DEFAULT_DATA ++ HASH_FILE_EXTENSION)%string w = inr data_content ->
  strip data_content = data_hash ->
  read_text (DEFAULT_SCHEMA ++ HASH_FILE_EXTENSION)%string w
  = inr schema_content ->
  strip schema_content = schema_hash ->
  fst (wmn_hash_dataset.main w) = OK 0%Z
  /\ written (snd (wmn_hash_dataset.main w)) = written w
  /\ disk (snd (wmn_hash_dataset.main w)) = disk w.
Proof.
  intros Hrd Hrs Hcd Hcs Hhd Hsd Hhs Hss.
  rewrite (@hash_main_unchanged w data_text schema_text data_hash schema_hash
             data_content schema_content Hrd Hrs Hcd Hcs Hhd Hsd Hhs Hss).
  repeat split.
Qed.




End HasherTwice.




(** The hasher on digest files that are up to date. *)
Lemma hash_main_steady_state_witness :
  fst (wmn_hash_dataset.main (rt := Example.runtime) Scenario.hashed)
  = OK 0%Z
  /\ written (snd (wmn_hash_dataset.main (rt := Example.runtime)
                                         Scenario.hashed))
     = written Scenario.hashed
  /\ disk (snd (wmn_hash_dataset.main (rt := Example.runtime)
                                      Scenario.hashed))
     = disk Scenario.hashed.
Proof.
  apply (@hash_main_steady_state Example.runtime Scenario.hashed
           (Sample.dumps Example.dataset) (Sample.dumps Example.schema)
           (Sample.digest (Sample.dumps Example.dataset))
           (Sample.digest (Sample.dumps Example.schema))
           (Sample.digest (Sample.dumps Example.dataset) ++ newline)%string
           (Sample.digest (Sample.dumps Example.schema) ++ newline)%string);
    vm_compute; reflexivity.
Defined.






(** ** The validator: shapes, findings and the program *)

Section ValidatorShapes.
Context {rt : Runtime}.

Lemma site_names_not_an_object (sites : list json) (site : json) :
  In site sites -> (forall f, site <> JObj f) ->
  site_names sites = Raise AttributeError.
Proof.
  intros Hin Hno. induction sites as [|x sites IH]; [inversion Hin |].
  simpl. destruct x as [| | | | |fields]; try reflexivity.
  destruct Hin as [<-|Hin]; [exfalso; eapply Hno; reflexivity |].
  unfold py_get_or, py_get. cbn [rbind]. rewrite (IH Hin). reflexivity.
Qed.

Lemma Counter_from_unhashable (names : list json) (name : json)
      (counter : list (json * hkey * nat)) :
  In name names -> py_hash name = None ->
  Counter_from counter names = Raise TypeError.
Proof.
  revert counter. induction names as [|x names IH]; intros counter Hin Hn;
    [inversion Hin |].
  simpl. destruct Hin as [->|Hin].
  - rewrite Hn. reflexivity.
  - destruct (py_hash x); [apply IH; assumption | reflexivity].
Qed.

Lemma site_names_In (sites names : list json) (fields : dict) (name : json) :
  site_names sites = OK names ->
  In (JObj fields) sites ->
  dict_get NAME_KEY fields = Some name -> truthy name = true ->
  In name names.
Proof.
  revert names. induction sites as [|x sites IH]; intros names Hs Hin Hg Ht;
    [inversion Hin |].
  simpl in Hs.
  destruct (py_get_or x NAME_KEY JNull) as [n|e] eqn:En; [| discriminate].
  cbn [rbind] in Hs.
  destruct (site_names sites) as [rest|e]; [| discriminate].
  cbn [rbind] in Hs. injection Hs as <-.
  destruct Hin as [->|Hin].
  - unfold py_get_or, py_get in En. cbn [rbind] in En. rewrite Hg in En.
    injection En as <-. rewrite Ht. left. reflexivity.
  - destruct (truthy n); [right |]; eapply IH; eauto.
Qed.

Lemma site_names_objects (sites : list json) :
  Forall (fun site => exists f, site = JObj f) sites ->
  exists names, site_names sites = OK names.
Proof.
  induction 1 as [|x l [f ->] _ [names IH]]; simpl.
  - eexists. reflexivity.
  - unfold py_get_or. cbn [rbind py_get]. rewrite IH. cbn [rbind].
    eexists. reflexivity.
Qed.

(** The run of [validate_duplicates] on the parsed data set. *)
Lemma validate_duplicates_eq (w w1 : world) (d : json) :
  data w = (OK d, w1) ->
  validate_duplicates w
  = match rbind (rbind (rbind (py_get_or d SITES_KEY (JArr [])) py_iter)
                       site_names) Counter with
    | OK counts =>
        (OK (map (fun e => fst (fst e))
                 (filter (fun e => (1 <? snd e)%nat) counts)), w1)
    | Raise e => (Raise e, w1)
    end.
Proof.
  intros Hd. unfold validate_duplicates, bind at 1. rewrite Hd.
  unfold bind, lift.
  destruct (py_get_or d SITES_KEY (JArr [])) as [sites_data|e];
    [| reflexivity].
  cbn [rbind]. destruct (py_iter sites_data) as [sites|e]; [| reflexivity].
  cbn [rbind]. destruct (site_names sites) as [names|e]; [| reflexivity].
  cbn [rbind]. destruct (Counter names); reflexivity.
Qed.

(** X28.  [validate_duplicates] on unexpected shapes.  A data set
    without [sites] has no duplicates.  A data set that is not an
    object, and a site that is not an object, raise the
    [AttributeError] of the missing method [get]; a non-empty name
    that is a list or an object, among sites that are objects, raises
    the [TypeError] of an unhashable key.  None of them is a
    [WMNError]. *)
Theorem validate_duplicates_shapes (w w1 : world) (d : json) :
  data w = (OK d, w1) ->
  ((forall fields, d <> JObj fields) ->
   validate_duplicates w = (Raise AttributeError, w1))
  /\ (forall fields,
         d = JObj fields -> dict_get SITES_KEY fields = None ->
         validate_duplicates w = (OK [], w1))
  /\ (forall fields sites site,
         d = JObj fields ->
         dict_get SITES_KEY fields = Some (JArr sites) ->
         In site sites -> (forall f, site <> JObj f) ->
         validate_duplicates w = (Raise AttributeError, w1))
  /\ (forall fields sites site_fields name,
         d = JObj fields ->
         dict_get SITES_KEY fields = Some (JArr sites) ->
         Forall (fun site => exists f, site = JObj f) sites ->
         In (JObj site_fields) sites ->
         dict_get NAME_KEY site_fields = Some name ->
         truthy name = true -> py_hash name = None ->
         validate_duplicates w = (Raise TypeError, w1)).
Proof.
  intros Hd. rewrite (validate_duplicates_eq _ Hd).
  split; [| split; [| split]].
  - intros Hno. destruct d; try reflexivity. exfalso. eapply Hno.
    reflexivity.
  - intros fields -> Hg. unfold py_get_or. cbn [rbind py_get].
    rewrite Hg. reflexivity.
  - intros fields sites site -> Hg Hin Hno.
    unfold py_get_or. cbn [rbind py_get]. rewrite Hg.
    cbn [rbind py_iter]. rewrite (@site_names_not_an_object sites site Hin Hno).
    reflexivity.
  - intros fields sites site_fields name -> Hg Hobj Hin Hn Ht Hh.
    unfold py_get_or. cbn [rbind py_get]. rewrite Hg.
    cbn [rbind py_iter].
    destruct (site_names sites) as [names|e] eqn:En.
    + cbn [rbind]. unfold Counter.
      rewrite (@Counter_from_unhashable names name []);
        [reflexivity | | exact Hh].
      eapply site_names_In; eauto.
    + destruct (site_names_objects Hobj) as [names En']. congruence.
Qed.
End ValidatorShapes.

Section ValidatorRuns.
Context {rt : Runtime} {validator : Draft7}.

(** A finding for a violation, on an object that holds the data set. *)
Lemma _format_validation_error_loaded (error : ValidationError) (w : world) :
  is_None (_data (self w)) = false ->
  exists finding,
    _format_validation_error error w = (OK finding, w)
    /\ model_path finding = error_json_path error
    /\ model_message finding = error_message error.
Proof.
  intros Hn. unfold _format_validation_error, bind at 1, try_except.
  destruct (error_absolute_path error) as [|seg path].
  - unfold ret, bind. eexists. repeat split.
  - unfold bind at 1. rewrite data_cached by exact Hn.
    unfold bind at 1. unfold lift at 1.
    destruct (walk (_data (self w)) (seg :: path)) as [v|e].
    + destruct (negb (is_None v)).
      * unfold bind at 1, lift, json_dumps.
        destruct (dumps v); unfold ret, bind; eexists; repeat split.
      * unfold ret, bind. eexists. repeat split.
    + unfold ret, bind. eexists. repeat split.
Qed.

Lemma for_each_findings (errors : list ValidationError) (w : world) :
  is_None (_data (self w)) = false ->
  exists findings,
    for_each _format_validation_error errors w = (OK findings, w)
    /\ map model_path findings = map error_json_path errors
    /\ map model_message findings = map error_message errors.
Proof.
  intros Hn. induction errors as [|error errors [findings [E [Hp Hm]]]].
  - exists []. repeat split.
  - destruct (_format_validation_error_loaded error _ Hn)
      as [finding [Ef [Hfp Hfm]]].
    exists (finding :: findings). simpl. unfold bind at 1. rewrite Ef.
    unfold bind at 1. rewrite E. unfold ret.
    repeat split; simpl; congruence.
Qed.

Lemma validate_schema_eq (w : world) :
  validate_schema w
  = match schema w with
    | (Raise e, w1) => (Raise e, w1)
    | (OK s, w1) =>
        if accepts_schema s then
          match data w1 with
          | (Raise e, w2) => (Raise e, w2)
          | (OK d, w2) =>
              match iter_errors s d with
              | OK errors => for_each _format_validation_error errors w2
              | Raise e => (Raise e, w2)
              end
          end
        else (Raise WMNSchemaError, w1)
    end.
Proof.
  unfold validate_schema, bind at 1.
  destruct (schema w) as [[s|e] w1]; [| reflexivity].
  destruct (accepts_schema s); [| reflexivity].
  unfold bind at 1. destruct (data w1) as [[d|e] w2]; [| reflexivity].
  unfold bind at 1, lift. destruct (iter_errors s d); reflexivity.
Qed.

(** X29.  The findings of [validate_schema].  Let the schema be read
    and the data set be read as a document that is not [null].  When
    the validator rejects the schema, [WMNSchemaError] is raised.
    Otherwise there is one finding for each violation that the
    validator yields, in the same order, with the path and the message
    of the violation; building the findings raises nothing, and an
    exception of the validator itself is passed on as it is. *)
Theorem validate_schema_findings (w w1 w2 : world) (s d : json) :
  schema w = (OK s, w1) ->
  data w1 = (OK d, w2) ->
  is_None d = false ->
  (accepts_schema s = false ->
   validate_schema w = (Raise WMNSchemaError, w1))
  /\ (accepts_schema s = true ->
      (forall errors,
          iter_errors s d = OK errors ->
          exists findings,
            validate_schema w = (OK findings, w2)
            /\ map model_path findings = map error_json_path errors
            /\ map model_message findings = map error_message errors)
      /\ (forall e,
             iter_errors s d = Raise e ->
             validate_schema w = (Raise e, w2))).
Proof.
  intros Hs Hd Hn. rewrite validate_schema_eq, Hs.
  split.
  - intros ->. reflexivity.
  - intros ->. rewrite Hd. split.
    + intros errors He. rewrite He.
      apply for_each_findings. rewrite (data_result _ Hd). exact Hn.
    + intros e He. rewrite He. reflexivity.
Qed.
End ValidatorRuns.

Section ValidatorProgram.
Context {rt : Runtime} {validator : Draft7}.

Lemma _format_validation_error_world (error : ValidationError) (w : world) :
  snd (_format_validation_error error w) = w
  \/ snd (_format_validation_error error w) = snd (data w).
Proof.
  unfold _format_validation_error, bind, try_except, lift, ret, json_dumps.
  destruct (error_absolute_path error) as [|seg path]; [left; reflexivity |].
  right. destruct (data w) as [[d|e] w1]; [| reflexivity].
  destruct (walk d (seg :: path)) as [v|e]; [| reflexivity].
  destruct (negb (is_None v)); [| reflexivity].
  destruct (dumps v); reflexivity.
Qed.

Lemma _format_validation_error_frame (error : ValidationError) (w : world) :
  disk (snd (_format_validation_error error w)) = disk w
  /\ written (snd (_format_validation_error error w)) = written w.
Proof.
  destruct (_format_validation_error_world error w) as [-> | ->];
    [auto |].
  pose proof (data_frame w) as H. cbv zeta in H. intuition.
Qed.

Lemma for_each_cons {A B} (f : A -> M B) (x : A) (l : list A) (w : world) :
  for_each f (x :: l) w
  = match f x w with
    | (Raise e, w1) => (Raise e, w1)
    | (OK y, w1) =>
        match for_each f l w1 with
        | (Raise e, w2) => (Raise e, w2)
        | (OK ys, w2) => (OK (y :: ys), w2)
        end
    end.
Proof.
  simpl. unfold bind at 1. destruct (f x w) as [[y|e] w1]; [| reflexivity].
  unfold bind. destruct (for_each f l w1) as [[ys|e] w2]; reflexivity.
Qed.

Lemma for_each_frame (errors : list ValidationError) (w : world) :
  disk (snd (for_each _format_validation_error errors w)) = disk w
  /\ written (snd (for_each _format_validation_error errors w)) = written w.
Proof.
  revert w. induction errors as [|error errors IH]; intros w; [auto |].
  rewrite for_each_cons.
  pose proof (_format_validation_error_frame error w) as [Hd Hl].
  destruct (_format_validation_error error w) as [[finding|e] w1];
    cbn [snd] in *; [| auto].
  destruct (IH w1) as [Hd' Hl'].
  destruct (for_each _format_validation_error errors w1) as [[l|e] w2];
    cbn [snd] in *; split; congruence.
Qed.

Lemma validate_schema_frame (w : world) :
  disk (snd (validate_schema w)) = disk w
  /\ written (snd (validate_schema w)) = written w.
Proof.
  rewrite validate_schema_eq.
  pose proof (schema_frame w) as Hs. unfold same_but_schema in Hs.
  destruct Hs as [_ [_ [_ [_ [Hd Hl]]]]].
  destruct (schema w) as [[s|e] w1]; cbn [snd] in *; [| auto].
  destruct (accepts_schema s); [| auto].
  pose proof (data_frame w1) as Hf. cbv zeta in Hf.
  destruct Hf as [Hd1 [Hl1 _]].
  destruct (data w1) as [[d|e] w2]; cbn [snd] in *; [| split; congruence].
  destruct (iter_errors s d) as [errors|e];
    [| cbn [snd]; split; congruence].
  destruct (for_each_frame errors w2). split; congruence.
Qed.

Lemma validate_duplicates_frame (w : world) :
  disk (snd (validate_duplicates w)) = disk w
  /\ written (snd (validate_duplicates w)) = written w.
Proof.
  pose proof (data_frame w) as Hf. cbv zeta in Hf.
  destruct Hf as [Hd [Hl _]].
  destruct (data w) as [[d|e] w1] eqn:E; cbn [snd] in *.
  - rewrite (validate_duplicates_eq _ E).
    destruct (rbind (rbind (rbind (py_get_or d SITES_KEY (JArr [])) py_iter)
                           site_names) Counter); auto.
  - unfold validate_duplicates, bind. rewrite E. auto.
Qed.

Lemma validate_main_eq (w : world) :
  wmn_validate_dataset.main w
  = match validate_schema (construct w) with
    | (Raise _, w1) => (OK 1%Z, w1)
    | (OK (_ :: _), w1) => (OK 1%Z, w1)
    | (OK [], w1) =>
        match validate_duplicates w1 with
        | (Raise _, w2) => (OK 1%Z, w2)
        | (OK (_ :: _), w2) => (OK 1%Z, w2)
        | (OK [], w2) => (OK 0%Z, w2)
        end
    end.
Proof.
  unfold wmn_validate_dataset.main, try_except, bind at 1.
  destruct (validate_schema (construct w)) as [[[|x l]|e] w1];
    try reflexivity.
  unfold bind.
  destruct (validate_duplicates w1) as [[[|y l']|e] w2]; reflexivity.
Qed.

(** X30.  The validator as a program.  [main] returns 0 or 1; it
    returns 0 exactly when [validate_schema] returns no finding and
    [validate_duplicates], called after it, no name: when there is a
    finding the duplicates are not looked for.  It never calls
    [write_text], and leaves the disk as it is. *)
Theorem validate_main_read_only (w : world) :
  (fst (wmn_validate_dataset.main w) = OK 0%Z
   \/ fst (wmn_validate_dataset.main w) = OK 1%Z)
  /\ (fst (wmn_validate_dataset.main w) = OK 0%Z
      <-> exists w1 w2,
            validate_schema (construct w) = (OK [], w1)
            /\ validate_duplicates w1 = (OK [], w2))
  /\ (forall finding findings w1,
         validate_schema (construct w) = (OK (finding :: findings), w1) ->
         wmn_validate_dataset.main w = (OK 1%Z, w1))
  /\ written (snd (wmn_validate_dataset.main w)) = written w
  /\ disk (snd (wmn_validate_dataset.main w)) = disk w.
Proof.
  rewrite validate_main_eq.
  pose proof (validate_schema_frame (construct w)) as [Hd Hl].
  cbn [construct disk written] in Hd, Hl.
  destruct (validate_schema (construct w)) as [[[|x l]|e] w1];
    cbn [fst snd] in *.
  - pose proof (validate_duplicates_frame w1) as [Hd' Hl'].
    destruct (validate_duplicates w1) as [[[|y l']|e] w2] eqn:E2;
      cbn [fst snd] in *;
      (split; [auto |]); (split; [| split; [discriminate |
                                             split; congruence]]).
    + split; [eauto | reflexivity].
    + split; [discriminate |].
      intros [v1 [v2 [[= <-] H]]]. rewrite E2 in H. discriminate.
    + split; [discriminate |].
      intros [v1 [v2 [[= <-] H]]]. rewrite E2 in H. discriminate.
  - split; [auto |]. split; [| split; [| auto]].
    + split; [discriminate | intros [v1 [v2 [H _]]]; discriminate].
    + intros finding findings v [= <- <- <-]. reflexivity.
  - split; [auto |]. split; [| split; [discriminate | auto]].
    split; [discriminate | intros [v1 [v2 [H _]]]; discriminate].
Qed.
End ValidatorProgram.


(** A site whose name is a list. *)
Lemma validate_duplicates_shapes_witness :
  validate_duplicates (rt := Example.runtime) Scenario.unhashable_name
  = (Raise TypeError, Scenario.unhashable_name).
Proof.
  destruct (@validate_duplicates_shapes Example.runtime
              Scenario.unhashable_name Scenario.unhashable_name
              (JObj [("sites", JArr [JObj [("name", JArr [JStr "A"])]])]))
    as [_ [_ [_ H]]].
  - reflexivity.
  - apply (H [("sites", JArr [JObj [("name", JArr [JStr "A"])]])]
             [JObj [("name", JArr [JStr "A"])]]
             [("name", JArr [JStr "A"])] (JArr [JStr "A"])).
    + reflexivity.
    + reflexivity.
    + repeat constructor. eexists. reflexivity.
    + left. reflexivity.
    + reflexivity.
    + reflexivity.
    + reflexivity.
Defined.

(** The finding of the sample validator. *)
Lemma validate_schema_findings_witness :
  exists findings,
    validate_schema (rt := Example.runtime) (validator := Scenario.validator)
                    Example.formatter
    = (OK findings, Example.formatter)
    /\ map model_path findings = ["$.sites[0].name"]
    /\ map model_message findings = ["'Zeta' is too long"].
Proof.
  destruct (@validate_schema_findings Example.runtime Scenario.validator
              Example.formatter Example.formatter Example.formatter
              Example.schema Example.dataset)
    as [_ H].
  - reflexivity.
  - reflexivity.
  - reflexivity.
  - destruct H as [H _]; [reflexivity |].
    apply (H [Example.name_violation]). reflexivity.
Defined.
